(** * UK Connections leagues: leaderboard, membership and score fan-out

    A shallow embedding of the league API of the two server variants of
    the repository:

    - [src/unnamed/part_000], the flat-file variant, which keeps
      everything in one JSON document ([data.json]) loaded and saved by
      every handler;
    - [src/server.js], the service-backed variant, whose handlers talk to
      a Supabase client.

    Each route handler becomes a function; the JSON document, the clock
    and the id generator become explicit state. *)

From Stdlib Require Import ZArith Lia Ascii String.
From stdpp Require Import base option list sorting strings pretty gmap.

(** ** JavaScript values and builtins used by the handlers *)

Module JS.

(** Truthiness of a string: only the empty string is falsy. *)
Definition truthy (s : string) : bool :=
  match s with EmptyString => false | String _ _ => true end.

(** [!f] for a request field that may be missing ([undefined] or [null]):
    a missing field and the empty string are falsy. *)
Definition missing (f : option string) : bool :=
  match f with Some s => negb (truthy s) | None => true end.

(** [a || b] on strings. *)
Definition or_else (a b : string) : string := if truthy a then a else b.

(** Strings are the UTF-8 texts of the JavaScript strings.  The white
    space and line terminator characters of ECMAScript, which
    [String.prototype.trim] strips: U+0009 to U+000D, U+0020, U+00A0,
    U+1680, U+2000 to U+200A, U+2028, U+2029, U+202F, U+205F, U+3000 and
    U+FEFF, each as the bytes of its encoding. *)
Definition encoded (bytes : list nat) : string :=
  string_of_list_ascii (ascii_of_nat <$> bytes).

Definition whiteSpace : list string :=
  encoded <$>
    [[9]; [10]; [11]; [12]; [13]; [32]; [194; 160]; [225; 154; 128];
     [226; 128; 128]; [226; 128; 129]; [226; 128; 130]; [226; 128; 131];
     [226; 128; 132]; [226; 128; 133]; [226; 128; 134]; [226; 128; 135];
     [226; 128; 136]; [226; 128; 137]; [226; 128; 138]; [226; 128; 168];
     [226; 128; 169]; [226; 128; 175]; [226; 129; 159]; [227; 128; 128];
     [239; 187; 191]].

(** [s] without its prefix [p], when it starts with [p]. *)
Fixpoint dropPrefix (p s : string) : option string :=
  match p, s with
  | EmptyString, _ => Some s
  | String a p, String b s => if Ascii.eqb a b then dropPrefix p s else None
  | String _ _, EmptyString => None
  end.

(** [s] without its first character, when that is one of [chars]. *)
Fixpoint dropOneOf (chars : list string) (s : string) : option string :=
  match chars with
  | [] => None
  | c :: chars =>
      match dropPrefix c s with
      | Some rest => Some rest
      | None => dropOneOf chars s
      end
  end.

(** Dropping leading characters of [chars]; [fuel] bounds their number. *)
Fixpoint dropLeading (chars : list string) (fuel : nat) (s : string) : string :=
  match fuel with
  | 0 => s
  | S fuel =>
      match dropOneOf chars s with
      | Some rest => dropLeading chars fuel rest
      | None => s
      end
  end.

Definition trimStart (s : string) : string :=
  dropLeading whiteSpace (String.length s) s.

(** A character ends a text exactly when its reversed bytes start the
    reversed text. *)
Definition trimEnd (s : string) : string :=
  String.rev
    (dropLeading (String.rev <$> whiteSpace) (String.length s) (String.rev s)).

(** [String.prototype.trim] *)
Definition trim (s : string) : string := trimEnd (trimStart s).

(** A property of a JSON request body that a handler tests and trims:
    absent, [null], a string, or a value that is not a string (a boolean,
    a number, an array or an object), of which the handlers can only tell
    the truthiness: [false] and [0] are falsy, everything else truthy. *)
Inductive field :=
| Undefined
| Null
| Str (s : string)
| NotString (truthy : bool).

(** The string of a field that is one. *)
Definition text (f : field) : string :=
  match f with Str s => s | _ => EmptyString end.

(** [!f || !f.trim()].  A truthy value that is not a string has no
    [trim] method, and calling it throws a [TypeError]: [None]. *)
Definition blank (f : field) : option bool :=
  match f with
  | Str s => Some (negb (truthy s) || negb (truthy (trim s)))
  | NotString true => None
  | Undefined | Null | NotString false => Some true
  end.

(** A text that starts with a hexadecimal digit, in lower case. *)
Definition hexDigit (c : ascii) : bool :=
  bool_decide (c ∈ list_ascii_of_string "0123456789abcdef").

Definition startsWithHex (s : string) : bool :=
  match s with
  | String c _ => hexDigit c
  | EmptyString => false
  end.

(** [String.prototype.slice(0, n)]. *)
Definition slice0 (n : nat) (s : string) : string := substring 0 n s.

(** [String(n).padStart(2, '0')] for a natural number. *)
Definition padStart2 (n : nat) : string :=
  let s := pretty n in
  if decide (String.length s < 2) then ("0" +:+ s)%string else s.

(** A [Date] object, as far as the handlers read it: the three local
    calendar fields of [getTodayString], and the UTC text of
    [toISOString], which always ends in the zone designator [Z]. *)
Record Date := mkDate {
  getFullYear : nat;
  getMonth : nat;
  getDate : nat;
  isoUtc : string
}.

Definition toISOString (d : Date) : string := (isoUtc d +:+ "Z")%string.

(** [Array.prototype.sort(comparefn)].  ECMAScript requires the sort to be
    stable, and for a consistent comparator every stable sort returns the
    same array; it is modelled by a stable insertion sort: [x] is placed
    before the first [y] with [comparefn x y <= 0]. *)
Section Sort.
Context {A : Type} (comparefn : A → A → Z).

Fixpoint insert (x : A) (sorted : list A) : list A :=
  match sorted with
  | [] => [x]
  | y :: rest =>
      if (comparefn x y <=? 0)%Z then x :: sorted else y :: insert x rest
  end.

Definition sort (l : list A) : list A := foldr insert [] l.

End Sort.

(** [Array.prototype.find] and [findIndex]: the first element satisfying
    the predicate, and its index. *)
Definition find {A} (P : A → Prop) `{∀ x, Decision (P x)} (l : list A)
  : option A := snd <$> list_find P l.

Definition findIndex {A} (P : A → Prop) `{∀ x, Decision (P x)} (l : list A)
  : option nat := fst <$> list_find P l.

(** [array.filter(Boolean)] on an array of objects and [null]s. *)
Definition filterBoolean {A} (l : list (option A)) : list A := omap id l.

(** What a handler answers: [res.json(body)], or
    [res.status(code).json({ error })]; or it throws before it answers
    (the [TypeError] of [blank]), which Express turns into an answer of
    status 500 when the handler is synchronous. *)
Inductive response (A : Type) : Type :=
| Json (body : A)
| Error (status : nat) (error : string)
| Thrown.
Global Arguments Json {A} body.
Global Arguments Error {A} status error.
Global Arguments Thrown {A}.

(** ** Plain objects used as maps

    [db.leagues] and [db.players] are plain objects indexed by strings
    that callers choose.  The map holds the own properties, which are what
    [JSON.stringify] writes to the file.  Reading [obj[key]] falls back on
    [Object.prototype] when there is no own property of that name.
    [prototypeKeys] are the properties [Object.prototype] is born with. *)
Definition prototypeKeys : list string :=
  ["constructor"; "__defineGetter__"; "__defineSetter__"; "hasOwnProperty";
   "__lookupGetter__"; "__lookupSetter__"; "isPrototypeOf";
   "propertyIsEnumerable"; "toString"; "valueOf"; "__proto__";
   "toLocaleString"].

(** What [obj[key]] finds: an own property, or the inherited
    [Object.prototype[key]]: a builtin function, [Object.prototype]
    itself under [__proto__], or a property that the program has added to
    [Object.prototype]. *)
Inductive found (A : Type) : Type :=
| Own (a : A)
| Inherited (key : string).
Global Arguments Own {A} a.
Global Arguments Inherited {A} key.

(** [obj[key]], as far as its truthiness goes, when [inherited] are the
    names of the truthy properties of [Object.prototype]; [None] is
    [undefined], or an inherited falsy value. *)
Definition get {A} (inherited : list string) (obj : gmap string A)
    (key : string) : option (found A) :=
  match obj !! key with
  | Some a => Some (Own a)
  | None => if bool_decide (key ∈ inherited) then Some (Inherited key) else None
  end.

(** [obj[key] = a] for an object [a].  Without an own property of that
    name, assigning to [__proto__] runs the setter of [Object.prototype],
    which replaces the prototype of [obj] and adds no property; every
    other inherited property is a writable data property, which the
    assignment shadows by a property of [obj]. *)
Definition assign {A} (key : string) (a : A) (obj : gmap string A)
  : gmap string A :=
  if bool_decide (key = "__proto__" ∧ obj !! key = None) then obj
  else <[key := a]> obj.

(** The [name] property of the inherited value: a builtin function is
    named after its property, except the constructor, which is [Object];
    [Object.prototype] and an added string have no name. *)
Definition inheritedName (key : string) : option string :=
  if bool_decide (key = "__proto__") then None
  else if bool_decide (key = "constructor") then Some "Object"
  else if bool_decide (key ∈ prototypeKeys) then Some key
  else None.

End JS.

(** ** The environment of the process

    The wall clock ([new Date()]), the random id source ([uuidv4()]) and
    the host's collation ([String.prototype.localeCompare]) are outside
    the program.  The n-th reading of the clock and the n-th drawn id are
    given by the environment; the state counts the readings made.  Of the
    text of a UUID, [xxxxxxxx-xxxx-4xxx-yxxx-xxxxxxxxxxxx] in hexadecimal
    digits, only the first character is relied upon. *)

Class Env := {
  clock : nat → JS.Date;
  uuidv4 : nat → string;
  localeCompare : string → string → Z;
  uuidv4_hex : ∀ n, JS.startsWithHex (uuidv4 n) = true
}.

(** [localeCompare] is a consistent comparator: a total preorder, read
    through the sign of its result. *)
Class ConsistentLocale (E : Env) : Prop := {
  locale_total : ∀ a b,
    (0 < localeCompare a b)%Z → (localeCompare b a <= 0)%Z;
  locale_trans : ∀ a b c,
    (localeCompare a b <= 0)%Z → (localeCompare b c <= 0)%Z →
    (localeCompare a c <= 0)%Z
}.

(** [getTodayString()], from a clock reading. *)
Definition getTodayString (now : JS.Date) : string :=
  let year := pretty (JS.getFullYear now) in
  let month := JS.padStart2 (JS.getMonth now + 1) in
  let day := JS.padStart2 (JS.getDate now) in
  (year +:+ "-" +:+ month +:+ "-" +:+ day)%string.

(** ** Leaderboard entries and their order

    The member list, the comparator given to [members.sort] and the shape
    of a ranked entry are the same text in both server variants. *)

Module Board.

(** A joined member: [mistakes] and [date] are [null] when the member has
    no score for the date.  A present [mistakes] is an integer; other JSON
    values are not represented. *)
Record Entry := mkEntry {
  uuid : string;
  display_name : string;
  mistakes : option Z;
  date : option string
}.

(** [{ ...member, rank }] *)
Record Ranked := mkRanked {
  member : Entry;
  rank : option Z
}.

Global Instance Entry_eq_dec : EqDecision Entry.
Proof. solve_decision. Defined.

Global Instance Ranked_eq_dec : EqDecision Ranked.
Proof. solve_decision. Defined.

(** [member.mistakes !== null] *)
Definition played (e : Entry) : Prop := mistakes e ≠ None.

Global Instance played_dec e : Decision (played e).
Proof. unfold played. apply _. Defined.

(** The literal used when a member has no player record. *)
Definition Unknown : string := "Unknown".

Section WithEnv.
Context `{E : Env}.

(** The comparator of [members.sort]. *)
Definition compareMembers (a b : Entry) : Z :=
  match mistakes a, mistakes b with
  | Some ma, Some mb => ma - mb
  | Some _, None => -1
  | None, Some _ => 1
  | None, None => localeCompare (display_name a) (display_name b)
  end.

Definition sortMembers (members : list Entry) : list Entry :=
  JS.sort compareMembers members.

End WithEnv.

(** The response body of the leaderboard route. *)
Record Body (League : Type) := mkBody {
  league : League;
  on_date : string;
  leaderboard : list Ranked
}.
Global Arguments mkBody {League} league on_date leaderboard.
Global Arguments league {League} b.
Global Arguments on_date {League} b.
Global Arguments leaderboard {League} b.

(** One league of the player summary route; [name] is [None] when it is
    [undefined], which [JSON.stringify] leaves out. *)
Record Summary := mkSummary {
  id : string;
  name : option string;
  total_members : nat;
  played_today : nat
}.

End Board.

(** ** The flat-file variant ([src/unnamed/part_000]) *)

Module FlatFile.

Module League.
Record t := mk { id : string; name : string; createdAt : string }.
End League.

Module Player.
Record t := mk { uuid : string; displayName : string; createdAt : string }.
End Player.

Module Membership.
Record t := mk { playerUuid : string; leagueId : string; joinedAt : string }.
End Membership.

(** [mistakes] is whatever JSON value the submission carried: [null], or
    an integer. *)
Module Score.
Record t := mk {
  playerUuid : string;
  leagueId : string;
  date : string;
  mistakes : option Z;
  recordedAt : string
}.
End Score.

(** The JSON document.  [leagues] and [players] are plain objects used as
    maps, given by their own properties and read with [JS.get];
    [memberships] and [scores] are arrays. *)
Record DB := mkDB {
  leagues : gmap string League.t;
  players : gmap string Player.t;
  memberships : list Membership.t;
  scores : list Score.t
}.

(** The state around a handler: the document on disk, the number of clock
    readings and the number of ids drawn so far, and what the handlers
    have written on the objects of the prototype chain, which lives as
    long as the process: [prototype] holds the [displayName] property
    assigned to the builtin [Object.prototype[key]], under [key]; under
    [__proto__] that is the [displayName] of [Object.prototype] itself,
    which every value without one of its own inherits. *)
Record World := mkWorld {
  file : DB;
  ticks : nat;
  draws : nat;
  prototype : gmap string string
}.

(** What [loadDB] returns when there is no file yet. *)
Definition emptyDB : DB :=
  {| leagues := ∅; players := ∅; memberships := []; scores := [] |}.

Definition init : World :=
  {| file := emptyDB; ticks := 0; draws := 0; prototype := ∅ |}.

(** [loadDB] and [saveDB]; reading and writing the file itself always
    succeeds here (the handlers log and ignore a failure). *)
Definition loadDB (w : World) : DB := file w.

Definition saveDB (db : DB) (w : World) : World :=
  {| file := db; ticks := ticks w; draws := draws w;
     prototype := prototype w |}.

(** The names of the truthy properties of [Object.prototype]: the
    builtin ones, and [displayName] once a non-empty one was written. *)
Definition inheritedKeys (written : gmap string string) : list string :=
  JS.prototypeKeys ++
    match written !! "__proto__" with
    | Some s => if JS.truthy s then ["displayName"] else []
    | None => []
    end.

(** [value.displayName] for the inherited [value = Object.prototype[key]]:
    the own property of a builtin if one was assigned, else the one
    inherited from [Object.prototype] (a string has none of its own). *)
Definition inheritedDisplayName (written : gmap string string) (key : string)
  : option string :=
  if bool_decide (key ∈ JS.prototypeKeys) then
    match written !! key with
    | Some s => Some s
    | None => written !! "__proto__"
    end
  else written !! "__proto__".

(** [const { displayName } = req.body]: a body without the property
    yields what [Object.prototype] has under that name. *)
Definition bodyDisplayName (displayName : JS.field) (w : World) : JS.field :=
  match displayName with
  | JS.Undefined =>
      match prototype w !! "__proto__" with
      | Some s => JS.Str s
      | None => JS.Undefined
      end
  | _ => displayName
  end.

Section WithEnv.
Context `{E : Env}.

(** [new Date()] *)
Definition newDate (w : World) : JS.Date * World :=
  (clock (ticks w),
   {| file := file w; ticks := S (ticks w); draws := draws w;
      prototype := prototype w |}).

(** [new Date().toISOString()] *)
Definition nowISO (w : World) : string * World :=
  let '(now, w) := newDate w in (JS.toISOString now, w).

(** [getTodayString()] *)
Definition today (w : World) : string * World :=
  let '(now, w) := newDate w in (getTodayString now, w).

(** [uuidv4().slice(0, 8)] *)
Definition newLeagueId (w : World) : string * World :=
  (JS.slice0 8 (uuidv4 (draws w)),
   {| file := file w; ticks := ticks w; draws := S (draws w);
      prototype := prototype w |}).

(** [POST /api/leagues]; the answer's [url], built from the request's
    headers, is left out. *)
Definition createLeague (name : JS.field) (w : World)
  : JS.response (string * string) * World :=
  match JS.blank name with
  | None => (JS.Thrown, w)
  | Some true => (JS.Error 400 "League name is required", w)
  | Some false =>
      let name := JS.text name in
      let db := loadDB w in
      let '(id, w) := newLeagueId w in
      let '(createdAt, w) := nowISO w in
      let league := League.mk id (JS.trim name) createdAt in
      let db := {| leagues := JS.assign id league (leagues db);
                   players := players db;
                   memberships := memberships db; scores := scores db |} in
      (JS.Json (id, JS.trim name), saveDB db w)
  end.

(** [GET /api/leagues/:id].  The answer spreads [league], whatever it
    is, and adds the count. *)
Definition getLeague (id : string) (w : World)
  : JS.response (JS.found League.t * nat) * World :=
  let db := loadDB w in
  match JS.get (inheritedKeys (prototype w)) (leagues db) id with
  | None => (JS.Error 404 "League not found", w)
  | Some league =>
      let memberCount :=
        length (filter (λ m, Membership.leagueId m = id) (memberships db)) in
      (JS.Json (league, memberCount), w)
  end.

(** The player upsert of the join route: only an existing truthy
    [createdAt] is kept, and only then the clock is not read (an inherited
    value has no [createdAt]). *)
Definition upsertPlayerOnJoin (uuid displayName : string) (db : DB) (w : World)
  : DB * World :=
  let '(createdAt, w) :=
    match JS.get (inheritedKeys (prototype w)) (players db) uuid with
    | Some (JS.Own p) =>
        if JS.truthy (Player.createdAt p) then (Player.createdAt p, w)
        else nowISO w
    | Some (JS.Inherited _) | None => nowISO w
    end in
  ({| leagues := leagues db;
      players := JS.assign uuid
                   (Player.mk uuid (JS.trim displayName) createdAt)
                   (players db);
      memberships := memberships db; scores := scores db |}, w).

(** The membership block of the join route: push unless the pair is
    already there. *)
Definition addMembership (uuid id : string) (db : DB) (w : World)
  : DB * World :=
  let existingMembership :=
    JS.find (λ m, Membership.playerUuid m = uuid ∧ Membership.leagueId m = id)
            (memberships db) in
  match existingMembership with
  | Some _ => (db, w)
  | None =>
      let '(joinedAt, w) := nowISO w in
      ({| leagues := leagues db; players := players db;
          memberships := memberships db ++ [Membership.mk uuid id joinedAt];
          scores := scores db |}, w)
  end.

(** [POST /api/leagues/:id/join] *)
Definition joinLeague (id : string) (uuid : option string)
    (displayName : JS.field) (w : World)
  : JS.response (JS.found League.t) * World :=
  let displayName := bodyDisplayName displayName w in
  if JS.missing uuid
  then (JS.Error 400 "UUID and display name are required", w) else
  match JS.blank displayName with
  | None => (JS.Thrown, w)
  | Some true => (JS.Error 400 "UUID and display name are required", w)
  | Some false =>
      let uuid := default EmptyString uuid in
      let displayName := JS.text displayName in
      let db := loadDB w in
      match JS.get (inheritedKeys (prototype w)) (leagues db) id with
      | None => (JS.Error 404 "League not found", w)
      | Some league =>
          let '(db, w) := upsertPlayerOnJoin uuid displayName db w in
          let '(db, w) := addMembership uuid id db w in
          (JS.Json league, saveDB db w)
      end
  end.

(** [player?.displayName || 'Unknown'] for [player = db.players[uuid]]. *)
Definition displayNameOf (uuid : string) (db : DB)
    (written : gmap string string) : string :=
  match JS.get (inheritedKeys written) (players db) uuid with
  | Some (JS.Own p) => JS.or_else (Player.displayName p) Board.Unknown
  | Some (JS.Inherited key) =>
      match inheritedDisplayName written key with
      | Some s => JS.or_else s Board.Unknown
      | None => Board.Unknown
      end
  | None => Board.Unknown
  end.

(** The member list of the leaderboard route: every member of the league
    joined with the player record and the score of the date. *)
Definition joinMembers (id date : string) (db : DB)
    (written : gmap string string) : list Board.Entry :=
  let memberUuids :=
    Membership.playerUuid <$>
      filter (λ m, Membership.leagueId m = id) (memberships db) in
  let dateScores :=
    filter (λ s, Score.leagueId s = id ∧ Score.date s = date) (scores db) in
  (λ uuid,
     let score := JS.find (λ s, Score.playerUuid s = uuid) dateScores in
     Board.mkEntry uuid (displayNameOf uuid db written)
       (score ≫= Score.mistakes)
       (Score.date <$> score)) <$> memberUuids.

(** The rank loop, [members.map((member, index) => ...)] over the closure
    variables [currentRank] and [lastMistakes]: a new rank is
    [index + 1] minus the number of unplayed entries before [index]. *)
Fixpoint rankFrom (members : list Board.Entry) (currentRank : Z)
    (lastMistakes : option Z) (index : nat) (todo : list Board.Entry)
  : list Board.Ranked :=
  match todo with
  | [] => []
  | member :: todo =>
      match Board.mistakes member with
      | Some m =>
          if decide (Some m ≠ lastMistakes) then
            let currentRank :=
              (Z.of_nat index + 1
               - Z.of_nat (length (filter (λ m, Board.mistakes m = None)
                                          (take index members))))%Z in
            Board.mkRanked member (Some currentRank)
              :: rankFrom members currentRank (Some m) (S index) todo
          else
            Board.mkRanked member (Some currentRank)
              :: rankFrom members currentRank lastMistakes (S index) todo
      | None =>
          Board.mkRanked member None
            :: rankFrom members currentRank lastMistakes (S index) todo
      end
  end.

Definition assignRanks (members : list Board.Entry) : list Board.Ranked :=
  rankFrom members 0 None 0 members.

(** [req.query.date || getTodayString()] *)
Definition resolveDate (date : option string) (w : World) : string * World :=
  match date with
  | Some d => if JS.truthy d then (d, w) else today w
  | None => today w
  end.

(** [GET /api/leagues/:id/leaderboard] *)
Definition computeLeaderboard (id : string) (date : option string) (w : World)
  : JS.response (Board.Body (JS.found League.t)) * World :=
  let '(date, w) := resolveDate date w in
  let db := loadDB w in
  match JS.get (inheritedKeys (prototype w)) (leagues db) id with
  | None => (JS.Error 404 "League not found", w)
  | Some league =>
      let members := joinMembers id date db (prototype w) in
      let members := Board.sortMembers members in
      (JS.Json (Board.mkBody league date (assignRanks members)), w)
  end.

(** The body of the fan-out loop: update the first score of the key, or
    push a new one. *)
Definition upsertScore (uuid leagueId date : string) (mistakes : option Z)
    (db : DB) (w : World) : DB * World :=
  let existingIndex :=
    JS.findIndex (λ s, Score.playerUuid s = uuid ∧ Score.leagueId s = leagueId
                       ∧ Score.date s = date) (scores db) in
  let '(recordedAt, w) := nowISO w in
  let scores :=
    match existingIndex with
    | Some existingIndex =>
        alter (λ s, Score.mk (Score.playerUuid s) (Score.leagueId s)
                             (Score.date s) mistakes recordedAt)
              existingIndex (scores db)
    | None => scores db ++ [Score.mk uuid leagueId date mistakes recordedAt]
    end in
  ({| leagues := leagues db; players := players db;
      memberships := memberships db; scores := scores |}, w).

(** [for (const leagueId of playerLeagues) { ...; recorded++ }] *)
Fixpoint fanOut (uuid date : string) (mistakes : option Z)
    (playerLeagues : list string) (recorded : nat) (db : DB) (w : World)
  : nat * DB * World :=
  match playerLeagues with
  | [] => (recorded, db, w)
  | leagueId :: playerLeagues =>
      let '(db, w) := upsertScore uuid leagueId date mistakes db w in
      fanOut uuid date mistakes playerLeagues (S recorded) db w
  end.

(** [POST /api/scores].  The [mistakes] field of the body is [None] when
    it is [undefined], [Some None] when it is [null], [Some (Some z)] when
    it is the integer [z]. *)
Definition submitScore (uuid date : option string) (mistakes : option (option Z))
    (w : World) : JS.response nat * World :=
  match mistakes with
  | None => (JS.Error 400 "UUID, date, and mistakes are required", w)
  | Some mistakes =>
      if JS.missing uuid || JS.missing date
      then (JS.Error 400 "UUID, date, and mistakes are required", w) else
      let uuid := default EmptyString uuid in
      let date := default EmptyString date in
      let db := loadDB w in
      let playerLeagues :=
        Membership.leagueId <$>
          filter (λ m, Membership.playerUuid m = uuid) (memberships db) in
      if decide (length playerLeagues = 0) then (JS.Json 0, w) else
      let '(recorded, db, w) := fanOut uuid date mistakes playerLeagues 0 db w in
      (JS.Json recorded, saveDB db w)
  end.

(** [league.name] for what [db.leagues[leagueId]] found. *)
Definition leagueName (league : JS.found League.t) : option string :=
  match league with
  | JS.Own l => Some (League.name l)
  | JS.Inherited key => JS.inheritedName key
  end.

(** [GET /api/player/:uuid/leagues] *)
Definition getPlayerLeagueSummary (uuid : string) (w : World)
  : JS.response (list Board.Summary) * World :=
  let '(today, w) := today w in
  let db := loadDB w in
  let playerLeagueIds :=
    Membership.leagueId <$>
      filter (λ m, Membership.playerUuid m = uuid) (memberships db) in
  let leagues :=
    JS.filterBoolean
      ((λ leagueId,
          match JS.get (inheritedKeys (prototype w)) (leagues db) leagueId with
          | None => None
          | Some league =>
              let totalMembers :=
                length (filter (λ m, Membership.leagueId m = leagueId)
                               (memberships db)) in
              let playedToday :=
                length (filter (λ s, Score.leagueId s = leagueId
                                     ∧ Score.date s = today) (scores db)) in
              Some (Board.mkSummary leagueId (leagueName league)
                                    totalMembers playedToday)
          end) <$> playerLeagueIds) in
  (JS.Json leagues, w).

(** [GET /api/leagues/:id/membership/:uuid] *)
Definition isMember (id uuid : string) (w : World) : JS.response bool * World :=
  let db := loadDB w in
  let membership :=
    JS.find (λ m, Membership.leagueId m = id ∧ Membership.playerUuid m = uuid)
            (memberships db) in
  (JS.Json (bool_decide (is_Some membership)), w).

(** The player upsert of the display-name route: create when
    [db.players[uuid]] finds nothing, else assign [displayName] on what it
    found: on the player's record, or on the inherited value, which is not
    part of the document; that value is a builtin object, or the string
    written on [Object.prototype], on which the assignment has no effect
    (the code is not in strict mode). *)
Definition upsertPlayerOnUpdate (uuid displayName : string) (db : DB)
    (w : World) : DB * World :=
  match JS.get (inheritedKeys (prototype w)) (players db) uuid with
  | None =>
      let '(createdAt, w) := nowISO w in
      ({| leagues := leagues db;
          players := JS.assign uuid
                       (Player.mk uuid (JS.trim displayName) createdAt)
                       (players db);
          memberships := memberships db; scores := scores db |}, w)
  | Some (JS.Own p) =>
      ({| leagues := leagues db;
          players := <[uuid := Player.mk (Player.uuid p) (JS.trim displayName)
                                         (Player.createdAt p)]> (players db);
          memberships := memberships db; scores := scores db |}, w)
  | Some (JS.Inherited key) =>
      if bool_decide (key ∈ JS.prototypeKeys) then
        (db, {| file := file w; ticks := ticks w; draws := draws w;
                prototype := <[key := JS.trim displayName]> (prototype w) |})
      else (db, w)
  end.

(** [PUT /api/player/:uuid] *)
Definition updatePlayer (uuid : string) (displayName : JS.field)
    (w : World) : JS.response unit * World :=
  let displayName := bodyDisplayName displayName w in
  match JS.blank displayName with
  | None => (JS.Thrown, w)
  | Some true => (JS.Error 400 "Display name is required", w)
  | Some false =>
      let displayName := JS.text displayName in
      let db := loadDB w in
      let '(db, w) := upsertPlayerOnUpdate uuid displayName db w in
      (JS.Json (), saveDB db w)
  end.

(** The requests that reach the handlers of the API, and the state after
    serving one.  A body is a JSON object, as [express.json()] hands it
    on; in it, player identifiers and dates are strings when present, as
    in the data model; [name] and [displayName], which the handlers trim,
    are any JSON value. *)
Inductive request :=
| CreateLeague (name : JS.field)
| GetLeague (id : string)
| JoinLeague (id : string) (uuid : option string) (displayName : JS.field)
| Leaderboard (id : string) (date : option string)
| SubmitScore (uuid date : option string) (mistakes : option (option Z))
| PlayerLeagues (uuid : string)
| IsMember (id uuid : string)
| UpdatePlayer (uuid : string) (displayName : JS.field).

Definition serve (r : request) (w : World) : World :=
  match r with
  | CreateLeague name => (createLeague name w).2
  | GetLeague id => (getLeague id w).2
  | JoinLeague id uuid displayName => (joinLeague id uuid displayName w).2
  | Leaderboard id date => (computeLeaderboard id date w).2
  | SubmitScore uuid date mistakes => (submitScore uuid date mistakes w).2
  | PlayerLeagues uuid => (getPlayerLeagueSummary uuid w).2
  | IsMember id uuid => (isMember id uuid w).2
  | UpdatePlayer uuid displayName => (updatePlayer uuid displayName w).2
  end.

(** The states the server can be in during one run of the process: the
    empty document and the prototype objects as they are born, then any
    sequence of requests. *)
Inductive reachable : World → Prop :=
| reachable_init : reachable init
| reachable_serve r w : reachable w → reachable (serve r w).

End WithEnv.

End FlatFile.

(** ** The service-backed variant ([src/server.js]) *)

Module Service.

(** The embedded [players(uuid, display_name)] of a membership row. *)
Module PlayerRef.
Record t := mk { uuid : string; display_name : string }.
End PlayerRef.

(** A row of [league_memberships] with its player, [null] when the player
    cannot be resolved. *)
Module MemberRow.
Record t := mk { player_uuid : string; players : option PlayerRef.t }.
End MemberRow.

(** A row of [daily_scores], as far as the handlers read and write it. *)
Module ScoreRow.
Record t := mk {
  player_uuid : string;
  league_id : string;
  date : string;
  mistakes : option Z
}.
End ScoreRow.

(** The embedded [leagues(id, name)] of a membership row. *)
Module LeagueRef.
Record t := mk { id : string; name : string }.
End LeagueRef.

Module PlayerLeagueRow.
Record t := mk { league_id : string; leagues : option LeagueRef.t }.
End PlayerLeagueRow.

(** The Supabase client, as the handlers use it.  The service is outside
    the program: each query of the handlers is an operation of the
    client on the state of the service.  A read answers its [data] (or
    [count]), [None] for [null]; the write answers whether it reported an
    [error], and the state after it. *)
Class Client (Store League : Type) := {
  (* from('leagues').select('*').eq('id', id).single(), with
     [leagueError || !league] read as [None] *)
  selectLeague : string → Store → option League;
  (* from('league_memberships')
       .select('player_uuid, players(uuid, display_name)').eq('league_id', id) *)
  selectMembers : string → Store → option (list MemberRow.t);
  (* from('daily_scores').select('*').eq('league_id', id).eq('date', date) *)
  selectScores : string → string → Store → option (list ScoreRow.t);
  (* from('league_memberships').select('league_id').eq('player_uuid', uuid) *)
  selectLeagueIds : string → Store → option (list string);
  (* from('daily_scores').upsert(row, { onConflict: 'player_uuid,league_id,date' }) *)
  upsertScore : ScoreRow.t → Store → bool * Store;
  (* from('league_memberships')
       .select('league_id, leagues(id, name)').eq('player_uuid', uuid) *)
  selectPlayerLeagues : string → Store → option (list PlayerLeagueRow.t);
  (* from('league_memberships').select('*', { count: 'exact', head: true })
       .eq('league_id', id) *)
  countMembers : string → Store → option nat;
  (* from('daily_scores').select('*', { count: 'exact', head: true })
       .eq('league_id', id).eq('date', date) *)
  countScores : string → string → Store → option nat
}.

(** The state around a handler: the state of the service and the number
    of clock readings. *)
Record World (Store : Type) := mkWorld {
  store : Store;
  ticks : nat
}.
Global Arguments mkWorld {Store} store ticks.
Global Arguments store {Store} w.
Global Arguments ticks {Store} w.

Section WithEnv.
Context `{E : Env} {Store League : Type} `{C : Client Store League}.

(** [getTodayString()] *)
Definition today (w : World Store) : string * World Store :=
  (getTodayString (clock (ticks w)), mkWorld (store w) (S (ticks w))).

(** [req.query.date || getTodayString()] *)
Definition resolveDate (date : option string) (w : World Store)
  : string * World Store :=
  match date with
  | Some d => if JS.truthy d then (d, w) else today w
  | None => today w
  end.

(** The member list of the leaderboard route, from the two query
    results. *)
Definition joinMembers (memberships : option (list MemberRow.t))
    (scores : option (list ScoreRow.t)) : list Board.Entry :=
  (λ m,
     let score :=
       JS.find (λ s, ScoreRow.player_uuid s = MemberRow.player_uuid m)
               (default [] scores) in
     Board.mkEntry (MemberRow.player_uuid m)
       (match MemberRow.players m with
        | Some p => JS.or_else (PlayerRef.display_name p) Board.Unknown
        | None => Board.Unknown
        end)
       (score ≫= ScoreRow.mistakes)
       (ScoreRow.date <$> score)) <$> default [] memberships.

(** The rank loop, [members.map((member, index) => ...)] over the closure
    variables [currentRank], [lastMistakes] and [playedCount]. *)
Fixpoint rankFrom (currentRank : Z) (lastMistakes : option Z) (playedCount : Z)
    (todo : list Board.Entry) : list Board.Ranked :=
  match todo with
  | [] => []
  | member :: todo =>
      match Board.mistakes member with
      | Some m =>
          let playedCount := (playedCount + 1)%Z in
          if decide (Some m ≠ lastMistakes) then
            Board.mkRanked member (Some playedCount)
              :: rankFrom playedCount (Some m) playedCount todo
          else
            Board.mkRanked member (Some currentRank)
              :: rankFrom currentRank lastMistakes playedCount todo
      | None =>
          Board.mkRanked member None
            :: rankFrom currentRank lastMistakes playedCount todo
      end
  end.

Definition assignRanks (members : list Board.Entry) : list Board.Ranked :=
  rankFrom 0 None 0 members.

(** Sorting and ranking, from the two query results. *)
Definition rankedMembers (memberships : option (list MemberRow.t))
    (scores : option (list ScoreRow.t)) : list Board.Ranked :=
  assignRanks (Board.sortMembers (joinMembers memberships scores)).

(** [GET /api/leagues/:id/leaderboard] *)
Definition computeLeaderboard (id : string) (date : option string)
    (w : World Store) : JS.response (Board.Body League) * World Store :=
  let '(date, w) := resolveDate date w in
  match selectLeague id (store w) with
  | None => (JS.Error 404 "League not found", w)
  | Some league =>
      let memberships := selectMembers id (store w) in
      let scores := selectScores id date (store w) in
      (JS.Json (Board.mkBody league date (rankedMembers memberships scores)), w)
  end.

(** [for (const { league_id } of memberships) { ...; if (!error) recorded++ }] *)
Fixpoint fanOut (uuid date : string) (mistakes : option Z)
    (memberships : list string) (recorded : nat) (st : Store) : nat * Store :=
  match memberships with
  | [] => (recorded, st)
  | league_id :: memberships =>
      let '(error, st) :=
        upsertScore (ScoreRow.mk uuid league_id date mistakes) st in
      fanOut uuid date mistakes memberships
             (if error then recorded else S recorded) st
  end.

(** [POST /api/scores]; the [mistakes] field of the body is [None] when it
    is [undefined], [Some None] when it is [null], [Some (Some z)] when it
    is the integer [z]. *)
Definition submitScore (uuid date : option string)
    (mistakes : option (option Z)) (w : World Store)
  : JS.response nat * World Store :=
  match mistakes with
  | None => (JS.Error 400 "UUID, date, and mistakes are required", w)
  | Some mistakes =>
      if JS.missing uuid || JS.missing date
      then (JS.Error 400 "UUID, date, and mistakes are required", w) else
      let uuid := default EmptyString uuid in
      let date := default EmptyString date in
      match selectLeagueIds uuid (store w) with
      | None | Some [] => (JS.Json 0, w)
      | Some memberships =>
          let '(recorded, st) :=
            fanOut uuid date mistakes memberships 0 (store w) in
          (JS.Json recorded, mkWorld st (ticks w))
      end
  end.

(** [GET /api/player/:uuid/leagues] *)
Definition getPlayerLeagueSummary (uuid : string) (w : World Store)
  : JS.response (list Board.Summary) * World Store :=
  let '(today, w) := today w in
  match selectPlayerLeagues uuid (store w) with
  | None | Some [] => (JS.Json [], w)
  | Some memberships =>
      let leagues :=
        (λ m,
           let totalMembers :=
             countMembers (PlayerLeagueRow.league_id m) (store w) in
           let playedToday :=
             countScores (PlayerLeagueRow.league_id m) today (store w) in
           Board.mkSummary (PlayerLeagueRow.league_id m)
             (Some (match PlayerLeagueRow.leagues m with
                    | Some l => JS.or_else (LeagueRef.name l) Board.Unknown
                    | None => Board.Unknown
                    end))
             (default 0 totalMembers) (default 0 playedToday))
        <$> memberships in
      (JS.Json leagues, w)
  end.

End WithEnv.

End Service.

(** ** A concrete environment and a concrete service

    Used to run the handlers on examples. *)

Module Sample.

(** Comparison by code units, as a collation. *)
Definition codeUnitCompare (a b : string) : Z :=
  match String.compare a b with
  | Eq => 0
  | Lt => -1
  | Gt => 1
  end%Z.

(** The clock advances one day per reading, starting on 2024-01-05; the
    ids drawn start with [abcd1234]. *)
Definition env : Env := {|
  clock n :=
    JS.mkDate 2024 0 (5 + n)
      ("2024-01-" +:+ JS.padStart2 (5 + n) +:+ "T09:30:00.000")%string;
  uuidv4 n := ("abcd" +:+ pretty (1234 + n) +:+ "-0000-4000-8000-000000000000")%string;
  localeCompare := codeUnitCompare;
  uuidv4_hex _ := eq_refl
|}.

(** A service with one league of four members, one of them without a
    player record; the player [bob] is in three leagues, one of which no
    longer resolves.  The state is the [daily_scores] table; an upsert on
    a league for which [down] holds reports an error and writes
    nothing. *)
Definition sameKey (a b : Service.ScoreRow.t) : Prop :=
  Service.ScoreRow.player_uuid a = Service.ScoreRow.player_uuid b
  ∧ Service.ScoreRow.league_id a = Service.ScoreRow.league_id b
  ∧ Service.ScoreRow.date a = Service.ScoreRow.date b.

Definition client (down : string → bool)
  : Service.Client (list Service.ScoreRow.t) string := {|
  Service.selectLeague id _ :=
    if decide (id = "abcd1234") then Some "My League" else None;
  Service.selectMembers id _ :=
    if decide (id = "abcd1234") then
      Some [Service.MemberRow.mk "u-alice" (Some (Service.PlayerRef.mk "u-alice" "Alice"));
            Service.MemberRow.mk "u-ghost" None;
            Service.MemberRow.mk "u-bob" (Some (Service.PlayerRef.mk "u-bob" "Bob"));
            Service.MemberRow.mk "u-carol" (Some (Service.PlayerRef.mk "u-carol" "Carol"))]
    else Some [];
  Service.selectScores id date st :=
    Some (filter (λ s, Service.ScoreRow.league_id s = id
                       ∧ Service.ScoreRow.date s = date) st);
  Service.selectLeagueIds uuid _ :=
    if decide (uuid = "u-bob") then Some ["abcd1234"; "gone0000"; "wxyz5678"]
    else Some [];
  Service.upsertScore row st :=
    if down (Service.ScoreRow.league_id row) then (true, st)
    else (false, filter (λ s, ¬ sameKey s row) st ++ [row]);
  Service.selectPlayerLeagues uuid _ :=
    if decide (uuid = "u-bob") then
      Some [Service.PlayerLeagueRow.mk "abcd1234"
              (Some (Service.LeagueRef.mk "abcd1234" "My League"));
            Service.PlayerLeagueRow.mk "gone0000" None;
            Service.PlayerLeagueRow.mk "wxyz5678"
              (Some (Service.LeagueRef.mk "wxyz5678" "Other League"))]
    else Some [];
  Service.countMembers id _ :=
    if decide (id = "abcd1234") then Some 4 else Some 1;
  Service.countScores id date st :=
    Some (length (filter (λ s, Service.ScoreRow.league_id s = id
                               ∧ Service.ScoreRow.date s = date) st))
|}.

Definition healthy : string → bool := λ _, false.

Definition goneIsDown : string → bool := λ id, bool_decide (id = "gone0000").

(** The scenario of the leaderboard: Bob and Carol with two mistakes, the
    other two members without a score. *)
Definition scores0 : list Service.ScoreRow.t :=
  [Service.ScoreRow.mk "u-carol" "abcd1234" "2024-01-05" (Some 2%Z);
   Service.ScoreRow.mk "u-bob" "abcd1234" "2024-01-05" (Some 2%Z)].

Definition service0 : Service.World (list Service.ScoreRow.t) :=
  Service.mkWorld scores0 0.

(** Joined members in no particular order: two without a score, two with
    one. *)
Definition members0 : list Board.Entry :=
  [Board.mkEntry "u-zara" "Zara" None None;
   Board.mkEntry "u-bob" "Bob" (Some 2%Z) (Some "2024-01-05");
   Board.mkEntry "u-amy" "Amy" None None;
   Board.mkEntry "u-dave" "Dave" (Some 0%Z) (Some "2024-01-05")].

(** The flat-file server after a league was created and Bob joined it. *)
Definition world1 : FlatFile.World :=
  FlatFile.serve (E := env)
    (FlatFile.JoinLeague "abcd1234" (Some "u-bob") (JS.Str " Bob "))
    (FlatFile.serve (E := env) (FlatFile.CreateLeague (JS.Str "My League "))
       FlatFile.init).

(** ... and after Bob submitted two mistakes for 2024-01-05. *)
Definition world2 : FlatFile.World :=
  FlatFile.serve (E := env)
    (FlatFile.SubmitScore (Some "u-bob") (Some "2024-01-05") (Some (Some 2%Z)))
    world1.

(** A flat file in which a member of the league has no player record. *)
Definition orphanWorld : FlatFile.World :=
  FlatFile.mkWorld
    (FlatFile.mkDB
       {["abcd1234" := FlatFile.League.mk "abcd1234" "My League"
                         "2024-01-05T09:30:00.000Z"]}
       ∅
       [FlatFile.Membership.mk "u-ghost" "abcd1234" "2024-01-06T09:30:00.000Z"]
       [])
    2 1 ∅.

End Sample.

(** ** Specification vocabulary *)

Module Spec.

(** The played rows of a leaderboard, in their order. *)
Definition playedRows (board : list Board.Ranked) : list Board.Ranked :=
  filter (λ r, Board.played (Board.member r)) board.

(** The 0-based position, among the played rows, of the first row with
    the same mistakes as [r]: the first member of the tied group of [r]. *)
Definition firstOfGroup (board : list Board.Ranked) (r : Board.Ranked)
  : option nat :=
  JS.findIndex
    (λ r', Board.mistakes (Board.member r') = Board.mistakes (Board.member r))
    (playedRows board).

(** The order a comparator stands for: [a] may come before [b]. *)
Definition before {A} (comparefn : A → A → Z) (a b : A) : Prop :=
  (comparefn a b <= 0)%Z.

(** What the closure variables of the rank loop hold once the played
    entries [seen] have been ranked: nothing yet, or the mistakes of the
    last one, which bound those of all the others, and the 1-based
    position of the first entry with these mistakes. *)
Definition rankState (seen : list Board.Entry) (currentRank : Z)
    (lastMistakes : option Z) : Prop :=
  match lastMistakes with
  | None => seen = []
  | Some m =>
      (∃ k, JS.findIndex (λ e, Board.mistakes e = Some m) seen = Some k
            ∧ currentRank = (Z.of_nat k + 1)%Z)
      ∧ Forall (λ e, ∃ me, Board.mistakes e = Some me ∧ (me <= m)%Z) seen
  end.

(** Dense competition ranks on a leaderboard: unplayed rows have no rank
    wherever they stand; the played rows come first; the rank of a played
    row is the 1-based position, among the played rows, of the first row
    of its tied group; the first played row has rank 1; ranks do not
    decrease along the played rows; and two played rows have the same
    rank exactly when they have the same mistakes. *)
Definition denseRanked (board : list Board.Ranked) : Prop :=
  (∀ r, r ∈ board → Board.mistakes (Board.member r) = None →
        Board.rank r = None)
  ∧ (∃ rest, board = playedRows board ++ rest)
  ∧ (∀ i r, playedRows board !! i = Some r →
       ∃ k, firstOfGroup board r = Some k
            ∧ Board.rank r = Some (Z.of_nat k + 1)%Z)
  ∧ (∀ r, playedRows board !! 0 = Some r → Board.rank r = Some 1%Z)
  ∧ (∀ i j ri rj, i ≤ j →
       playedRows board !! i = Some ri → playedRows board !! j = Some rj →
       ∃ x y, Board.rank ri = Some x ∧ Board.rank rj = Some y ∧ (x <= y)%Z)
  ∧ (∀ ri rj, ri ∈ playedRows board → rj ∈ playedRows board →
       (Board.rank ri = Board.rank rj
        ↔ Board.mistakes (Board.member ri) = Board.mistakes (Board.member rj))).

(** A membership row whose player cannot be resolved, given a player
    record whose display name is the literal [Unknown]. *)
Definition named (m : Service.MemberRow.t) : Service.MemberRow.t :=
  match Service.MemberRow.players m with
  | Some _ => m
  | None =>
      Service.MemberRow.mk (Service.MemberRow.player_uuid m)
        (Some (Service.PlayerRef.mk (Service.MemberRow.player_uuid m)
                                    Board.Unknown))
  end.

(** The flat file with a player record added under [uuid]. *)
Definition withPlayer (uuid : string) (p : FlatFile.Player.t)
    (db : FlatFile.DB) : FlatFile.DB :=
  {| FlatFile.leagues := FlatFile.leagues db;
     FlatFile.players := <[uuid := p]> (FlatFile.players db);
     FlatFile.memberships := FlatFile.memberships db;
     FlatFile.scores := FlatFile.scores db |}.

(** The test of the fan-out loop for an existing score. *)
Definition scoreOf (uuid leagueId date : string) (s : FlatFile.Score.t) : Prop :=
  FlatFile.Score.playerUuid s = uuid ∧ FlatFile.Score.leagueId s = leagueId
  ∧ FlatFile.Score.date s = date.

Global Instance scoreOf_dec uuid leagueId date s
  : Decision (scoreOf uuid leagueId date s).
Proof. unfold scoreOf. apply _. Defined.

(** The test of the join route for an existing membership. *)
Definition membershipOf (uuid id : string) (m : FlatFile.Membership.t) : Prop :=
  FlatFile.Membership.playerUuid m = uuid ∧ FlatFile.Membership.leagueId m = id.

Global Instance membershipOf_dec uuid id m : Decision (membershipOf uuid id m).
Proof. unfold membershipOf. apply _. Defined.

(** A submission the specification wants refused: an identifier or the
    date missing or empty, or mistakes absent, not an integer ([null]
    here) or negative. *)
Definition refusedBySpec (uuid date : option string)
    (mistakes : option (option Z)) : Prop :=
  JS.missing uuid = true ∨ JS.missing date = true ∨ mistakes = None
  ∨ mistakes = Some None ∨ ∃ z, mistakes = Some (Some z) ∧ (z < 0)%Z.

(** A submission the handlers refuse. *)
Definition refused (uuid date : option string)
    (mistakes : option (option Z)) : Prop :=
  JS.missing uuid = true ∨ JS.missing date = true ∨ mistakes = None.

(** The keys of the two arrays of the flat file. *)
Definition membershipKey (m : FlatFile.Membership.t) : string * string :=
  (FlatFile.Membership.playerUuid m, FlatFile.Membership.leagueId m).

Definition scoreKey (s : FlatFile.Score.t) : string * string * string :=
  (FlatFile.Score.playerUuid s, FlatFile.Score.leagueId s, FlatFile.Score.date s).

(** The leagues a player is a member of, in the flat file. *)
Definition leaguesOf (uuid : string) (db : FlatFile.DB) : list string :=
  FlatFile.Membership.leagueId <$>
    filter (λ m, FlatFile.Membership.playerUuid m = uuid) (FlatFile.memberships db).

(** What every state of the flat-file server satisfies: a player and a
    league are paired at most once, a player has at most one score per
    league and date, every score belongs to a membership, and a player
    record carries its own key and a creation time. *)
Definition wellFormed (db : FlatFile.DB) : Prop :=
  NoDup (membershipKey <$> FlatFile.memberships db)
  ∧ NoDup (scoreKey <$> FlatFile.scores db)
  ∧ Forall (λ s, (FlatFile.Score.playerUuid s, FlatFile.Score.leagueId s)
                 ∈ membershipKey <$> FlatFile.memberships db)
           (FlatFile.scores db)
  ∧ map_Forall (λ uuid p, FlatFile.Player.uuid p = uuid
                          ∧ JS.truthy (FlatFile.Player.createdAt p) = true)
               (FlatFile.players db).

Section Service.
Context {Store League : Type} `{C : Service.Client Store League}.

(** The run of the service-backed fan-out, league by league: what each
    upsert reported, and the state of the service after all of them. *)
Fixpoint reports (uuid date : string) (mistakes : option Z)
    (memberships : list string) (st : Store) : list bool :=
  match memberships with
  | [] => []
  | league_id :: memberships =>
      let r := Service.upsertScore
                 (Service.ScoreRow.mk uuid league_id date mistakes) st in
      r.1 :: reports uuid date mistakes memberships r.2
  end.

Definition storeAfter (uuid date : string) (mistakes : option Z)
    (memberships : list string) (st : Store) : Store :=
  foldl (λ st league_id,
           (Service.upsertScore
              (Service.ScoreRow.mk uuid league_id date mistakes) st).2)
        st memberships.

End Service.

End Spec.

(** ** The other routes of the service-backed variant ([src/server.js]) *)

Module Routes.

(** A row of [league_memberships], as far as the handlers write it. *)
Module MembershipRow.
Record t := mk { player_uuid : string; league_id : string }.
End MembershipRow.

(** The writes and the membership test of the Supabase client.  A write
    answers whether it reported an [error], and the state after it. *)
Class Writer (Store : Type) := {
  (* from('leagues').insert({ id, name }) *)
  insertLeague : Service.LeagueRef.t → Store → bool * Store;
  (* from('players').upsert({ uuid, display_name }, { onConflict: 'uuid' }) *)
  upsertPlayer : Service.PlayerRef.t → Store → bool * Store;
  (* from('league_memberships')
       .upsert({ player_uuid, league_id },
               { onConflict: 'player_uuid,league_id', ignoreDuplicates: true }) *)
  upsertMembership : MembershipRow.t → Store → bool * Store;
  (* from('league_memberships').select('*')
       .eq('league_id', id).eq('player_uuid', uuid).single(), its [data] *)
  selectMembership : string → string → Store → option MembershipRow.t
}.

(** The state around a handler: the service, and the number of ids drawn
    so far. *)
Record World (Store : Type) := mkWorld {
  store : Store;
  draws : nat
}.
Global Arguments mkWorld {Store} store draws.
Global Arguments store {Store} w.
Global Arguments draws {Store} w.

Section WithEnv.
Context `{E : Env} {Store League : Type}.
Context `{C : Service.Client Store League} `{W : Writer Store}.

(** [POST /api/leagues]; the answer's [url], built from the request's
    headers, is left out. *)
Definition createLeague (name : JS.field) (w : World Store)
  : JS.response (string * string) * World Store :=
  match JS.blank name with
  | None => (JS.Thrown, w)
  | Some true => (JS.Error 400 "League name is required", w)
  | Some false =>
      let name := JS.text name in
      let id := JS.slice0 8 (uuidv4 (draws w)) in
      let '(error, st) :=
        insertLeague (Service.LeagueRef.mk id (JS.trim name)) (store w) in
      if error
      then (JS.Error 500 "Failed to create league", mkWorld st (S (draws w)))
      else (JS.Json (id, JS.trim name), mkWorld st (S (draws w)))
  end.

(** [GET /api/leagues/:id] *)
Definition getLeague (id : string) (w : World Store)
  : JS.response (League * nat) * World Store :=
  match Service.selectLeague id (store w) with
  | None => (JS.Error 404 "League not found", w)
  | Some league =>
      let count := Service.countMembers id (store w) in
      (JS.Json (league, default 0 count), w)
  end.

(** [POST /api/leagues/:id/join]; what the two upserts report is not
    looked at. *)
Definition joinLeague (id : string) (uuid : option string)
    (displayName : JS.field) (w : World Store)
  : JS.response League * World Store :=
  if JS.missing uuid
  then (JS.Error 400 "UUID and display name are required", w) else
  match JS.blank displayName with
  | None => (JS.Thrown, w)
  | Some true => (JS.Error 400 "UUID and display name are required", w)
  | Some false =>
      let uuid := default EmptyString uuid in
      let displayName := JS.text displayName in
      match Service.selectLeague id (store w) with
      | None => (JS.Error 404 "League not found", w)
      | Some league =>
          let '(_, st) :=
            upsertPlayer (Service.PlayerRef.mk uuid (JS.trim displayName))
                         (store w) in
          let '(_, st) := upsertMembership (MembershipRow.mk uuid id) st in
          (JS.Json league, mkWorld st (draws w))
      end
  end.

(** [GET /api/leagues/:id/membership/:uuid] *)
Definition isMember (id uuid : string) (w : World Store)
  : JS.response bool * World Store :=
  let data := selectMembership id uuid (store w) in
  (JS.Json (bool_decide (is_Some data)), w).

(** [PUT /api/player/:uuid] *)
Definition updatePlayer (uuid : string) (displayName : JS.field)
    (w : World Store) : JS.response unit * World Store :=
  match JS.blank displayName with
  | None => (JS.Thrown, w)
  | Some true => (JS.Error 400 "Display name is required", w)
  | Some false =>
      let displayName := JS.text displayName in
      let '(error, st) :=
        upsertPlayer (Service.PlayerRef.mk uuid (JS.trim displayName))
                     (store w) in
      if error
      then (JS.Error 500 "Failed to update player", mkWorld st (draws w))
      else (JS.Json (), mkWorld st (draws w))
  end.

End WithEnv.

End Routes.

(** ** Further vocabulary *)

Module Cover.

(** Every membership of the flat file refers to a league that
    [db.leagues[id]] finds, and to a stored player unless the player's
    identifier is [__proto__]. *)
Definition linked (w : FlatFile.World) : Prop :=
  Forall (λ m, is_Some (JS.get (FlatFile.inheritedKeys (FlatFile.prototype w))
                               (FlatFile.leagues (FlatFile.file w))
                               (FlatFile.Membership.leagueId m))
               ∧ (is_Some (FlatFile.players (FlatFile.file w)
                             !! FlatFile.Membership.playerUuid m)
                  ∨ FlatFile.Membership.playerUuid m = "__proto__"))
         (FlatFile.memberships (FlatFile.file w)).

(** Neither object of the file has a property of its own called
    [__proto__]. *)
Definition plain (db : FlatFile.DB) : Prop :=
  FlatFile.leagues db !! "__proto__" = None
  ∧ FlatFile.players db !! "__proto__" = None.

(** No stored name, player identifier or date is empty, and a league is
    stored under its own id. *)
Definition nonBlank (db : FlatFile.DB) : Prop :=
  map_Forall (λ id l, FlatFile.League.id l = id
                      ∧ JS.truthy (FlatFile.League.name l) = true)
             (FlatFile.leagues db)
  ∧ map_Forall (λ _ p, JS.truthy (FlatFile.Player.displayName p) = true)
               (FlatFile.players db)
  ∧ Forall (λ m, JS.truthy (FlatFile.Membership.playerUuid m) = true)
           (FlatFile.memberships db)
  ∧ Forall (λ s, JS.truthy (FlatFile.Score.playerUuid s) = true
                 ∧ JS.truthy (FlatFile.Score.date s) = true)
           (FlatFile.scores db).

(** Who played, with how many mistakes and which rank, in the order of
    the leaderboard. *)
Definition standing (r : Board.Ranked) : string * option Z * option Z :=
  (Board.uuid (Board.member r), Board.mistakes (Board.member r), Board.rank r).

Definition standings (board : list Board.Ranked)
  : list (string * option Z * option Z) :=
  standing <$> Spec.playedRows board.

(** Who an entry is of, and the mistakes made. *)
Definition result (e : Board.Entry) : string * option Z :=
  (Board.uuid e, Board.mistakes e).

(** The requests that submit a score. *)
Definition isSubmission (r : FlatFile.request) : bool :=
  match r with
  | FlatFile.SubmitScore _ _ _ => true
  | _ => false
  end.

(** The requests that only read the flat file. *)
Definition readOnly (r : FlatFile.request) : bool :=
  match r with
  | FlatFile.GetLeague _ | FlatFile.Leaderboard _ _
  | FlatFile.PlayerLeagues _ | FlatFile.IsMember _ _ => true
  | _ => false
  end.

(** The HTTP status of an answer, and the status with which the handler
    of the flat-file server answers a request (an exception thrown by a
    synchronous handler is answered with status 500). *)
Definition status {A} (res : JS.response A) : nat :=
  match res with
  | JS.Json _ => 200
  | JS.Error code _ => code
  | JS.Thrown => 500
  end.

Definition answered `{E : Env} (r : FlatFile.request) (w : FlatFile.World)
  : nat :=
  match r with
  | FlatFile.CreateLeague name => status (FlatFile.createLeague name w).1
  | FlatFile.GetLeague id => status (FlatFile.getLeague id w).1
  | FlatFile.JoinLeague id uuid displayName =>
      status (FlatFile.joinLeague id uuid displayName w).1
  | FlatFile.Leaderboard id date =>
      status (FlatFile.computeLeaderboard id date w).1
  | FlatFile.SubmitScore uuid date mistakes =>
      status (FlatFile.submitScore uuid date mistakes w).1
  | FlatFile.PlayerLeagues uuid =>
      status (FlatFile.getPlayerLeagueSummary uuid w).1
  | FlatFile.IsMember id uuid => status (FlatFile.isMember id uuid w).1
  | FlatFile.UpdatePlayer uuid displayName =>
      status (FlatFile.updatePlayer uuid displayName w).1
  end.

(** A service whose writes all report an error and change nothing, and
    which finds no membership. *)
Definition failingWriter : Routes.Writer (list Service.ScoreRow.t) := {|
  Routes.insertLeague _ st := (true, st);
  Routes.upsertPlayer _ st := (true, st);
  Routes.upsertMembership _ st := (true, st);
  Routes.selectMembership _ _ _ := None
|}.

Definition routes0 : Routes.World (list Service.ScoreRow.t) :=
  Routes.mkWorld Sample.scores0 0.

(** The flat-file server after a league was created and a player joined
    it under the identifier [__proto__] ... *)
Definition protoJoined : FlatFile.World :=
  FlatFile.serve (E := Sample.env)
    (FlatFile.JoinLeague "abcd1234" (Some "__proto__") (JS.Str "Mallory"))
    (FlatFile.serve (E := Sample.env) (FlatFile.CreateLeague (JS.Str "My League"))
       FlatFile.init).

(** ... and after the display name of that player was updated. *)
Definition protoRenamed : FlatFile.World :=
  FlatFile.serve (E := Sample.env)
    (FlatFile.UpdatePlayer "__proto__" (JS.Str "Eve")) protoJoined.

(** The flat-file server after a player joined the league that
    [db.leagues] finds under [toString]. *)
Definition builtinJoined : FlatFile.World :=
  FlatFile.serve (E := Sample.env)
    (FlatFile.JoinLeague "toString" (Some "u-bob") (JS.Str "Bob"))
    FlatFile.init.

End Cover.

(** ** Plain objects *)

Section PlainObjects.
Context {A : Type} (inherited : list string).
Implicit Types (obj : gmap string A) (key : string) (a : A).

Lemma get_own obj key a :
  obj !! key = Some a → JS.get inherited obj key = Some (JS.Own a).
Proof. unfold JS.get. by intros ->. Qed.

Lemma get_Own obj key a :
  JS.get inherited obj key = Some (JS.Own a) ↔ obj !! key = Some a.
Proof.
  split; [|apply get_own]. unfold JS.get.
  destruct (obj !! key); [by intros [= ->]|]. by destruct (bool_decide _).
Qed.

Lemma get_Inherited obj key k :
  JS.get inherited obj key = Some (JS.Inherited k)
  ↔ obj !! key = None ∧ key ∈ inherited ∧ k = key.
Proof.
  unfold JS.get. destruct (obj !! key) as [a|]; [naive_solver|].
  destruct (bool_decide (key ∈ inherited)) eqn:Hk.
  - apply bool_decide_eq_true_1 in Hk. naive_solver.
  - apply bool_decide_eq_false_1 in Hk. naive_solver.
Qed.

Lemma get_None obj key :
  JS.get inherited obj key = None ↔ obj !! key = None ∧ key ∉ inherited.
Proof.
  unfold JS.get. destruct (obj !! key) as [a|]; [naive_solver|].
  destruct (bool_decide (key ∈ inherited)) eqn:Hk.
  - apply bool_decide_eq_true_1 in Hk. naive_solver.
  - apply bool_decide_eq_false_1 in Hk. naive_solver.
Qed.

Lemma get_ordinary obj key :
  key ∉ inherited → JS.get inherited obj key = JS.Own <$> obj !! key.
Proof.
  intros Hk. unfold JS.get. destruct (obj !! key); [done|].
  by rewrite bool_decide_eq_false_2.
Qed.

Lemma proto_is_prototypeKey : "__proto__" ∈ JS.prototypeKeys.
Proof. unfold JS.prototypeKeys. set_solver. Qed.

Lemma assign_cases key a obj :
  (key = "__proto__" ∧ obj !! key = None ∧ JS.assign key a obj = obj)
  ∨ ((key ≠ "__proto__" ∨ is_Some (obj !! key))
     ∧ JS.assign key a obj = <[key := a]> obj).
Proof.
  unfold JS.assign. destruct (bool_decide _) eqn:Hd.
  - apply bool_decide_eq_true_1 in Hd as [-> ?]. by left.
  - apply bool_decide_eq_false_1 in Hd. right. split; [|done].
    destruct (decide (key = "__proto__")) as [->|]; [|by left].
    right. destruct (obj !! "__proto__") eqn:Ho; [by eexists|].
    by destruct Hd.
Qed.

Lemma assign_ordinary key a obj :
  key ≠ "__proto__" → JS.assign key a obj = <[key := a]> obj.
Proof.
  intros Hk. destruct (assign_cases key a obj) as [(? & _)|[_ ?]]; done.
Qed.

Lemma assign_lookup_ne key a obj k :
  k ≠ key → JS.assign key a obj !! k = obj !! k.
Proof.
  intros Hk. destruct (assign_cases key a obj) as [(_ & _ & ->)|[_ ->]];
    [done|]. by rewrite lookup_insert_ne.
Qed.

Lemma assign_is_Some key a obj k :
  is_Some (obj !! k) → is_Some (JS.assign key a obj !! k).
Proof.
  intros Hk. destruct (assign_cases key a obj) as [(_ & _ & ->)|[_ ->]];
    [done|]. apply lookup_insert_is_Some'. by right.
Qed.

(** What an assignment leaves in the object: the old properties, or the
    new one. *)
Lemma assign_Forall (P : string → A → Prop) key a obj :
  P key a → map_Forall P obj → map_Forall P (JS.assign key a obj).
Proof.
  intros Ha Hobj. destruct (assign_cases key a obj) as [(_ & _ & ->)|[_ ->]];
    [done|]. by apply map_Forall_insert_2.
Qed.

End PlainObjects.

Lemma inheritedKeys_cases written k :
  k ∈ FlatFile.inheritedKeys written
  ↔ k ∈ JS.prototypeKeys
    ∨ (k = "displayName"
       ∧ ∃ s, written !! "__proto__" = Some s ∧ JS.truthy s = true).
Proof.
  unfold FlatFile.inheritedKeys. rewrite elem_of_app.
  destruct (written !! "__proto__") as [s|]; [destruct (JS.truthy s) eqn:Hs|].
  - rewrite list_elem_of_singleton. split; [|tauto].
    intros [?|?]; [by left|right]. split; [done|]. by exists s.
  - rewrite elem_of_nil. split; [tauto|].
    intros [?|(_ & s' & [= <-] & Hs')]; [by left|congruence].
  - rewrite elem_of_nil. split; [tauto|].
    intros [?|(_ & s' & ? & _)]; [by left|done].
Qed.

Lemma prototypeKeys_inherited written k :
  k ∈ JS.prototypeKeys → k ∈ FlatFile.inheritedKeys written.
Proof. intros Hk. apply inheritedKeys_cases. by left. Qed.

Lemma proto_inherited written : "__proto__" ∈ FlatFile.inheritedKeys written.
Proof. apply prototypeKeys_inherited, proto_is_prototypeKey. Qed.

(** An id drawn for a league names no property of [Object.prototype]. *)
Lemma slice0_length n s : String.length (JS.slice0 n s) ≤ n.
Proof.
  unfold JS.slice0. revert s. induction n as [|n IH]; intros [|c s]; simpl;
    try lia.
  specialize (IH s). lia.
Qed.

Lemma drawn_id_ordinary `{E : Env} n written :
  JS.slice0 8 (uuidv4 n) ∉ FlatFile.inheritedKeys written.
Proof.
  pose proof (uuidv4_hex n) as Hhex. pose proof (slice0_length 8 (uuidv4 n)) as Hlen.
  destruct (uuidv4 n) as [|c rest]; [done|].
  unfold JS.slice0 in *. simpl in *.
  intros [Hin|[Heq _]]%inheritedKeys_cases;
    [|apply (f_equal String.length) in Heq; simpl in Heq; lia].
  unfold JS.prototypeKeys in Hin.
  repeat (apply elem_of_cons in Hin as [Heq|Hin];
          [first [ by (injection Heq as -> _; vm_compute in Hhex)
                 | apply (f_equal String.length) in Heq; simpl in Heq; lia ]|]).
  by apply elem_of_nil in Hin.
Qed.

(** ** The sort *)

Section SortFacts.
Context {A : Type} (comparefn : A → A → Z).

Lemma insert_Permutation x l : JS.insert comparefn x l ≡ₚ x :: l.
Proof.
  induction l as [|y l IH]; simpl; [done|].
  destruct (comparefn x y <=? 0)%Z; [done|].
  rewrite IH. apply perm_swap.
Qed.

Lemma sort_cons x l :
  JS.sort comparefn (x :: l) = JS.insert comparefn x (JS.sort comparefn l).
Proof. reflexivity. Qed.

Lemma sort_Permutation l : JS.sort comparefn l ≡ₚ l.
Proof.
  induction l as [|x l IH]; [done|].
  rewrite sort_cons, insert_Permutation. by f_equiv.
Qed.

Lemma sort_elem_of x l : x ∈ JS.sort comparefn l ↔ x ∈ l.
Proof. by rewrite sort_Permutation. Qed.

Lemma sort_length l : length (JS.sort comparefn l) = length l.
Proof. by rewrite sort_Permutation. Qed.

Section On.
Context (Q : A → Prop).
Hypothesis total_on : ∀ a b,
  Q a → Q b → (0 < comparefn a b)%Z → (comparefn b a <= 0)%Z.
Hypothesis trans_on : ∀ a b c,
  Q a → Q b → Q c →
  (comparefn a b <= 0)%Z → (comparefn b c <= 0)%Z → (comparefn a c <= 0)%Z.

Lemma insert_StronglySorted x l :
  Q x → Forall Q l →
  StronglySorted (Spec.before comparefn) l →
  StronglySorted (Spec.before comparefn) (JS.insert comparefn x l).
Proof.
  intros Hx Hl Hs. induction Hs as [|y l Hs IH Hy]; simpl.
  { repeat constructor. }
  apply Forall_cons in Hl as [Qy Hl].
  destruct (Z.leb_spec (comparefn x y) 0) as [Hle|Hgt].
  - constructor; [by constructor|].
    constructor; [done|].
    apply Forall_forall. intros z Hz.
    apply (trans_on x y z); [done|done| |done|].
    + by eapply Forall_forall in Hl.
    + by eapply Forall_forall in Hy.
  - constructor; [by apply IH|].
    apply Forall_forall. intros z Hz.
    rewrite insert_Permutation in Hz. apply elem_of_cons in Hz as [->|Hz].
    + by apply total_on.
    + by eapply Forall_forall in Hy.
Qed.

Lemma sort_StronglySorted l :
  Forall Q l → StronglySorted (Spec.before comparefn) (JS.sort comparefn l).
Proof.
  induction 1 as [|x l Hx Hl IH]; [constructor|].
  rewrite sort_cons. apply insert_StronglySorted; [done| |done].
  apply Forall_forall. intros y Hy. rewrite sort_elem_of in Hy.
  by eapply Forall_forall in Hl.
Qed.

End On.

End SortFacts.

(** Pairs of a strongly sorted list, by position. *)
Lemma StronglySorted_lookup {A} (R : relation A) l i j a b :
  StronglySorted R l → i < j → l !! i = Some a → l !! j = Some b → R a b.
Proof.
  intros Hs. revert i j. induction Hs as [|x l Hs IH Hx]; intros i j Hij Hi Hj.
  { by rewrite lookup_nil in Hi. }
  destruct j as [|j]; [lia|]. simpl in Hj.
  destruct i as [|i]; simpl in Hi.
  - injection Hi as ->. eapply Forall_forall in Hx; [done|].
    by eapply list_elem_of_lookup_2.
  - apply (IH i j); [lia|done..].
Qed.

(** ** The order of the leaderboard *)

Section BoardOrder.
Context `{E : Env}.

Lemma compare_played a b ma mb :
  Board.mistakes a = Some ma → Board.mistakes b = Some mb →
  Board.compareMembers a b = (ma - mb)%Z.
Proof. unfold Board.compareMembers. by intros -> ->. Qed.

Lemma compare_played_unplayed a b :
  Board.played a → ¬ Board.played b → Board.compareMembers a b = (-1)%Z.
Proof.
  unfold Board.played, Board.compareMembers. intros Ha Hb.
  destruct (Board.mistakes a); [|done].
  destruct (Board.mistakes b); [|done]. by destruct Hb.
Qed.

Lemma compare_unplayed_played a b :
  ¬ Board.played a → Board.played b → Board.compareMembers a b = 1%Z.
Proof.
  unfold Board.played, Board.compareMembers. intros Ha Hb.
  destruct (Board.mistakes b); [|done].
  destruct (Board.mistakes a); [|done]. by destruct Ha.
Qed.

Lemma compare_unplayed a b :
  Board.mistakes a = None → Board.mistakes b = None →
  Board.compareMembers a b
  = localeCompare (Board.display_name a) (Board.display_name b).
Proof. unfold Board.compareMembers. by intros -> ->. Qed.

Lemma played_Some a : Board.played a ↔ ∃ m, Board.mistakes a = Some m.
Proof.
  unfold Board.played. destruct (Board.mistakes a) as [m|]; split.
  - by exists m.
  - done.
  - done.
  - by intros [m ?].
Qed.

Lemma unplayed_None a : ¬ Board.played a ↔ Board.mistakes a = None.
Proof.
  unfold Board.played. destruct (Board.mistakes a) as [m|]; split.
  - intros H. by destruct H.
  - done.
  - done.
  - intros _ H. by apply H.
Qed.

(** A played entry never moves into the unplayed tail, an unplayed one
    never into the played head. *)
Lemma insert_played_app x p u :
  Board.played x → Forall (λ e, ¬ Board.played e) u →
  JS.insert Board.compareMembers x (p ++ u)
  = JS.insert Board.compareMembers x p ++ u.
Proof.
  intros Hx Hu. induction p as [|y p IH]; simpl.
  - destruct Hu as [|y u Hy Hu]; [done|]. simpl.
    by rewrite (compare_played_unplayed x y).
  - destruct (Board.compareMembers x y <=? 0)%Z; [done|]. by rewrite IH.
Qed.

Lemma insert_unplayed_app x p u :
  ¬ Board.played x → Forall Board.played p →
  JS.insert Board.compareMembers x (p ++ u)
  = p ++ JS.insert Board.compareMembers x u.
Proof.
  intros Hx Hp. induction Hp as [|y p Hy Hp IH]; simpl; [done|].
  rewrite (compare_unplayed_played x y) by done. simpl. by rewrite IH.
Qed.

Lemma sort_Forall (Q : Board.Entry → Prop) l :
  Forall Q l → Forall Q (Board.sortMembers l).
Proof.
  rewrite !Forall_forall. intros H x Hx. apply H.
  unfold Board.sortMembers in Hx. by rewrite sort_elem_of in Hx.
Qed.

Lemma Forall_filter_self {A} (Q : A → Prop) `{∀ x, Decision (Q x)} (l : list A) :
  Forall Q (filter Q l).
Proof. apply Forall_forall. by intros x [? _]%list_elem_of_filter. Qed.

(** Sorting puts the sorted played entries first and the sorted unplayed
    entries after them. *)
Lemma sort_split l :
  Board.sortMembers l
  = Board.sortMembers (filter Board.played l)
    ++ Board.sortMembers (filter (λ e, ¬ Board.played e) l).
Proof.
  induction l as [|x l IH]; [done|].
  unfold Board.sortMembers in *. rewrite sort_cons, IH.
  destruct (decide (Board.played x)) as [Hx|Hx].
  - rewrite (filter_cons_True Board.played) by done.
    rewrite (filter_cons_False (λ e, ¬ Board.played e)) by tauto.
    rewrite sort_cons. apply insert_played_app; [done|].
    apply sort_Forall, Forall_filter_self.
  - rewrite (filter_cons_False Board.played) by done.
    rewrite (filter_cons_True (λ e, ¬ Board.played e)) by done.
    rewrite sort_cons. apply insert_unplayed_app; [done|].
    apply sort_Forall, Forall_filter_self.
Qed.

(** The played entries come out in ascending order of mistakes, whatever
    the collation. *)
Lemma sort_played_sorted l :
  Forall Board.played l →
  StronglySorted (Spec.before Board.compareMembers) (Board.sortMembers l).
Proof.
  apply (sort_StronglySorted _ Board.played).
  - intros a b [ma Ha]%played_Some [mb Hb]%played_Some.
    rewrite (compare_played a b ma mb), (compare_played b a mb ma) by done. lia.
  - intros a b c [ma Ha]%played_Some [mb Hb]%played_Some [mc Hc]%played_Some.
    rewrite (compare_played a b ma mb), (compare_played b c mb mc),
      (compare_played a c ma mc) by done. lia.
Qed.

Lemma sort_unplayed_sorted `{!ConsistentLocale E} l :
  Forall (λ e, ¬ Board.played e) l →
  StronglySorted (Spec.before Board.compareMembers) (Board.sortMembers l).
Proof.
  apply (sort_StronglySorted _ (λ e, ¬ Board.played e)).
  - intros a b Ha%unplayed_None Hb%unplayed_None.
    rewrite !compare_unplayed by done. apply locale_total.
  - intros a b c Ha%unplayed_None Hb%unplayed_None Hc%unplayed_None.
    rewrite !compare_unplayed by done. apply locale_trans.
Qed.

Lemma sortMembers_sorted `{!ConsistentLocale E} l :
  StronglySorted (Spec.before Board.compareMembers) (Board.sortMembers l).
Proof.
  rewrite sort_split. apply StronglySorted_app_2.
  - intros a b Ha Hb. unfold Spec.before.
    rewrite (compare_played_unplayed a b); [lia| |].
    + eapply Forall_forall in Ha; [done|]. apply sort_Forall, Forall_filter_self.
    + eapply (Forall_forall (λ e, ¬ Board.played e)) in Hb; [done|].
      apply sort_Forall, Forall_filter_self.
  - apply sort_played_sorted, Forall_filter_self.
  - apply sort_unplayed_sorted, Forall_filter_self.
Qed.

(** C2.  The sorted member list is a rearrangement of the joined list in
    which every played entry stands before every unplayed one, played
    entries are in ascending order of mistakes, and unplayed entries are
    in ascending order of [localeCompare] on their display names.  The
    comparator itself decides in that priority. *)
Theorem C2_sort_priority {L : ConsistentLocale E} (members : list Board.Entry) :
  let sorted := Board.sortMembers members in
  sorted ≡ₚ members
  ∧ (∀ i j a b, sorted !! i = Some a → sorted !! j = Some b →
       Board.played a → ¬ Board.played b → i < j)
  ∧ (∀ i j a b ma mb, i < j → sorted !! i = Some a → sorted !! j = Some b →
       Board.mistakes a = Some ma → Board.mistakes b = Some mb → (ma <= mb)%Z)
  ∧ (∀ i j a b, i < j → sorted !! i = Some a → sorted !! j = Some b →
       Board.mistakes a = None → Board.mistakes b = None →
       (localeCompare (Board.display_name a) (Board.display_name b) <= 0)%Z)
  ∧ (∀ a b, Board.played a → ¬ Board.played b →
       (Board.compareMembers a b < 0)%Z ∧ (0 < Board.compareMembers b a)%Z).
Proof.
  intros sorted. pose proof (sortMembers_sorted members) as Hs.
  fold sorted in Hs. split_and!.
  - apply sort_Permutation.
  - intros i j a b Hi Hj Ha Hb.
    destruct (decide (i < j)) as [|Hge]; [done|]. exfalso.
    assert (i = j ∨ j < i) as [->|Hlt] by lia.
    + rewrite Hi in Hj. injection Hj as ->. done.
    + pose proof (StronglySorted_lookup _ _ _ _ _ _ Hs Hlt Hj Hi) as Hba.
      unfold Spec.before in Hba.
      rewrite (compare_unplayed_played b a) in Hba by done. lia.
  - intros i j a b ma mb Hij Hi Hj Ha Hb.
    pose proof (StronglySorted_lookup _ _ _ _ _ _ Hs Hij Hi Hj) as Hab.
    unfold Spec.before in Hab.
    rewrite (compare_played a b ma mb) in Hab by done. lia.
  - intros i j a b Hij Hi Hj Ha Hb.
    pose proof (StronglySorted_lookup _ _ _ _ _ _ Hs Hij Hi Hj) as Hab.
    unfold Spec.before in Hab. by rewrite compare_unplayed in Hab.
  - intros a b Ha Hb.
    rewrite (compare_played_unplayed a b), (compare_unplayed_played b a) by done.
    lia.
Qed.

End BoardOrder.

(** ** [find] and [findIndex] *)

Section Find.
Context {A : Type} (P : A → Prop) `{!∀ x, Decision (P x)}.

Lemma findIndex_Some (l : list A) k :
  JS.findIndex P l = Some k
  ↔ ∃ x, l !! k = Some x ∧ P x ∧ ∀ j y, l !! j = Some y → j < k → ¬ P y.
Proof.
  unfold JS.findIndex. rewrite fmap_Some. split.
  - intros [[k' x] [Hf ->]]. exists x. simpl. by apply list_find_Some in Hf.
  - intros [x Hf]. exists (k, x). split; [|done]. by apply list_find_Some.
Qed.

Lemma findIndex_None (l : list A) :
  JS.findIndex P l = None ↔ Forall (λ x, ¬ P x) l.
Proof. unfold JS.findIndex. by rewrite fmap_None, list_find_None. Qed.

Lemma find_Some (l : list A) x :
  JS.find P l = Some x
  ↔ ∃ k, l !! k = Some x ∧ P x ∧ ∀ j y, l !! j = Some y → j < k → ¬ P y.
Proof.
  unfold JS.find. rewrite fmap_Some. split.
  - intros [[k x'] [Hf ->]]. exists k. simpl. by apply list_find_Some in Hf.
  - intros [k Hf]. exists (k, x). split; [|done]. by apply list_find_Some.
Qed.

Lemma find_None (l : list A) :
  JS.find P l = None ↔ Forall (λ x, ¬ P x) l.
Proof. unfold JS.find. by rewrite fmap_None, list_find_None. Qed.

Lemma findIndex_app_l (l1 l2 : list A) k :
  JS.findIndex P l1 = Some k → JS.findIndex P (l1 ++ l2) = Some k.
Proof.
  unfold JS.findIndex. rewrite !fmap_Some.
  intros [[k' x] [Hf ->]]. exists (k', x). split; [|done].
  by apply list_find_app_l.
Qed.

Lemma findIndex_app_r (l1 l2 : list A) x :
  Forall (λ y, ¬ P y) l1 → P x →
  JS.findIndex P (l1 ++ x :: l2) = Some (length l1).
Proof.
  intros H1 Hx. apply findIndex_Some. exists x. split_and!.
  - by apply list_lookup_middle.
  - done.
  - intros j y Hj Hlt. rewrite lookup_app_l in Hj by done.
    eapply Forall_forall in H1; [done|]. by eapply list_elem_of_lookup_2.
Qed.

Lemma findIndex_fmap {B} (f : B → A) (l : list B) :
  JS.findIndex P (f <$> l) = JS.findIndex (P ∘ f) l.
Proof.
  unfold JS.findIndex. rewrite list_find_fmap.
  by destruct (list_find (P ∘ f) l) as [[??]|].
Qed.

End Find.

Lemma findIndex_fmap_ext {A B} (f : B → A) (P : A → Prop) (Q : B → Prop)
    `{!∀ x, Decision (P x)} `{!∀ x, Decision (Q x)} (l : list B) :
  (∀ x, Q x ↔ P (f x)) → JS.findIndex Q l = JS.findIndex P (f <$> l).
Proof.
  intros HQ. rewrite findIndex_fmap. unfold JS.findIndex. f_equal.
  apply list_find_ext. intros x. apply HQ.
Qed.

Lemma length_filter_played (l : list Board.Entry) :
  length (filter (λ m, Board.mistakes m = None) l)
  + length (filter Board.played l) = length l.
Proof.
  induction l as [|x l IH]; [done|].
  rewrite !filter_cons. unfold Board.played at 1.
  destruct (decide (Board.mistakes x = None));
    destruct (decide (Board.mistakes x ≠ None)); simpl; try lia; tauto.
Qed.

(** ** The two rank loops *)

(** The position arithmetic of the flat-file loop is the running count of
    played entries of the service-backed loop. *)
Lemma rankFrom_agree todo : ∀ seen currentRank lastMistakes,
  FlatFile.rankFrom (seen ++ todo) currentRank lastMistakes (length seen) todo
  = Service.rankFrom currentRank lastMistakes
      (Z.of_nat (length (filter Board.played seen))) todo.
Proof.
  induction todo as [|x todo IH]; intros seen cr lm; [done|].
  pose proof (IH (seen ++ [x])) as IH'.
  rewrite <- app_assoc, length_app, filter_app, length_app in IH'.
  simpl in IH'. replace (length seen + 1) with (S (length seen)) in IH' by lia.
  simpl. destruct (Board.mistakes x) as [m|] eqn:Hx.
  - rewrite (filter_cons_True Board.played) in IH'
      by (unfold Board.played; congruence).
    simpl in IH'. rewrite Nat2Z.inj_add in IH'. simpl in IH'.
    rewrite take_app_length.
    pose proof (length_filter_played seen) as Hlen.
    replace (Z.of_nat (length seen) + 1
             - Z.of_nat (length (filter (λ m0, Board.mistakes m0 = None) seen)))%Z
      with (Z.of_nat (length (filter Board.played seen)) + 1)%Z by lia.
    destruct (decide (Some m ≠ lm)); by rewrite IH'.
  - rewrite (filter_cons_False Board.played) in IH'
      by (unfold Board.played; intros H; by apply H).
    simpl in IH'. rewrite Nat.add_0_r in IH'. by rewrite IH'.
Qed.

Lemma assignRanks_agree members :
  FlatFile.assignRanks members = Service.assignRanks members.
Proof. apply (rankFrom_agree members [] 0%Z None). Qed.

(** C3, as amended.  On every member list, sorted or not, the rank
    computation of the flat-file variant (position arithmetic) and that
    of the service-backed variant (running played-count) give the same
    ranked list. *)
Theorem C3_rank_variants_agree (members : list Board.Entry) :
  FlatFile.assignRanks members = Service.assignRanks members.
Proof. apply assignRanks_agree. Qed.

(** C3, as stated, fails: there is no environment and no sorted member
    list on which the two rank computations differ. *)
Lemma C3_no_sorted_list_disagrees :
  ¬ ∃ (E : Env) (members : list Board.Entry),
      StronglySorted (Spec.before Board.compareMembers) members
      ∧ FlatFile.assignRanks members ≠ Service.assignRanks members.
Proof. intros (E & members & _ & Hne). apply Hne, assignRanks_agree. Qed.

(** ** Dense ranks *)

Lemma rankFrom_member l : ∀ currentRank lastMistakes playedCount,
  Board.member <$> Service.rankFrom currentRank lastMistakes playedCount l = l.
Proof.
  induction l as [|x l IH]; intros cr lm pc; [done|]. simpl.
  destruct (Board.mistakes x) as [m|]; [destruct (decide (Some m ≠ lm))|];
    csimpl; by rewrite IH.
Qed.

Lemma rankFrom_unplayed l : ∀ currentRank lastMistakes playedCount r,
  r ∈ Service.rankFrom currentRank lastMistakes playedCount l →
  Board.mistakes (Board.member r) = None → Board.rank r = None.
Proof.
  induction l as [|x l IH]; intros cr lm pc r; simpl.
  { by intros ?%elem_of_nil. }
  destruct (Board.mistakes x) as [m|] eqn:Hx;
    [destruct (decide (Some m ≠ lm))|];
    intros [->|Hr]%elem_of_cons; simpl; eauto; congruence.
Qed.

Lemma rankFrom_filter l : ∀ currentRank lastMistakes playedCount,
  filter (λ r, Board.played (Board.member r))
         (Service.rankFrom currentRank lastMistakes playedCount l)
  = Service.rankFrom currentRank lastMistakes playedCount
      (filter Board.played l).
Proof.
  induction l as [|x l IH]; intros cr lm pc; [done|]. simpl.
  destruct (Board.mistakes x) as [m|] eqn:Hx.
  - rewrite (filter_cons_True Board.played) by (apply played_Some; eauto).
    simpl. rewrite Hx.
    destruct (decide (Some m ≠ lm));
      (rewrite filter_cons_True by (simpl; apply played_Some; eauto));
      by rewrite IH.
  - rewrite (filter_cons_False Board.played) by (by apply unplayed_None).
    rewrite filter_cons_False by (simpl; by apply unplayed_None).
    apply IH.
Qed.

Lemma rankFrom_app l1 : ∀ l2 currentRank lastMistakes playedCount,
  ∃ currentRank' lastMistakes' playedCount',
    Service.rankFrom currentRank lastMistakes playedCount (l1 ++ l2)
    = Service.rankFrom currentRank lastMistakes playedCount l1
      ++ Service.rankFrom currentRank' lastMistakes' playedCount' l2.
Proof.
  induction l1 as [|x l1 IH]; intros l2 cr lm pc; simpl.
  { by exists cr, lm, pc. }
  destruct (Board.mistakes x) as [m|]; [destruct (decide (Some m ≠ lm))|].
  - destruct (IH l2 (pc + 1)%Z (Some m) (pc + 1)%Z) as (cr' & lm' & pc' & ->).
    by exists cr', lm', pc'.
  - destruct (IH l2 cr lm (pc + 1)%Z) as (cr' & lm' & pc' & ->).
    by exists cr', lm', pc'.
  - destruct (IH l2 cr lm pc) as (cr' & lm' & pc' & ->).
    by exists cr', lm', pc'.
Qed.

Section DenseRanks.
Context `{E : Env}.

(** The loop invariant: each played entry gets, as rank, the 1-based
    position of the first entry with its mistakes. *)
Lemma rankFrom_dense todo : ∀ seen currentRank lastMistakes,
  Forall Board.played todo →
  StronglySorted (Spec.before Board.compareMembers) (seen ++ todo) →
  Spec.rankState seen currentRank lastMistakes →
  ∀ j e, todo !! j = Some e →
    ∃ k, JS.findIndex (λ e', Board.mistakes e' = Board.mistakes e)
                      (seen ++ todo) = Some k
         ∧ Service.rankFrom currentRank lastMistakes
             (Z.of_nat (length seen)) todo !! j
           = Some (Board.mkRanked e (Some (Z.of_nat k + 1)%Z)).
Proof.
  induction todo as [|x todo IH]; intros seen cr lm Hp Hs Hst j e Hj.
  { by rewrite lookup_nil in Hj. }
  apply Forall_cons in Hp as [[m Hm]%played_Some Hp].
  pose proof (IH (seen ++ [x])) as IH'.
  rewrite <- app_assoc, length_app, Nat2Z.inj_add in IH'. simpl in IH'.
  simpl. rewrite Hm.
  destruct (decide (Some m ≠ lm)) as [Hne|Heq].
  - (* a new group starts at [x] *)
    assert (Forall (λ y, ∃ me, Board.mistakes y = Some me ∧ (me < m)%Z) seen)
      as Hlt.
    { destruct lm as [m'|]; simpl in Hst; [|by subst].
      destruct Hst as [(k & Hk & _) Hle].
      apply findIndex_Some in Hk as (y & Hy & Hym & _).
      assert (Spec.before Board.compareMembers y x) as Hyx.
      { eapply StronglySorted_app_1_elem_of; [done| |by left].
        by eapply list_elem_of_lookup_2. }
      unfold Spec.before in Hyx.
      rewrite (compare_played y x m' m) in Hyx by done.
      assert (m' ≠ m) by congruence.
      eapply Forall_impl; [exact Hle|]. intros z (me & ? & ?). exists me.
      split; [done|lia]. }
    assert (Forall (λ y, ¬ Board.mistakes y = Some m) seen) as Hnot.
    { eapply Forall_impl; [exact Hlt|]. intros z (me & ? & ?). intros ?.
      assert (me = m) by congruence. lia. }
    destruct j as [|j]; simpl in Hj.
    + injection Hj as <-. exists (length seen). rewrite Hm. split; [|done].
      by apply findIndex_app_r.
    + simpl. apply IH'; [done..| |done]. split.
      * exists (length seen). split; [|done].
        by apply (findIndex_app_r _ seen []).
      * apply Forall_app. split.
        -- eapply Forall_impl; [exact Hlt|]. intros z (me & ? & ?). exists me.
           split; [done|lia].
        -- constructor; [|done]. exists m. split; [done|lia].
  - (* [x] ties with the previous entry *)
    assert (lm = Some m) as ->.
    { destruct (decide (Some m = lm)) as [<-|]; [done|]. by destruct Heq. }
    destruct Hst as [(k & Hk & ->) Hle].
    destruct j as [|j]; simpl in Hj.
    + injection Hj as <-. exists k. rewrite Hm. split; [|done].
      by apply findIndex_app_l.
    + simpl. apply IH'; [done..| |done]. split.
      * exists k. split; [|done]. by apply findIndex_app_l.
      * apply Forall_app. split; [done|].
        constructor; [|done]. exists m. split; [done|lia].
Qed.

Lemma assignRanks_dense l :
  Forall Board.played l →
  StronglySorted (Spec.before Board.compareMembers) l →
  ∀ j e, l !! j = Some e →
    ∃ k, JS.findIndex (λ e', Board.mistakes e' = Board.mistakes e) l = Some k
         ∧ Service.assignRanks l !! j
           = Some (Board.mkRanked e (Some (Z.of_nat k + 1)%Z)).
Proof.
  intros Hp Hs. by apply (rankFrom_dense l [] 0%Z None).
Qed.

End DenseRanks.

Lemma filter_Forall_id {A} (P : A → Prop) `{∀ x, Decision (P x)} (l : list A) :
  Forall P l → filter P l = l.
Proof.
  induction 1 as [|x l Hx Hl IH]; [done|].
  by rewrite filter_cons_True, IH.
Qed.

Lemma filter_Forall_nil {A} (P : A → Prop) `{∀ x, Decision (P x)} (l : list A) :
  Forall (λ x, ¬ P x) l → filter P l = [].
Proof.
  induction 1 as [|x l Hx Hl IH]; [done|].
  by rewrite filter_cons_False.
Qed.

Section DenseBoard.
Context `{E : Env}.

(** On sorted played rows, "rank = position of the first of the group"
    gives the other properties of dense competition ranks. *)
Lemma first_position_dense (rows : list Board.Ranked) :
  Forall Board.played (Board.member <$> rows) →
  StronglySorted (Spec.before Board.compareMembers) (Board.member <$> rows) →
  (∀ i r, rows !! i = Some r →
     ∃ k, JS.findIndex (λ r', Board.mistakes (Board.member r')
                              = Board.mistakes (Board.member r)) rows = Some k
          ∧ Board.rank r = Some (Z.of_nat k + 1)%Z) →
  (∀ r, rows !! 0 = Some r → Board.rank r = Some 1%Z)
  ∧ (∀ i j ri rj, i ≤ j → rows !! i = Some ri → rows !! j = Some rj →
       ∃ x y, Board.rank ri = Some x ∧ Board.rank rj = Some y ∧ (x <= y)%Z)
  ∧ (∀ ri rj, ri ∈ rows → rj ∈ rows →
       (Board.rank ri = Board.rank rj
        ↔ Board.mistakes (Board.member ri) = Board.mistakes (Board.member rj))).
Proof.
  intros Hp Hs Hchar.
  assert (∀ i j ri rj, i < j → rows !! i = Some ri → rows !! j = Some rj →
    ∃ mi mj, Board.mistakes (Board.member ri) = Some mi
             ∧ Board.mistakes (Board.member rj) = Some mj ∧ (mi <= mj)%Z)
    as Hasc.
  { intros i j ri rj Hij Hi Hj.
    assert (Board.played (Board.member ri)) as [mi Hmi]%played_Some.
    { eapply Forall_forall in Hp; [done|].
      by eapply list_elem_of_fmap_2, list_elem_of_lookup_2. }
    assert (Board.played (Board.member rj)) as [mj Hmj]%played_Some.
    { eapply Forall_forall in Hp; [done|].
      by eapply list_elem_of_fmap_2, list_elem_of_lookup_2. }
    exists mi, mj. split_and!; [done..|].
    assert (Spec.before Board.compareMembers (Board.member ri) (Board.member rj))
      as Hb.
    { eapply (StronglySorted_lookup _ _ i j); [exact Hs|done| |].
      - by rewrite list_lookup_fmap, Hi.
      - by rewrite list_lookup_fmap, Hj. }
    unfold Spec.before in Hb.
    rewrite (compare_played _ _ mi mj) in Hb by done. lia. }
  split_and!.
  - intros r H0. destruct (Hchar 0 r H0) as (k & Hk & ->).
    apply findIndex_Some in Hk as (x & Hx & _ & Hmin).
    destruct k as [|k]; [done|]. destruct (Hmin 0 r H0); [lia|done].
  - intros i j ri rj Hij Hi Hj.
    destruct (Hchar i ri Hi) as (ki & Hki & Hri).
    destruct (Hchar j rj Hj) as (kj & Hkj & Hrj).
    exists (Z.of_nat ki + 1)%Z, (Z.of_nat kj + 1)%Z. split_and!; [done..|].
    apply findIndex_Some in Hki as (xi & Hxi & Hpi & Hmini).
    apply findIndex_Some in Hkj as (xj & Hxj & Hpj & Hminj).
    destruct (decide (ki ≤ kj)) as [|Hgt]; [lia|]. exfalso.
    assert (ki ≤ i).
    { destruct (decide (ki ≤ i)) as [|Hn]; [done|].
      destruct (Hmini i ri Hi); [lia|done]. }
    apply (Hmini kj xj Hxj); [lia|]. rewrite Hpj.
    destruct (Hasc kj ki xj xi) as (a & b & Ha & Hb & Hab); [lia|done..|].
    rewrite Hpj in Ha. rewrite Hpi in Hb.
    destruct (decide (i = j)) as [->|Hneq].
    { rewrite Hi in Hj. by injection Hj as ->. }
    destruct (Hasc i j ri rj) as (a' & b' & Ha' & Hb' & Hab'); [lia|done..|].
    rewrite Ha, Hb. f_equal.
    assert (a' = b) by congruence. assert (b' = a) by congruence. lia.
  - intros ri rj [i Hi]%list_elem_of_lookup_1 [j Hj]%list_elem_of_lookup_1.
    destruct (Hchar i ri Hi) as (ki & Hki & Hri).
    destruct (Hchar j rj Hj) as (kj & Hkj & Hrj).
    rewrite Hri, Hrj. split.
    + intros Heq. assert (ki = kj) as -> by (injection Heq; lia).
      apply findIndex_Some in Hki as (xi & Hxi & Hpi & _).
      apply findIndex_Some in Hkj as (xj & Hxj & Hpj & _).
      rewrite Hxi in Hxj. injection Hxj as ->. by rewrite <- Hpi, <- Hpj.
    + intros Heq. rewrite Heq in Hki. rewrite Hki in Hkj.
      by injection Hkj as ->.
Qed.

Lemma sorted_played members :
  filter Board.played (Board.sortMembers members)
  = Board.sortMembers (filter Board.played members).
Proof.
  rewrite sort_split, filter_app.
  rewrite (filter_Forall_id Board.played
             (Board.sortMembers (filter Board.played members)))
    by apply sort_Forall, Forall_filter_self.
  rewrite (filter_Forall_nil Board.played
             (Board.sortMembers (filter (λ e, ¬ Board.played e) members))).
  - by rewrite app_nil_r.
  - apply (sort_Forall (λ e, ¬ Board.played e)), Forall_filter_self.
Qed.

Lemma playedRows_ranked members :
  Spec.playedRows (Service.assignRanks (Board.sortMembers members))
  = Service.assignRanks (Board.sortMembers (filter Board.played members)).
Proof.
  unfold Spec.playedRows, Service.assignRanks.
  by rewrite rankFrom_filter, sorted_played.
Qed.

(** The ranked member list has dense competition ranks. *)
Lemma ranked_dense members :
  Spec.denseRanked (Service.assignRanks (Board.sortMembers members)).
Proof.
  unfold Spec.denseRanked, Spec.firstOfGroup. rewrite playedRows_ranked.
  set (sp := Board.sortMembers (filter Board.played members)).
  assert (Forall Board.played sp) as Hp
    by apply sort_Forall, Forall_filter_self.
  assert (StronglySorted (Spec.before Board.compareMembers) sp) as Hs
    by apply sort_played_sorted, Forall_filter_self.
  assert (Board.member <$> Service.assignRanks sp = sp) as Hmem
    by apply rankFrom_member.
  assert (∀ i r, Service.assignRanks sp !! i = Some r →
     ∃ k, JS.findIndex (λ r', Board.mistakes (Board.member r')
                              = Board.mistakes (Board.member r))
            (Service.assignRanks sp) = Some k
          ∧ Board.rank r = Some (Z.of_nat k + 1)%Z) as Hchar.
  { intros i r Hi.
    assert (sp !! i = Some (Board.member r)) as He.
    { by rewrite <- Hmem, list_lookup_fmap, Hi. }
    destruct (assignRanks_dense sp Hp Hs i _ He) as (k & Hk & Hr).
    exists k. split.
    - rewrite (findIndex_fmap_ext Board.member
                 (λ e', Board.mistakes e' = Board.mistakes (Board.member r))
                 (λ r', Board.mistakes (Board.member r')
                        = Board.mistakes (Board.member r)))
        by done.
      by rewrite Hmem.
    - rewrite Hi in Hr. injection Hr as ->. done. }
  destruct (first_position_dense (Service.assignRanks sp)) as (H1 & H2 & H3);
    [by rewrite Hmem..|done|].
  split_and!; [|
    |done..].
  - intros r. apply rankFrom_unplayed.
  - rewrite sort_split. unfold Service.assignRanks. fold sp.
    destruct (rankFrom_app sp
                (Board.sortMembers (filter (λ e, ¬ Board.played e) members))
                0%Z None 0%Z) as (cr & lm & pc & ->).
    by eexists.
Qed.

End DenseBoard.

(** ** The leaderboard routes *)

Section Leaderboard.
Context `{E : Env} {Store League : Type} `{C : Service.Client Store League}.

Lemma service_resolveDate_store date (w : Service.World Store) :
  Service.store (Service.resolveDate date w).2 = Service.store w.
Proof.
  unfold Service.resolveDate, Service.today.
  destruct date as [d|]; [destruct (JS.truthy d)|]; done.
Qed.

(** The service-backed route answers the league, the date and the ranked
    members whenever the league resolves. *)
Lemma service_leaderboard_found id date (w : Service.World Store) league :
  Service.selectLeague id (Service.store w) = Some league →
  Service.computeLeaderboard id date w
  = (JS.Json
       (Board.mkBody league (Service.resolveDate date w).1
          (Service.rankedMembers
             (Service.selectMembers id (Service.store w))
             (Service.selectScores id (Service.resolveDate date w).1
                                   (Service.store w)))),
     (Service.resolveDate date w).2).
Proof.
  intros Hl. unfold Service.computeLeaderboard.
  pose proof (service_resolveDate_store date w) as Hst.
  destruct (Service.resolveDate date w) as [d w1]. simpl in *.
  by rewrite Hst, Hl.
Qed.

Lemma service_leaderboard_body id date (w w' : Service.World Store) body :
  Service.computeLeaderboard id date w = (JS.Json body, w') →
  ∃ memberships scores,
    Board.leaderboard body = Service.rankedMembers memberships scores.
Proof.
  unfold Service.computeLeaderboard.
  destruct (Service.resolveDate date w) as [d w1].
  destruct (Service.selectLeague id (Service.store w1)); [|done].
  intros [= <- _]. by eexists _, _.
Qed.

(** The flat-file route, likewise. *)
Lemma flatfile_resolveDate_file date (w : FlatFile.World) :
  FlatFile.file (FlatFile.resolveDate date w).2 = FlatFile.file w
  ∧ FlatFile.prototype (FlatFile.resolveDate date w).2 = FlatFile.prototype w.
Proof.
  unfold FlatFile.resolveDate, FlatFile.today, FlatFile.newDate.
  destruct date as [d|]; [destruct (JS.truthy d)|]; done.
Qed.

Lemma flatfile_leaderboard_found id date (w : FlatFile.World) league :
  JS.get (FlatFile.inheritedKeys (FlatFile.prototype w))
      (FlatFile.leagues (FlatFile.file w)) id = Some league →
  FlatFile.computeLeaderboard id date w
  = (JS.Json
       (Board.mkBody league (FlatFile.resolveDate date w).1
          (FlatFile.assignRanks
             (Board.sortMembers
                (FlatFile.joinMembers id (FlatFile.resolveDate date w).1
                                      (FlatFile.file w)
                                      (FlatFile.prototype w))))),
     (FlatFile.resolveDate date w).2).
Proof.
  intros Hl. unfold FlatFile.computeLeaderboard.
  destruct (flatfile_resolveDate_file date w) as [Hst Hpr].
  destruct (FlatFile.resolveDate date w) as [d w1]. simpl in *.
  unfold FlatFile.loadDB. by rewrite Hst, Hpr, Hl.
Qed.

Lemma flatfile_leaderboard_missing id date (w : FlatFile.World) :
  JS.get (FlatFile.inheritedKeys (FlatFile.prototype w))
      (FlatFile.leagues (FlatFile.file w)) id = None →
  FlatFile.computeLeaderboard id date w
  = (JS.Error 404 "League not found", (FlatFile.resolveDate date w).2).
Proof.
  intros Hl. unfold FlatFile.computeLeaderboard.
  destruct (flatfile_resolveDate_file date w) as [Hst Hpr].
  destruct (FlatFile.resolveDate date w) as [d w1]. simpl in *.
  unfold FlatFile.loadDB. by rewrite Hst, Hpr, Hl.
Qed.

Lemma flatfile_leaderboard_answered id date (w w' : FlatFile.World) body :
  FlatFile.computeLeaderboard id date w = (JS.Json body, w') →
  ∃ league,
    JS.get (FlatFile.inheritedKeys (FlatFile.prototype w))
        (FlatFile.leagues (FlatFile.file w)) id = Some league
    ∧ body
      = Board.mkBody league (FlatFile.resolveDate date w).1
          (FlatFile.assignRanks
             (Board.sortMembers
                (FlatFile.joinMembers id (FlatFile.resolveDate date w).1
                                      (FlatFile.file w)
                                      (FlatFile.prototype w)))).
Proof.
  destruct (JS.get (FlatFile.inheritedKeys (FlatFile.prototype w))
                (FlatFile.leagues (FlatFile.file w)) id) as [league|] eqn:Hl.
  - rewrite (flatfile_leaderboard_found id date w league Hl).
    intros [= <- _]. by exists league.
  - by rewrite (flatfile_leaderboard_missing id date w Hl).
Qed.

Lemma flatfile_leaderboard_dense id date (w w' : FlatFile.World) body :
  FlatFile.computeLeaderboard id date w = (JS.Json body, w') →
  Spec.denseRanked (Board.leaderboard body).
Proof.
  unfold FlatFile.computeLeaderboard.
  destruct (FlatFile.resolveDate date w) as [d w1].
  destruct (JS.get (FlatFile.inheritedKeys (FlatFile.prototype w1))
                (FlatFile.leagues (FlatFile.loadDB w1)) id); [|done].
  intros [= <- _]. simpl. rewrite assignRanks_agree. apply ranked_dense.
Qed.


End Leaderboard.


(** Comparison by code units is a consistent comparator. *)
Lemma sample_locale_consistent : ConsistentLocale Sample.env.
Proof.
  assert (∀ a b, (Sample.codeUnitCompare a b <= 0)%Z ↔ String.le a b) as Hle.
  { intros a b. unfold Sample.codeUnitCompare, String.le, String.leb.
    destruct (String.compare a b); simpl; split; (done || lia). }
  split; simpl.
  - intros a b. unfold Sample.codeUnitCompare.
    rewrite (String.compare_antisym b a).
    destruct (String.compare a b); simpl; lia.
  - intros a b c. rewrite !Hle. intros Hab Hbc. by transitivity b.
Qed.

Lemma C2_sort_priority_witness :
  let sorted := Board.sortMembers (E := Sample.env) Sample.members0 in
  sorted ≡ₚ Sample.members0
  ∧ (∀ i j a b, sorted !! i = Some a → sorted !! j = Some b →
       Board.played a → ¬ Board.played b → i < j)
  ∧ (∀ i j a b ma mb, i < j → sorted !! i = Some a → sorted !! j = Some b →
       Board.mistakes a = Some ma → Board.mistakes b = Some mb → (ma <= mb)%Z)
  ∧ (∀ i j a b, i < j → sorted !! i = Some a → sorted !! j = Some b →
       Board.mistakes a = None → Board.mistakes b = None →
       (localeCompare (Env := Sample.env)
          (Board.display_name a) (Board.display_name b) <= 0)%Z)
  ∧ (∀ a b, Board.played a → ¬ Board.played b →
       (Board.compareMembers (E := Sample.env) a b < 0)%Z
       ∧ (0 < Board.compareMembers (E := Sample.env) b a)%Z).
Proof.
  exact (C2_sort_priority (E := Sample.env) (L := sample_locale_consistent)
           Sample.members0).
Defined.

(** ** Members without a player record *)

Section UnknownMember.
Context `{E : Env} {Store League : Type} `{C : Service.Client Store League}.

Lemma ranked_member_of (members : list Board.Entry) e :
  e ∈ members →
  ∃ r, r ∈ Service.assignRanks (Board.sortMembers members)
       ∧ Board.member r = e.
Proof.
  intros He.
  assert (e ∈ Board.member
                <$> Service.assignRanks (Board.sortMembers members)) as Hin.
  { unfold Service.assignRanks. rewrite rankFrom_member.
    unfold Board.sortMembers. by rewrite sort_elem_of. }
  apply list_elem_of_fmap in Hin as (r & -> & Hr). by exists r.
Qed.

Lemma ranked_length (members : list Board.Entry) :
  length (Service.assignRanks (Board.sortMembers members)) = length members.
Proof.
  rewrite <- (length_fmap Board.member). unfold Service.assignRanks.
  rewrite rankFrom_member. apply sort_length.
Qed.

Lemma service_join_named members scores :
  Service.joinMembers (Some members) scores
  = Service.joinMembers (Some (Spec.named <$> members)) scores.
Proof.
  unfold Service.joinMembers. simpl. rewrite <- list_fmap_compose.
  apply list_fmap_ext. intros _ m _. simpl. unfold Spec.named.
  destruct (Service.MemberRow.players m) as [p|] eqn:Hp; simpl; [|done].
  by rewrite Hp.
Qed.

Lemma service_unknown_member id date (w : Service.World Store) league members m :
  Service.selectLeague id (Service.store w) = Some league →
  Service.selectMembers id (Service.store w) = Some members →
  m ∈ members → Service.MemberRow.players m = None →
  ∃ body w',
    Service.computeLeaderboard id date w = (JS.Json body, w')
    ∧ (∃ r, r ∈ Board.leaderboard body
            ∧ Board.uuid (Board.member r) = Service.MemberRow.player_uuid m
            ∧ Board.display_name (Board.member r) = Board.Unknown)
    ∧ length (Board.leaderboard body) = length members
    ∧ Board.leaderboard body
      = Service.rankedMembers (Some (Spec.named <$> members))
          (Service.selectScores id (Board.on_date body) (Service.store w)).
Proof.
  intros Hl Hm Hin Hp. eexists _, _. split.
  { by apply service_leaderboard_found. }
  simpl. rewrite Hm. unfold Service.rankedMembers. split_and!.
  - set (scores := Service.selectScores _ _ _).
    destruct (ranked_member_of (Service.joinMembers (Some members) scores)
      (Board.mkEntry (Service.MemberRow.player_uuid m) Board.Unknown
         (JS.find (λ s, Service.ScoreRow.player_uuid s
                        = Service.MemberRow.player_uuid m) (default [] scores)
            ≫= Service.ScoreRow.mistakes)
         (Service.ScoreRow.date
            <$> JS.find (λ s, Service.ScoreRow.player_uuid s
                              = Service.MemberRow.player_uuid m)
                        (default [] scores))))
      as (r & Hr & Hmem).
    { unfold Service.joinMembers. simpl.
      apply list_elem_of_fmap. exists m. split; [|done]. by rewrite Hp. }
    exists r. by rewrite Hmem.
  - rewrite ranked_length. unfold Service.joinMembers. simpl.
    by rewrite length_fmap.
  - by rewrite service_join_named.
Qed.

Lemma get_insert_ne {A} inherited (obj : gmap string A) key k a :
  k ≠ key → JS.get inherited (<[key := a]> obj) k = JS.get inherited obj k.
Proof. intros Hne. unfold JS.get. by rewrite lookup_insert_ne. Qed.

(** A member that [db.players] does not hold is named [Unknown] unless a
    display name was written on the object that the lookup inherits. *)
Lemma displayNameOf_absent uuid db written :
  FlatFile.players db !! uuid = None →
  (uuid ∈ FlatFile.inheritedKeys written →
   FlatFile.inheritedDisplayName written uuid = None) →
  FlatFile.displayNameOf uuid db written = Board.Unknown.
Proof.
  intros Hp Hw. unfold FlatFile.displayNameOf.
  destruct (JS.get (FlatFile.inheritedKeys written) (FlatFile.players db) uuid)
    as [[p|k]|] eqn:Hg; [| |done].
  - apply get_Own in Hg. congruence.
  - apply get_Inherited in Hg as (_ & Hk & ->). by rewrite Hw.
Qed.

Lemma flatfile_join_named id date db written uuid createdAt :
  FlatFile.players db !! uuid = None →
  (uuid ∈ FlatFile.inheritedKeys written →
   FlatFile.inheritedDisplayName written uuid = None) →
  FlatFile.joinMembers id date db written
  = FlatFile.joinMembers id date
      (Spec.withPlayer uuid (FlatFile.Player.mk uuid Board.Unknown createdAt) db)
      written.
Proof.
  intros Hp Hw. unfold FlatFile.joinMembers, Spec.withPlayer. simpl.
  apply list_fmap_ext. intros _ u _. simpl. f_equal.
  destruct (decide (u = uuid)) as [->|Hne].
  - rewrite displayNameOf_absent by done.
    unfold FlatFile.displayNameOf. simpl.
    by erewrite get_own by apply lookup_insert_eq.
  - unfold FlatFile.displayNameOf. simpl. by rewrite get_insert_ne.
Qed.

Lemma flatfile_unknown_member id date (w : FlatFile.World) league m createdAt :
  JS.get (FlatFile.inheritedKeys (FlatFile.prototype w))
      (FlatFile.leagues (FlatFile.file w)) id = Some league →
  m ∈ FlatFile.memberships (FlatFile.file w) →
  FlatFile.Membership.leagueId m = id →
  FlatFile.players (FlatFile.file w) !! FlatFile.Membership.playerUuid m = None →
  (FlatFile.Membership.playerUuid m
   ∈ FlatFile.inheritedKeys (FlatFile.prototype w) →
   FlatFile.inheritedDisplayName (FlatFile.prototype w)
     (FlatFile.Membership.playerUuid m) = None) →
  ∃ body w',
    FlatFile.computeLeaderboard id date w = (JS.Json body, w')
    ∧ (∃ r, r ∈ Board.leaderboard body
            ∧ Board.uuid (Board.member r) = FlatFile.Membership.playerUuid m
            ∧ Board.display_name (Board.member r) = Board.Unknown)
    ∧ Board.leaderboard body
      = FlatFile.assignRanks
          (Board.sortMembers
             (FlatFile.joinMembers id (Board.on_date body)
                (Spec.withPlayer (FlatFile.Membership.playerUuid m)
                   (FlatFile.Player.mk (FlatFile.Membership.playerUuid m)
                                       Board.Unknown createdAt)
                   (FlatFile.file w))
                (FlatFile.prototype w))).
Proof.
  intros Hl Hin Hid Hp Hw. eexists _, _. split.
  { by apply flatfile_leaderboard_found. }
  simpl. split.
  - rewrite assignRanks_agree.
    set (d := (FlatFile.resolveDate date w).1).
    set (dateScores :=
           filter (λ s, FlatFile.Score.leagueId s = id ∧ FlatFile.Score.date s = d)
                  (FlatFile.scores (FlatFile.file w))).
    set (score := JS.find (λ s, FlatFile.Score.playerUuid s
                                = FlatFile.Membership.playerUuid m) dateScores).
    destruct (ranked_member_of
                (FlatFile.joinMembers id d (FlatFile.file w)
                                      (FlatFile.prototype w))
      (Board.mkEntry (FlatFile.Membership.playerUuid m) Board.Unknown
         (score ≫= FlatFile.Score.mistakes) (FlatFile.Score.date <$> score)))
      as (r & Hr & Hmem).
    { unfold FlatFile.joinMembers. apply list_elem_of_fmap.
      exists (FlatFile.Membership.playerUuid m). split.
      - by rewrite displayNameOf_absent.
      - apply list_elem_of_fmap_2. by apply list_elem_of_filter. }
    exists r. by rewrite Hmem.
  - by rewrite <- flatfile_join_named.
Qed.

(** A league member without a player record does not make the
    leaderboard fail, in either variant: the route answers a leaderboard
    with an entry for the member, and the entry is named by the literal
    [Unknown] (in the flat-file variant: unless a display name was written
    on the object that [db.players] inherits under the member's
    identifier); the whole leaderboard is the one computed when the member
    has a player record of that name, so the entry is sorted and ranked
    like any other. *)
Theorem unknown_member_listed :
  (∀ id date (w : Service.World Store) league members m,
     Service.selectLeague id (Service.store w) = Some league →
     Service.selectMembers id (Service.store w) = Some members →
     m ∈ members → Service.MemberRow.players m = None →
     ∃ body w',
       Service.computeLeaderboard id date w = (JS.Json body, w')
       ∧ (∃ r, r ∈ Board.leaderboard body
               ∧ Board.uuid (Board.member r) = Service.MemberRow.player_uuid m
               ∧ Board.display_name (Board.member r) = "Unknown")
       ∧ length (Board.leaderboard body) = length members
       ∧ Board.leaderboard body
         = Service.rankedMembers (Some (Spec.named <$> members))
             (Service.selectScores id (Board.on_date body) (Service.store w)))
  ∧ (∀ id date (w : FlatFile.World) league m createdAt,
       JS.get (FlatFile.inheritedKeys (FlatFile.prototype w))
           (FlatFile.leagues (FlatFile.file w)) id = Some league →
       m ∈ FlatFile.memberships (FlatFile.file w) →
       FlatFile.Membership.leagueId m = id →
       FlatFile.players (FlatFile.file w) !! FlatFile.Membership.playerUuid m
       = None →
       (FlatFile.Membership.playerUuid m
        ∈ FlatFile.inheritedKeys (FlatFile.prototype w) →
        FlatFile.inheritedDisplayName (FlatFile.prototype w)
          (FlatFile.Membership.playerUuid m) = None) →
       ∃ body w',
         FlatFile.computeLeaderboard id date w = (JS.Json body, w')
         ∧ (∃ r, r ∈ Board.leaderboard body
                 ∧ Board.uuid (Board.member r) = FlatFile.Membership.playerUuid m
                 ∧ Board.display_name (Board.member r) = "Unknown")
         ∧ Board.leaderboard body
           = FlatFile.assignRanks
               (Board.sortMembers
                  (FlatFile.joinMembers id (Board.on_date body)
                     (Spec.withPlayer (FlatFile.Membership.playerUuid m)
                        (FlatFile.Player.mk (FlatFile.Membership.playerUuid m)
                                            "Unknown" createdAt)
                        (FlatFile.file w))
                     (FlatFile.prototype w)))).
Proof.
  split.
  - intros. by eapply service_unknown_member.
  - intros. by eapply flatfile_unknown_member.
Qed.

End UnknownMember.

Lemma unknown_member_listed_witness :
  (∃ body w',
     Service.computeLeaderboard (E := Sample.env)
       (C := Sample.client Sample.healthy) "abcd1234" None Sample.service0
     = (JS.Json body, w')
     ∧ ∃ r, r ∈ Board.leaderboard body
            ∧ Board.uuid (Board.member r) = "u-ghost"
            ∧ Board.display_name (Board.member r) = "Unknown")
  ∧ (∃ body w',
       FlatFile.computeLeaderboard (E := Sample.env) "abcd1234" None
         Sample.orphanWorld
       = (JS.Json body, w')
       ∧ ∃ r, r ∈ Board.leaderboard body
              ∧ Board.uuid (Board.member r) = "u-ghost"
              ∧ Board.display_name (Board.member r) = "Unknown").
Proof.
  pose proof (unknown_member_listed (E := Sample.env)
                (C := Sample.client Sample.healthy)) as [HS HF].
  split.
  - destruct (HS "abcd1234" None Sample.service0 "My League"
                _ (Service.MemberRow.mk "u-ghost" None)
                eq_refl eq_refl) as (body & w' & Hrun & Hr & _).
    + set_solver.
    + reflexivity.
    + by exists body, w'.
  - destruct (HF "abcd1234" None Sample.orphanWorld
                (JS.Own (FlatFile.League.mk "abcd1234" "My League"
                           "2024-01-05T09:30:00.000Z"))
                (FlatFile.Membership.mk "u-ghost" "abcd1234"
                   "2024-01-06T09:30:00.000Z")
                EmptyString) as (body & w' & Hrun & Hr & _).
    + reflexivity.
    + simpl. set_solver.
    + reflexivity.
    + reflexivity.
    + reflexivity.
    + by exists body, w'.
Defined.

(** C10.  After a player joined the league under the identifier
    [__proto__] there is a member without a player record in the file;
    the leaderboard lists that member as [Unknown].  After the display
    name of the player [__proto__] was updated there is still no record
    in the file (the name was written on [Object.prototype]), and the
    leaderboard lists the member under the written name instead of
    [Unknown]. *)
Lemma C10_written_name_shown :
  FlatFile.players (FlatFile.file Cover.protoJoined) !! "__proto__" = None
  ∧ FlatFile.Membership.playerUuid
      <$> FlatFile.memberships (FlatFile.file Cover.protoJoined)
    = ["__proto__"]
  ∧ (∃ body,
       (FlatFile.computeLeaderboard (E := Sample.env) "abcd1234" None
          Cover.protoJoined).1 = JS.Json body
       ∧ (λ r, (Board.uuid (Board.member r), Board.display_name (Board.member r)))
           <$> Board.leaderboard body
         = [("__proto__", "Unknown")])
  ∧ FlatFile.file Cover.protoRenamed = FlatFile.file Cover.protoJoined
  ∧ (∃ body,
       (FlatFile.computeLeaderboard (E := Sample.env) "abcd1234" None
          Cover.protoRenamed).1 = JS.Json body
       ∧ (λ r, (Board.uuid (Board.member r), Board.display_name (Board.member r)))
           <$> Board.leaderboard body
         = [("__proto__", "Eve")]).
Proof.
  split_and!; try (vm_compute; reflexivity);
    eexists; split; vm_compute; reflexivity.
Qed.

(** ** Keys *)

Lemma filter_key_unique {A K} `{EqDecision K} (f : A → K) (l : list A) i x :
  NoDup (f <$> l) → l !! i = Some x → filter (λ y, f y = f x) l = [x].
Proof.
  revert i. induction l as [|y l IH]; intros i Hnd Hi.
  { by rewrite lookup_nil in Hi. }
  rewrite fmap_cons in Hnd. apply NoDup_cons in Hnd as [Hy Hnd].
  destruct i as [|i]; simpl in Hi.
  - injection Hi as ->. rewrite filter_cons_True by done. f_equal.
    apply filter_Forall_nil, Forall_forall. intros z Hz Heq.
    apply Hy. rewrite <- Heq. by apply list_elem_of_fmap_2.
  - rewrite filter_cons_False; [by eapply IH|].
    intros Heq. apply Hy. rewrite Heq.
    by eapply list_elem_of_fmap_2, list_elem_of_lookup_2.
Qed.

Lemma scoreKey_eq s uuid leagueId date :
  Spec.scoreKey s = (uuid, leagueId, date) ↔ Spec.scoreOf uuid leagueId date s.
Proof.
  unfold Spec.scoreKey, Spec.scoreOf. split.
  - by intros [= -> -> ->].
  - by intros (-> & -> & ->).
Qed.

Lemma membershipKey_eq m uuid id :
  Spec.membershipKey m = (uuid, id) ↔ Spec.membershipOf uuid id m.
Proof.
  unfold Spec.membershipKey, Spec.membershipOf. split.
  - by intros [= -> ->].
  - by intros (-> & ->).
Qed.

(** ** The flat-file operations *)

Section FlatFileOps.
Context `{E : Env}.

(** *** Scores *)

Lemma upsertScore_scores uuid leagueId date mistakes db w :
  FlatFile.scores (FlatFile.upsertScore uuid leagueId date mistakes db w).1
  = match JS.findIndex (Spec.scoreOf uuid leagueId date) (FlatFile.scores db) with
    | Some i =>
        alter (λ s, FlatFile.Score.mk (FlatFile.Score.playerUuid s)
                      (FlatFile.Score.leagueId s) (FlatFile.Score.date s)
                      mistakes (JS.toISOString (clock (FlatFile.ticks w))))
              i (FlatFile.scores db)
    | None =>
        FlatFile.scores db
        ++ [FlatFile.Score.mk uuid leagueId date mistakes
              (JS.toISOString (clock (FlatFile.ticks w)))]
    end.
Proof. reflexivity. Qed.

Lemma upsertScore_frame uuid leagueId date mistakes db w :
  FlatFile.leagues (FlatFile.upsertScore uuid leagueId date mistakes db w).1
  = FlatFile.leagues db
  ∧ FlatFile.players (FlatFile.upsertScore uuid leagueId date mistakes db w).1
    = FlatFile.players db
  ∧ FlatFile.memberships (FlatFile.upsertScore uuid leagueId date mistakes db w).1
    = FlatFile.memberships db
  ∧ FlatFile.file (FlatFile.upsertScore uuid leagueId date mistakes db w).2
    = FlatFile.file w.
Proof. done. Qed.

(** An upsert changes no key, and adds the key of its score when it is
    new. *)
Lemma upsertScore_keys uuid leagueId date mistakes db w :
  Spec.scoreKey
    <$> FlatFile.scores (FlatFile.upsertScore uuid leagueId date mistakes db w).1
  = if decide ((uuid, leagueId, date) ∈ Spec.scoreKey <$> FlatFile.scores db)
    then Spec.scoreKey <$> FlatFile.scores db
    else (Spec.scoreKey <$> FlatFile.scores db) ++ [(uuid, leagueId, date)].
Proof.
  rewrite upsertScore_scores.
  destruct (JS.findIndex _ _) as [i|] eqn:Hf.
  - apply findIndex_Some in Hf as (s & Hs & Hk & _).
    rewrite decide_True.
    + rewrite (list_fmap_alter _ _ id); [by rewrite list_alter_id|].
      by apply Forall_forall.
    + apply list_elem_of_fmap. exists s. split.
      * symmetry. by apply scoreKey_eq.
      * by eapply list_elem_of_lookup_2.
  - apply findIndex_None in Hf. rewrite decide_False.
    + by rewrite fmap_app.
    + intros (s & Hk & Hs)%list_elem_of_fmap.
      eapply Forall_forall in Hf; [|done]. apply Hf. by apply scoreKey_eq.
Qed.

(** After an upsert the score of the key holds the submitted mistakes. *)
Lemma upsertScore_written uuid leagueId date mistakes db w :
  ∃ i s,
    FlatFile.scores (FlatFile.upsertScore uuid leagueId date mistakes db w).1 !! i
    = Some s
    ∧ Spec.scoreKey s = (uuid, leagueId, date)
    ∧ FlatFile.Score.mistakes s = mistakes
    ∧ FlatFile.Score.recordedAt s = JS.toISOString (clock (FlatFile.ticks w)).
Proof.
  rewrite upsertScore_scores.
  destruct (JS.findIndex _ _) as [i|] eqn:Hf.
  - apply findIndex_Some in Hf as (s & Hs & (Hu & Hl & Hd) & _).
    eexists i, _. split.
    + by rewrite list_lookup_alter_eq, Hs.
    + simpl. unfold Spec.scoreKey. simpl. by rewrite Hu, Hl, Hd.
  - eexists (length (FlatFile.scores db)), _. split.
    + by apply list_lookup_middle.
    + done.
Qed.

(** An upsert leaves the scores of the other keys as they are. *)
Lemma upsertScore_others uuid leagueId date mistakes db w s :
  s ∈ FlatFile.scores db → Spec.scoreKey s ≠ (uuid, leagueId, date) →
  s ∈ FlatFile.scores (FlatFile.upsertScore uuid leagueId date mistakes db w).1.
Proof.
  intros [j Hj]%list_elem_of_lookup_1 Hne. rewrite upsertScore_scores.
  destruct (JS.findIndex _ _) as [i|] eqn:Hf.
  - apply findIndex_Some in Hf as (s' & Hs' & Hk & _).
    apply (list_elem_of_lookup_2 _ j). rewrite list_lookup_alter_ne; [done|].
    intros ->. rewrite Hj in Hs'. injection Hs' as ->.
    by apply Hne, scoreKey_eq.
  - apply elem_of_app. left. by eapply list_elem_of_lookup_2.
Qed.

(** Every score after an upsert has an old key, or is the upserted one. *)
Lemma upsertScore_elem uuid leagueId date mistakes db w s :
  s ∈ FlatFile.scores (FlatFile.upsertScore uuid leagueId date mistakes db w).1 →
  Spec.scoreKey s ∈ Spec.scoreKey <$> FlatFile.scores db
  ∨ Spec.scoreKey s = (uuid, leagueId, date).
Proof.
  intros Hs%(list_elem_of_fmap_2 Spec.scoreKey).
  rewrite upsertScore_keys in Hs. case_decide; [by left|].
  apply elem_of_app in Hs as [?|Hs%list_elem_of_singleton]; [by left|by right].
Qed.

Lemma upsertScore_wellFormed uuid leagueId date mistakes db w :
  Spec.wellFormed db →
  (uuid, leagueId) ∈ Spec.membershipKey <$> FlatFile.memberships db →
  Spec.wellFormed (FlatFile.upsertScore uuid leagueId date mistakes db w).1.
Proof.
  intros (Hm & Hs & Hsm & Hp) Hin. split_and!; [done| | |done].
  - rewrite upsertScore_keys. case_decide as Hk; [done|].
    apply NoDup_app. split_and!; [done| |apply NoDup_singleton].
    intros k Hk' ->%list_elem_of_singleton. done.
  - apply Forall_forall. intros s Hs'.
    change (FlatFile.memberships _) with (FlatFile.memberships db).
    pose proof (upsertScore_elem _ _ _ _ _ _ _ Hs') as [Hold|Hnew].
    + apply list_elem_of_fmap in Hold as (s0 & Hk & Hs0).
      eapply Forall_forall in Hsm; [|done].
      unfold Spec.scoreKey in Hk. by injection Hk as -> -> _.
    + unfold Spec.scoreKey in Hnew. by injection Hnew as -> -> _.
Qed.

End FlatFileOps.

Section FlatFileFanOut.
Context `{E : Env}.
Context (uuid date : string) (mistakes : option Z).

Lemma fanOut_cons leagueId playerLeagues recorded db w :
  FlatFile.fanOut uuid date mistakes (leagueId :: playerLeagues) recorded db w
  = FlatFile.fanOut uuid date mistakes playerLeagues (S recorded)
      (FlatFile.upsertScore uuid leagueId date mistakes db w).1
      (FlatFile.upsertScore uuid leagueId date mistakes db w).2.
Proof.
  simpl. by destruct (FlatFile.upsertScore uuid leagueId date mistakes db w).
Qed.

(** The flat-file loop counts every league. *)
Lemma fanOut_recorded playerLeagues : ∀ recorded db w,
  (FlatFile.fanOut uuid date mistakes playerLeagues recorded db w).1.1
  = recorded + length playerLeagues.
Proof.
  induction playerLeagues as [|l ls IH]; intros r db w.
  - simpl. lia.
  - rewrite fanOut_cons, IH. simpl. lia.
Qed.

Lemma fanOut_frame playerLeagues : ∀ recorded db w,
  FlatFile.leagues
    (FlatFile.fanOut uuid date mistakes playerLeagues recorded db w).1.2
  = FlatFile.leagues db
  ∧ FlatFile.players
      (FlatFile.fanOut uuid date mistakes playerLeagues recorded db w).1.2
    = FlatFile.players db
  ∧ FlatFile.memberships
      (FlatFile.fanOut uuid date mistakes playerLeagues recorded db w).1.2
    = FlatFile.memberships db.
Proof.
  induction playerLeagues as [|l ls IH]; intros r db w; [done|].
  rewrite fanOut_cons.
  destruct (IH (S r) (FlatFile.upsertScore uuid l date mistakes db w).1
               (FlatFile.upsertScore uuid l date mistakes db w).2)
    as (-> & -> & ->).
  done.
Qed.

Lemma fanOut_wellFormed playerLeagues : ∀ recorded db w,
  Spec.wellFormed db →
  (∀ l, l ∈ playerLeagues →
        (uuid, l) ∈ Spec.membershipKey <$> FlatFile.memberships db) →
  Spec.wellFormed
    (FlatFile.fanOut uuid date mistakes playerLeagues recorded db w).1.2.
Proof.
  induction playerLeagues as [|l ls IH]; intros r db w Hwf Hin; [done|].
  rewrite fanOut_cons. apply IH.
  - apply upsertScore_wellFormed; [done|]. apply Hin. by left.
  - intros l' Hl'. apply Hin. by right.
Qed.

(** The loop writes scores of the player, for the submitted date and for
    the listed leagues only. *)
Lemma fanOut_elem playerLeagues : ∀ recorded db w s,
  s ∈ FlatFile.scores
        (FlatFile.fanOut uuid date mistakes playerLeagues recorded db w).1.2 →
  Spec.scoreKey s ∈ Spec.scoreKey <$> FlatFile.scores db
  ∨ ∃ l, l ∈ playerLeagues ∧ Spec.scoreKey s = (uuid, l, date).
Proof.
  induction playerLeagues as [|l ls IH]; intros r db w s Hs.
  { left. by apply list_elem_of_fmap_2. }
  rewrite fanOut_cons in Hs. apply IH in Hs as [Hs|(l' & Hl' & Hs)].
  - apply list_elem_of_fmap in Hs as (s' & -> & [Hs'|Hs']%upsertScore_elem).
    + by left.
    + right. exists l. split; [by left|done].
  - right. exists l'. split; [by right|done].
Qed.

Lemma fanOut_keeps playerLeagues : ∀ recorded db w l,
  (∃ s, s ∈ FlatFile.scores db ∧ Spec.scoreKey s = (uuid, l, date)
        ∧ FlatFile.Score.mistakes s = mistakes) →
  ∃ s, s ∈ FlatFile.scores
             (FlatFile.fanOut uuid date mistakes playerLeagues recorded db w).1.2
       ∧ Spec.scoreKey s = (uuid, l, date)
       ∧ FlatFile.Score.mistakes s = mistakes.
Proof.
  induction playerLeagues as [|l' ls IH]; intros r db w l Hs; [done|].
  rewrite fanOut_cons. apply IH.
  destruct (decide (l' = l)) as [->|Hne].
  - destruct (upsertScore_written uuid l date mistakes db w)
      as (i & s & Hi & Hk & Hm & _).
    exists s. split_and!; [|done..]. by eapply list_elem_of_lookup_2.
  - destruct Hs as (s & Hin & Hk & Hm). exists s. split_and!; [|done..].
    apply upsertScore_others; [done|]. rewrite Hk. congruence.
Qed.

(** After the loop every listed league holds the submitted mistakes. *)
Lemma fanOut_written playerLeagues : ∀ recorded db w l,
  l ∈ playerLeagues →
  ∃ s, s ∈ FlatFile.scores
             (FlatFile.fanOut uuid date mistakes playerLeagues recorded db w).1.2
       ∧ Spec.scoreKey s = (uuid, l, date)
       ∧ FlatFile.Score.mistakes s = mistakes.
Proof.
  induction playerLeagues as [|l' ls IH]; intros r db w l Hl.
  { by apply elem_of_nil in Hl. }
  rewrite fanOut_cons. apply elem_of_cons in Hl as [->|Hl]; [|by apply IH].
  apply fanOut_keeps.
  destruct (upsertScore_written uuid l' date mistakes db w)
    as (i & s & Hi & Hk & Hm & _).
  exists s. split_and!; [|done..]. by eapply list_elem_of_lookup_2.
Qed.

End FlatFileFanOut.

Section FlatFileMembers.
Context `{E : Env}.

(** *** Memberships *)

Lemma addMembership_memberships uuid id db w :
  FlatFile.memberships (FlatFile.addMembership uuid id db w).1
  = match JS.find (Spec.membershipOf uuid id) (FlatFile.memberships db) with
    | Some _ => FlatFile.memberships db
    | None =>
        FlatFile.memberships db
        ++ [FlatFile.Membership.mk uuid id
              (JS.toISOString (clock (FlatFile.ticks w)))]
    end.
Proof.
  unfold FlatFile.addMembership.
  change (JS.find _ (FlatFile.memberships db))
    with (JS.find (Spec.membershipOf uuid id) (FlatFile.memberships db)).
  by destruct (JS.find _ _).
Qed.

Lemma addMembership_frame uuid id db w :
  FlatFile.leagues (FlatFile.addMembership uuid id db w).1 = FlatFile.leagues db
  ∧ FlatFile.players (FlatFile.addMembership uuid id db w).1
    = FlatFile.players db
  ∧ FlatFile.scores (FlatFile.addMembership uuid id db w).1 = FlatFile.scores db
  ∧ FlatFile.file (FlatFile.addMembership uuid id db w).2 = FlatFile.file w.
Proof.
  unfold FlatFile.addMembership. by destruct (JS.find _ _).
Qed.

Lemma find_membership_key uuid id (l : list FlatFile.Membership.t) :
  is_Some (JS.find (Spec.membershipOf uuid id) l)
  ↔ (uuid, id) ∈ Spec.membershipKey <$> l.
Proof.
  split.
  - intros [m (k & Hk & Hm & _)%find_Some]. apply list_elem_of_fmap.
    exists m. split; [symmetry; by apply membershipKey_eq|].
    by eapply list_elem_of_lookup_2.
  - intros (m & Hk & Hm)%list_elem_of_fmap.
    destruct (JS.find _ l) eqn:Hf; [done|]. apply find_None in Hf.
    eapply Forall_forall in Hf; [|done]. destruct Hf.
    by apply membershipKey_eq.
Qed.

Lemma addMembership_keys uuid id db w :
  Spec.membershipKey
    <$> FlatFile.memberships (FlatFile.addMembership uuid id db w).1
  = if decide ((uuid, id) ∈ Spec.membershipKey <$> FlatFile.memberships db)
    then Spec.membershipKey <$> FlatFile.memberships db
    else (Spec.membershipKey <$> FlatFile.memberships db) ++ [(uuid, id)].
Proof.
  rewrite addMembership_memberships.
  pose proof (find_membership_key uuid id (FlatFile.memberships db)) as Hk.
  destruct (JS.find _ _) as [m|].
  - rewrite decide_True; [done|]. by apply Hk.
  - rewrite decide_False; [by rewrite fmap_app|].
    intros Hin%Hk. by destruct Hin.
Qed.

Lemma addMembership_present uuid id db w :
  (uuid, id)
  ∈ Spec.membershipKey
      <$> FlatFile.memberships (FlatFile.addMembership uuid id db w).1.
Proof.
  rewrite addMembership_keys. case_decide; [done|].
  apply elem_of_app. right. by left.
Qed.

Lemma addMembership_grows uuid id db w k :
  k ∈ Spec.membershipKey <$> FlatFile.memberships db →
  k ∈ Spec.membershipKey
        <$> FlatFile.memberships (FlatFile.addMembership uuid id db w).1.
Proof.
  intros Hk. rewrite addMembership_keys. case_decide; [done|].
  apply elem_of_app. by left.
Qed.

Lemma addMembership_wellFormed uuid id db w :
  Spec.wellFormed db → Spec.wellFormed (FlatFile.addMembership uuid id db w).1.
Proof.
  intros (Hm & Hs & Hsm & Hp).
  destruct (addMembership_frame uuid id db w) as (_ & Hpl & Hsc & _).
  unfold Spec.wellFormed. rewrite Hpl, Hsc. split_and!; [|done| |done].
  - rewrite addMembership_keys. case_decide as Hk; [done|].
    apply NoDup_app. split_and!; [done| |apply NoDup_singleton].
    by intros k Hk' ->%list_elem_of_singleton.
  - eapply Forall_impl; [done|]. intros s. apply addMembership_grows.
Qed.

(** The second of two joins finds the membership and changes nothing,
    not even the clock. *)
Lemma addMembership_again uuid id db w w' :
  FlatFile.addMembership uuid id (FlatFile.addMembership uuid id db w).1 w'
  = ((FlatFile.addMembership uuid id db w).1, w').
Proof.
  pose proof (addMembership_present uuid id db w) as Hin.
  apply find_membership_key in Hin as [m Hm].
  unfold FlatFile.addMembership at 1.
  change (JS.find _ (FlatFile.memberships (FlatFile.addMembership uuid id db w).1))
    with (JS.find (Spec.membershipOf uuid id)
            (FlatFile.memberships (FlatFile.addMembership uuid id db w).1)).
  by rewrite Hm.
Qed.

End FlatFileMembers.

Section FlatFilePlayers.
Context `{E : Env}.

(** *** Players *)

Lemma toISOString_truthy d : JS.truthy (JS.toISOString d) = true.
Proof. unfold JS.toISOString. by destruct (JS.isoUtc d). Qed.

Lemma upsertPlayerOnJoin_players uuid displayName db w :
  FlatFile.players (FlatFile.upsertPlayerOnJoin uuid displayName db w).1
  = JS.assign uuid
      (FlatFile.Player.mk uuid (JS.trim displayName)
         (match FlatFile.players db !! uuid with
          | Some p =>
              JS.or_else (FlatFile.Player.createdAt p)
                         (JS.toISOString (clock (FlatFile.ticks w)))
          | None => JS.toISOString (clock (FlatFile.ticks w))
          end))
      (FlatFile.players db).
Proof.
  unfold FlatFile.upsertPlayerOnJoin, JS.or_else, JS.get.
  destruct (FlatFile.players db !! uuid) as [p|].
  - by destruct (JS.truthy (FlatFile.Player.createdAt p)).
  - by destruct (bool_decide _).
Qed.

Lemma upsertPlayerOnJoin_frame uuid displayName db w :
  FlatFile.leagues (FlatFile.upsertPlayerOnJoin uuid displayName db w).1
  = FlatFile.leagues db
  ∧ FlatFile.memberships (FlatFile.upsertPlayerOnJoin uuid displayName db w).1
    = FlatFile.memberships db
  ∧ FlatFile.scores (FlatFile.upsertPlayerOnJoin uuid displayName db w).1
    = FlatFile.scores db.
Proof.
  unfold FlatFile.upsertPlayerOnJoin.
  destruct (JS.get (FlatFile.inheritedKeys (FlatFile.prototype w))
             (FlatFile.players db) uuid) as [[p|k]|]; [|done..].
  by destruct (JS.truthy (FlatFile.Player.createdAt p)).
Qed.

Lemma upsertPlayerOnJoin_wellFormed uuid displayName db w :
  Spec.wellFormed db →
  Spec.wellFormed (FlatFile.upsertPlayerOnJoin uuid displayName db w).1.
Proof.
  intros (Hm & Hs & Hsm & Hp).
  destruct (upsertPlayerOnJoin_frame uuid displayName db w) as (_ & Hms & Hsc).
  unfold Spec.wellFormed. rewrite Hms, Hsc, upsertPlayerOnJoin_players.
  split_and!; [done..|]. apply assign_Forall; [|done].
  split; [done|]. simpl. unfold JS.or_else.
  destruct (FlatFile.players db !! uuid) as [p|];
    [|apply toISOString_truthy].
  destruct (JS.truthy (FlatFile.Player.createdAt p)) eqn:Ht; [done|].
  apply toISOString_truthy.
Qed.

(** The display-name route writes the record of the player it finds, a
    new record when it finds nothing, and nothing into the document when
    it finds an inherited object. *)
Lemma upsertPlayerOnUpdate_players uuid displayName db w :
  FlatFile.players (FlatFile.upsertPlayerOnUpdate uuid displayName db w).1
  = match JS.get (FlatFile.inheritedKeys (FlatFile.prototype w))
             (FlatFile.players db) uuid with
    | Some (JS.Own p) =>
        <[uuid := FlatFile.Player.mk (FlatFile.Player.uuid p)
                    (JS.trim displayName) (FlatFile.Player.createdAt p)]>
          (FlatFile.players db)
    | Some (JS.Inherited _) => FlatFile.players db
    | None =>
        <[uuid := FlatFile.Player.mk uuid (JS.trim displayName)
                    (JS.toISOString (clock (FlatFile.ticks w)))]>
          (FlatFile.players db)
    end.
Proof.
  unfold FlatFile.upsertPlayerOnUpdate.
  destruct (JS.get (FlatFile.inheritedKeys (FlatFile.prototype w))
             (FlatFile.players db) uuid) as [[p|k]|] eqn:Hg;
    [done|by destruct (bool_decide _)|].
  simpl. apply assign_ordinary. intros ->.
  apply get_None in Hg as [_ Hk]. apply Hk, proto_inherited.
Qed.

Lemma upsertPlayerOnUpdate_frame uuid displayName db w :
  FlatFile.leagues (FlatFile.upsertPlayerOnUpdate uuid displayName db w).1
  = FlatFile.leagues db
  ∧ FlatFile.memberships (FlatFile.upsertPlayerOnUpdate uuid displayName db w).1
    = FlatFile.memberships db
  ∧ FlatFile.scores (FlatFile.upsertPlayerOnUpdate uuid displayName db w).1
    = FlatFile.scores db.
Proof.
  unfold FlatFile.upsertPlayerOnUpdate.
  destruct (JS.get (FlatFile.inheritedKeys (FlatFile.prototype w))
             (FlatFile.players db) uuid) as [[p|k]|]; [done| |done].
  by destruct (bool_decide _).
Qed.

Lemma upsertPlayerOnUpdate_wellFormed uuid displayName db w :
  Spec.wellFormed db →
  Spec.wellFormed (FlatFile.upsertPlayerOnUpdate uuid displayName db w).1.
Proof.
  intros (Hm & Hs & Hsm & Hp).
  destruct (upsertPlayerOnUpdate_frame uuid displayName db w) as (_ & Hms & Hsc).
  unfold Spec.wellFormed. rewrite Hms, Hsc, upsertPlayerOnUpdate_players.
  split_and!; [done..|].
  destruct (JS.get (FlatFile.inheritedKeys (FlatFile.prototype w))
             (FlatFile.players db) uuid) as [[p|k]|] eqn:Hg; [| done |].
  - apply map_Forall_insert_2; [|done]. apply get_Own in Hg. by apply Hp in Hg.
  - apply map_Forall_insert_2; [|done]. split; [done|]. apply toISOString_truthy.
Qed.

(** *** The routes *)

(** What a request body gives for [displayName] is blank, or not a
    string, or a text that does not trim to nothing. *)
Lemma blank_cases (f : JS.field) :
  JS.blank f = None ∧ f = JS.NotString true
  ∨ JS.blank f = Some true
  ∨ ∃ d, f = JS.Str d ∧ JS.blank f = Some false
         ∧ JS.truthy d = true ∧ JS.truthy (JS.trim d) = true.
Proof.
  destruct f as [| |d|[|]]; simpl; auto.
  destruct (JS.truthy d) eqn:Hd; simpl; [|auto].
  destruct (JS.truthy (JS.trim d)) eqn:Ht; simpl; [|auto].
  right. right. by exists d.
Qed.

(** A league creation throws or is refused and writes nothing, or files
    the league under the drawn id. *)
Lemma createLeague_file name w :
  (Cover.status (FlatFile.createLeague name w).1 ≠ 200
   ∧ (FlatFile.createLeague name w).2 = w
   ∧ (JS.blank name = None
        ∧ FlatFile.createLeague name w = (JS.Thrown, w)
      ∨ JS.blank name = Some true
        ∧ FlatFile.createLeague name w
          = (JS.Error 400 "League name is required", w)))
  ∨ ∃ n,
      name = JS.Str n ∧ JS.truthy (JS.trim n) = true
      ∧ FlatFile.createLeague name w
        = (JS.Json (JS.slice0 8 (uuidv4 (FlatFile.draws w)), JS.trim n),
           FlatFile.mkWorld
             (FlatFile.mkDB
                (<[JS.slice0 8 (uuidv4 (FlatFile.draws w)) :=
                     FlatFile.League.mk (JS.slice0 8 (uuidv4 (FlatFile.draws w)))
                       (JS.trim n) (JS.toISOString (clock (FlatFile.ticks w)))]>
                   (FlatFile.leagues (FlatFile.file w)))
                (FlatFile.players (FlatFile.file w))
                (FlatFile.memberships (FlatFile.file w))
                (FlatFile.scores (FlatFile.file w)))
             (S (FlatFile.ticks w)) (S (FlatFile.draws w))
             (FlatFile.prototype w)).
Proof.
  unfold FlatFile.createLeague.
  destruct (blank_cases name) as [[-> ->]|[->|(n & -> & -> & _ & Ht)]].
  - left. simpl. auto.
  - left. simpl. auto.
  - right. exists n. split_and!; [done..|]. simpl.
    rewrite assign_ordinary; [done|]. intros Heq.
    apply (drawn_id_ordinary (FlatFile.draws w) ∅). rewrite Heq.
    apply proto_inherited.
Qed.

(** A join throws or is refused and writes nothing, or upserts the player
    and adds the membership. *)
Lemma joinLeague_file id uuid displayName w :
  (Cover.status (FlatFile.joinLeague id uuid displayName w).1 ≠ 200
   ∧ (FlatFile.joinLeague id uuid displayName w).2 = w)
  ∨ ∃ u d league,
      uuid = Some u ∧ JS.truthy u = true
      ∧ FlatFile.bodyDisplayName displayName w = JS.Str d
      ∧ JS.truthy (JS.trim d) = true
      ∧ JS.get (FlatFile.inheritedKeys (FlatFile.prototype w))
            (FlatFile.leagues (FlatFile.file w)) id = Some league
      ∧ (FlatFile.joinLeague id uuid displayName w).1 = JS.Json league
      ∧ FlatFile.file (FlatFile.joinLeague id uuid displayName w).2
        = (FlatFile.addMembership u id
             (FlatFile.upsertPlayerOnJoin u d (FlatFile.file w) w).1
             (FlatFile.upsertPlayerOnJoin u d (FlatFile.file w) w).2).1
      ∧ FlatFile.prototype (FlatFile.joinLeague id uuid displayName w).2
        = FlatFile.prototype w.
Proof.
  unfold FlatFile.joinLeague.
  destruct (JS.missing uuid) eqn:Hu; [left; by simpl|].
  destruct uuid as [u|]; [|done].
  destruct (blank_cases (FlatFile.bodyDisplayName displayName w))
    as [[-> _]|[->|(d & Hd & -> & _ & Ht)]]; [left; by simpl..|].
  rewrite Hd. simpl. unfold FlatFile.loadDB.
  destruct (JS.get (FlatFile.inheritedKeys (FlatFile.prototype w))
                (FlatFile.leagues (FlatFile.file w)) id) as [league|] eqn:Hl;
    [|left; by simpl].
  right. exists u, d, league.
  assert (FlatFile.prototype
            (FlatFile.upsertPlayerOnJoin u d (FlatFile.file w) w).2
          = FlatFile.prototype w) as Hp1.
  { unfold FlatFile.upsertPlayerOnJoin, FlatFile.nowISO, FlatFile.newDate.
    destruct (JS.get (FlatFile.inheritedKeys (FlatFile.prototype w))
                  (FlatFile.players (FlatFile.file w)) u) as [[p|k]|];
      [|done..].
    by destruct (JS.truthy (FlatFile.Player.createdAt p)). }
  destruct (FlatFile.upsertPlayerOnJoin u d (FlatFile.file w) w) as [db1 w1].
  simpl in *.
  assert (FlatFile.prototype (FlatFile.addMembership u id db1 w1).2
          = FlatFile.prototype w1) as Hp2.
  { unfold FlatFile.addMembership. by destruct (JS.find _ _). }
  destruct (FlatFile.addMembership u id db1 w1) as [db2 w2]. simpl in *.
  split_and!; [done|by apply negb_false_iff in Hu|done..|congruence].
Qed.

(** A submission is refused and writes nothing, or finds no league and
    writes nothing, or runs the loop over the leagues of the player. *)
Lemma submitScore_file uuid date mistakes w :
  (Spec.refused uuid date mistakes
   ∧ FlatFile.submitScore uuid date mistakes w
     = (JS.Error 400 "UUID, date, and mistakes are required", w))
  ∨ ∃ u d ms,
      uuid = Some u ∧ date = Some d ∧ mistakes = Some ms
      ∧ ¬ Spec.refused uuid date mistakes
      ∧ ((Spec.leaguesOf u (FlatFile.file w) = []
          ∧ FlatFile.submitScore uuid date mistakes w = (JS.Json 0, w))
         ∨ (Spec.leaguesOf u (FlatFile.file w) ≠ []
            ∧ (FlatFile.submitScore uuid date mistakes w).1
              = JS.Json (FlatFile.fanOut u d ms
                           (Spec.leaguesOf u (FlatFile.file w)) 0
                           (FlatFile.file w) w).1.1
            ∧ FlatFile.file (FlatFile.submitScore uuid date mistakes w).2
              = (FlatFile.fanOut u d ms (Spec.leaguesOf u (FlatFile.file w)) 0
                   (FlatFile.file w) w).1.2)).
Proof.
  unfold FlatFile.submitScore, Spec.refused.
  destruct mistakes as [ms|]; [|left; auto].
  destruct (JS.missing uuid) eqn:Hu; [left; auto|].
  destruct (JS.missing date) eqn:Hd; [left; auto|].
  destruct uuid as [u|]; [|done]. destruct date as [d|]; [|done].
  simpl. unfold FlatFile.loadDB. fold (Spec.leaguesOf u (FlatFile.file w)).
  right. exists u, d, ms. split_and!; [done..| |].
  { intros [?|[?|?]]; congruence. }
  case_decide as Hlen.
  - left. split; [|done]. by apply nil_length_inv.
  - right. split.
    { intros Hnil. apply Hlen.
      change (length (Spec.leaguesOf u (FlatFile.file w)) = 0).
      by rewrite Hnil. }
    by destruct (FlatFile.fanOut u d ms _ 0 (FlatFile.file w) w)
      as [[r db1] w1].
Qed.

(** A display-name update throws or is refused and writes nothing, or
    upserts the player. *)
Lemma updatePlayer_file uuid displayName w :
  (Cover.status (FlatFile.updatePlayer uuid displayName w).1 ≠ 200
   ∧ (FlatFile.updatePlayer uuid displayName w).2 = w)
  ∨ ∃ d,
      FlatFile.bodyDisplayName displayName w = JS.Str d
      ∧ JS.truthy (JS.trim d) = true
      ∧ (FlatFile.updatePlayer uuid displayName w).1 = JS.Json ()
      ∧ FlatFile.file (FlatFile.updatePlayer uuid displayName w).2
        = (FlatFile.upsertPlayerOnUpdate uuid d (FlatFile.file w) w).1
      ∧ FlatFile.prototype (FlatFile.updatePlayer uuid displayName w).2
        = FlatFile.prototype
            (FlatFile.upsertPlayerOnUpdate uuid d (FlatFile.file w) w).2.
Proof.
  unfold FlatFile.updatePlayer.
  destruct (blank_cases (FlatFile.bodyDisplayName displayName w))
    as [[-> _]|[->|(d & Hd & -> & _ & Ht)]]; [left; by simpl..|].
  rewrite Hd. simpl. unfold FlatFile.loadDB.
  right. exists d.
  by destruct (FlatFile.upsertPlayerOnUpdate uuid d (FlatFile.file w) w).
Qed.

Lemma leaguesOf_key uuid db l :
  l ∈ Spec.leaguesOf uuid db
  → (uuid, l) ∈ Spec.membershipKey <$> FlatFile.memberships db.
Proof.
  unfold Spec.leaguesOf.
  intros (m & -> & [Hu Hm]%list_elem_of_filter)%list_elem_of_fmap.
  apply list_elem_of_fmap. exists m. split; [|done].
  unfold Spec.membershipKey. by rewrite Hu.
Qed.

(** The reading routes leave the world as it is, but for the clock. *)
Lemma getLeague_world id w : (FlatFile.getLeague id w).2 = w.
Proof.
  unfold FlatFile.getLeague.
  by destruct (JS.get (FlatFile.inheritedKeys (FlatFile.prototype w))
                   (FlatFile.leagues (FlatFile.loadDB w)) id).
Qed.

Lemma computeLeaderboard_world id date w :
  FlatFile.file (FlatFile.computeLeaderboard id date w).2 = FlatFile.file w
  ∧ FlatFile.prototype (FlatFile.computeLeaderboard id date w).2
    = FlatFile.prototype w.
Proof.
  destruct (JS.get (FlatFile.inheritedKeys (FlatFile.prototype w))
                (FlatFile.leagues (FlatFile.file w)) id) as [league|] eqn:Hl.
  - rewrite (flatfile_leaderboard_found id date w league Hl). simpl.
    apply flatfile_resolveDate_file.
  - rewrite (flatfile_leaderboard_missing id date w Hl). simpl.
    apply flatfile_resolveDate_file.
Qed.

(** Serving a request keeps the file well formed. *)
Lemma serve_wellFormed r w :
  Spec.wellFormed (FlatFile.file w) →
  Spec.wellFormed (FlatFile.file (FlatFile.serve r w)).
Proof.
  intros Hwf. destruct r as [name|id|id uuid dn|id date|uuid date ms|uuid|id uuid|uuid dn];
    simpl.
  - destruct (createLeague_file name w) as [(_ & -> & _)|(n & _ & _ & ->)];
      done.
  - by rewrite getLeague_world.
  - destruct (joinLeague_file id uuid dn w)
      as [[_ ->]|(u & d & league & _ & _ & _ & _ & _ & _ & -> & _)]; [done|].
    by apply addMembership_wellFormed, upsertPlayerOnJoin_wellFormed.
  - by rewrite (proj1 (computeLeaderboard_world id date w)).
  - destruct (submitScore_file uuid date ms w)
      as [[_ ->]|(u & d & m & _ & _ & _ & _ & [[_ ->]|(_ & _ & ->)])];
      [done..|].
    apply fanOut_wellFormed; [done|]. intros l. apply leaguesOf_key.
  - done.
  - done.
  - destruct (updatePlayer_file uuid dn w)
      as [[_ ->]|(d & _ & _ & _ & -> & _)]; [done|].
    by apply upsertPlayerOnUpdate_wellFormed.
Qed.

Lemma init_wellFormed : Spec.wellFormed (FlatFile.file FlatFile.init).
Proof.
  split_and!; simpl; [constructor|constructor|constructor|].
  apply map_Forall_empty.
Qed.

Lemma reachable_wellFormed w :
  FlatFile.reachable w → Spec.wellFormed (FlatFile.file w).
Proof.
  induction 1 as [|r w Hw IH]; [apply init_wellFormed|by apply serve_wellFormed].
Qed.

End FlatFilePlayers.

(** ** Scores and memberships *)

Section ScoresOfMembers.
Context `{E : Env}.

(** Only a submission creates scores, and only for the player, the date
    and the leagues of the player at that time. *)
Lemma serve_scores r w s :
  s ∈ FlatFile.scores (FlatFile.file (FlatFile.serve r w)) →
  Spec.scoreKey s ∈ Spec.scoreKey <$> FlatFile.scores (FlatFile.file w)
  ∨ ∃ uuid date mistakes l,
      r = FlatFile.SubmitScore (Some uuid) (Some date) (Some mistakes)
      ∧ l ∈ Spec.leaguesOf uuid (FlatFile.file w)
      ∧ Spec.scoreKey s = (uuid, l, date).
Proof.
  assert (s ∈ FlatFile.scores (FlatFile.file w) →
          Spec.scoreKey s ∈ Spec.scoreKey <$> FlatFile.scores (FlatFile.file w))
    as Hold by apply list_elem_of_fmap_2.
  destruct r as [name|id|id uuid dn|id date|uuid date ms|uuid|id uuid|uuid dn];
    simpl.
  - destruct (createLeague_file name w) as [(_ & -> & _)|(n & _ & _ & ->)];
      simpl; auto.
  - rewrite getLeague_world. auto.
  - destruct (joinLeague_file id uuid dn w)
      as [[_ ->]|(u & d & league & _ & _ & _ & _ & _ & _ & -> & _)]; [auto|].
    destruct (addMembership_frame u id
                (FlatFile.upsertPlayerOnJoin u d (FlatFile.file w) w).1
                (FlatFile.upsertPlayerOnJoin u d (FlatFile.file w) w).2)
      as (_ & _ & -> & _).
    destruct (upsertPlayerOnJoin_frame u d (FlatFile.file w) w)
      as (_ & _ & ->). auto.
  - rewrite (proj1 (computeLeaderboard_world id date w)). auto.
  - destruct (submitScore_file uuid date ms w)
      as [[_ ->]|(u & d & m & -> & -> & -> & _ & [[_ ->]|(_ & _ & ->)])];
      [auto..|].
    intros [Hs|(l & Hl & Hs)]%fanOut_elem; [by left|].
    right. by exists u, d, m, l.
  - auto.
  - auto.
  - destruct (updatePlayer_file uuid dn w)
      as [[_ ->]|(d & _ & _ & _ & -> & _)]; [auto|].
    destruct (upsertPlayerOnUpdate_frame uuid d (FlatFile.file w) w)
      as (_ & _ & ->). auto.
Qed.

(** C6.  In every state the flat-file server reaches from the empty file,
    each score belongs to a membership of its player in its league; and
    a request creates a score only when it is a submission, and then only
    for the player, the date and a league the player is a member of. *)
Theorem C6_scores_have_memberships :
  (∀ w s,
     FlatFile.reachable w → s ∈ FlatFile.scores (FlatFile.file w) →
     ∃ m, m ∈ FlatFile.memberships (FlatFile.file w)
          ∧ FlatFile.Membership.playerUuid m = FlatFile.Score.playerUuid s
          ∧ FlatFile.Membership.leagueId m = FlatFile.Score.leagueId s)
  ∧ (∀ r w s,
       s ∈ FlatFile.scores (FlatFile.file (FlatFile.serve r w)) →
       Spec.scoreKey s ∉ Spec.scoreKey <$> FlatFile.scores (FlatFile.file w) →
       ∃ uuid date mistakes,
         r = FlatFile.SubmitScore (Some uuid) (Some date) (Some mistakes)
         ∧ FlatFile.Score.playerUuid s = uuid
         ∧ FlatFile.Score.date s = date
         ∧ FlatFile.Score.leagueId s ∈ Spec.leaguesOf uuid (FlatFile.file w)).
Proof.
  split.
  - intros w s (_ & _ & Hsm & _)%reachable_wellFormed Hs.
    eapply Forall_forall in Hsm; [|done].
    apply list_elem_of_fmap in Hsm as (m & Hk & Hm).
    exists m. unfold Spec.membershipKey in Hk. by injection Hk as -> ->.
  - intros r w s Hs Hnew.
    apply serve_scores in Hs as [Hold|(u & d & ms & l & -> & Hl & Hk)]; [done|].
    exists u, d, ms. unfold Spec.scoreKey in Hk. by injection Hk as -> -> ->.
Qed.

End ScoresOfMembers.

Lemma sample_world1_reachable : FlatFile.reachable (E := Sample.env) Sample.world1.
Proof. do 2 apply FlatFile.reachable_serve. apply FlatFile.reachable_init. Qed.

Lemma sample_world2_reachable : FlatFile.reachable (E := Sample.env) Sample.world2.
Proof. apply FlatFile.reachable_serve, sample_world1_reachable. Qed.

Lemma C6_scores_have_memberships_witness :
  ∃ m, m ∈ FlatFile.memberships (FlatFile.file Sample.world2)
       ∧ FlatFile.Membership.playerUuid m = "u-bob"
       ∧ FlatFile.Membership.leagueId m = "abcd1234".
Proof.
  apply (proj1 (C6_scores_have_memberships (E := Sample.env)) Sample.world2
           (FlatFile.Score.mk "u-bob" "abcd1234" "2024-01-05" (Some 2%Z)
              "2024-01-08T09:30:00.000Z")).
  - apply sample_world2_reachable.
  - vm_compute. left.
Defined.

(** ** Idempotent writes *)

Section Idempotence.
Context `{E : Env}.

Lemma upsertScore_NoDup uuid leagueId date mistakes db w :
  NoDup (Spec.scoreKey <$> FlatFile.scores db) →
  NoDup (Spec.scoreKey
           <$> FlatFile.scores
                 (FlatFile.upsertScore uuid leagueId date mistakes db w).1).
Proof.
  intros Hs. rewrite upsertScore_keys. case_decide as Hk; [done|].
  apply NoDup_app. split_and!; [done| |apply NoDup_singleton].
  by intros k Hk' ->%list_elem_of_singleton.
Qed.

(** With unique keys, the upserted score is the only one of its key. *)
Lemma upsertScore_only uuid leagueId date mistakes db w :
  NoDup (Spec.scoreKey <$> FlatFile.scores db) →
  ∃ s, filter (Spec.scoreOf uuid leagueId date)
         (FlatFile.scores (FlatFile.upsertScore uuid leagueId date mistakes db w).1)
       = [s]
       ∧ FlatFile.Score.mistakes s = mistakes
       ∧ FlatFile.Score.recordedAt s = JS.toISOString (clock (FlatFile.ticks w)).
Proof.
  intros Hnd%(upsertScore_NoDup uuid leagueId date mistakes db w).
  destruct (upsertScore_written uuid leagueId date mistakes db w)
    as (i & s & Hi & Hk & Hm & Hr).
  exists s. split_and!; [|done..].
  rewrite <- (filter_key_unique Spec.scoreKey _ i s Hnd Hi).
  apply list_filter_iff. intros s'. rewrite Hk. symmetry. apply scoreKey_eq.
Qed.

Lemma addMembership_elem uuid id db w m :
  m ∈ FlatFile.memberships db →
  m ∈ FlatFile.memberships (FlatFile.addMembership uuid id db w).1.
Proof.
  intros Hm. rewrite addMembership_memberships.
  destruct (JS.find _ _); [done|]. apply elem_of_app. by left.
Qed.

(** With unique keys, a join leaves one membership of the pair: the one
    that was there, if any. *)
Lemma addMembership_only uuid id db w :
  NoDup (Spec.membershipKey <$> FlatFile.memberships db) →
  ∃ m, filter (Spec.membershipOf uuid id)
         (FlatFile.memberships (FlatFile.addMembership uuid id db w).1)
       = [m]
       ∧ ∀ m0, m0 ∈ FlatFile.memberships db → Spec.membershipOf uuid id m0 →
               m = m0.
Proof.
  intros Hnd.
  assert (NoDup (Spec.membershipKey
                   <$> FlatFile.memberships
                         (FlatFile.addMembership uuid id db w).1)) as Hnd'.
  { rewrite addMembership_keys. case_decide as Hk; [done|].
    apply NoDup_app. split_and!; [done| |apply NoDup_singleton].
    by intros k Hk' ->%list_elem_of_singleton. }
  pose proof (addMembership_present uuid id db w) as Hin.
  apply list_elem_of_fmap in Hin as (m & Hk & [i Hi]%list_elem_of_lookup_1).
  assert (filter (Spec.membershipOf uuid id)
            (FlatFile.memberships (FlatFile.addMembership uuid id db w).1)
          = [m]) as Hf.
  { rewrite <- (filter_key_unique Spec.membershipKey _ i m Hnd' Hi).
    apply list_filter_iff. intros m'. rewrite <- Hk. symmetry.
    apply membershipKey_eq. }
  exists m. split; [done|]. intros m0 Hm0 Hof.
  assert (m0 ∈ [m]) as Hm0'.
  { rewrite <- Hf. apply list_elem_of_filter. split; [done|].
    by apply addMembership_elem. }
  by apply list_elem_of_singleton in Hm0'.
Qed.

(** C7.  From any state the flat-file server reaches: adding the same
    membership twice leaves exactly one membership of the pair, the
    second call changes neither the file nor the clock, and a membership
    of the pair that was already there is the one that stays, with its
    [joinedAt]; upserting two scores for the same player, league and date
    leaves exactly one score of the key, holding the later mistakes. *)
Theorem C7_idempotent_writes (w : FlatFile.World) :
  FlatFile.reachable w →
  (∀ uuid id,
     let first := FlatFile.addMembership uuid id (FlatFile.file w) w in
     let second := FlatFile.addMembership uuid id first.1 first.2 in
     second = first
     ∧ ∃ m, filter (Spec.membershipOf uuid id) (FlatFile.memberships second.1)
            = [m]
            ∧ ∀ m0, m0 ∈ FlatFile.memberships (FlatFile.file w) →
                    Spec.membershipOf uuid id m0 → m = m0)
  ∧ (∀ uuid id date m1 m2,
       let first := FlatFile.upsertScore uuid id date m1 (FlatFile.file w) w in
       let second := FlatFile.upsertScore uuid id date m2 first.1 first.2 in
       ∃ s, filter (Spec.scoreOf uuid id date) (FlatFile.scores second.1) = [s]
            ∧ FlatFile.Score.mistakes s = m2
            ∧ length (FlatFile.scores second.1)
              = length (FlatFile.scores first.1)).
Proof.
  intros (Hm & Hs & _)%reachable_wellFormed. split.
  - intros uuid id. cbv zeta. rewrite addMembership_again.
    split; [by destruct (FlatFile.addMembership uuid id _ w)|].
    by apply addMembership_only.
  - intros uuid id date m1 m2. cbv zeta.
    set (first := FlatFile.upsertScore uuid id date m1 (FlatFile.file w) w).
    destruct (upsertScore_only uuid id date m2 first.1 first.2)
      as (s & Hf & Hms & _).
    { by apply upsertScore_NoDup. }
    exists s. split_and!; [done..|].
    rewrite <- !(length_fmap Spec.scoreKey).
    rewrite upsertScore_keys. rewrite decide_True; [done|].
    destruct (upsertScore_written uuid id date m1 (FlatFile.file w) w)
      as (i & s1 & Hi & Hk & _).
    rewrite <- Hk. by eapply list_elem_of_fmap_2, list_elem_of_lookup_2.
Qed.

End Idempotence.

Lemma C7_idempotent_writes_witness :
  (∀ uuid id,
     let first := FlatFile.addMembership (E := Sample.env) uuid id
                    (FlatFile.file Sample.world1) Sample.world1 in
     let second := FlatFile.addMembership (E := Sample.env) uuid id
                     first.1 first.2 in
     second = first
     ∧ ∃ m, filter (Spec.membershipOf uuid id) (FlatFile.memberships second.1)
            = [m]
            ∧ ∀ m0, m0 ∈ FlatFile.memberships (FlatFile.file Sample.world1) →
                    Spec.membershipOf uuid id m0 → m = m0)
  ∧ (∀ uuid id date m1 m2,
       let first := FlatFile.upsertScore (E := Sample.env) uuid id date m1
                      (FlatFile.file Sample.world1) Sample.world1 in
       let second := FlatFile.upsertScore (E := Sample.env) uuid id date m2
                       first.1 first.2 in
       ∃ s, filter (Spec.scoreOf uuid id date) (FlatFile.scores second.1) = [s]
            ∧ FlatFile.Score.mistakes s = m2
            ∧ length (FlatFile.scores second.1)
              = length (FlatFile.scores first.1)).
Proof.
  apply (C7_idempotent_writes (E := Sample.env) Sample.world1).
  apply sample_world1_reachable.
Defined.

(** ** Player upserts *)

(** C8.  The two upserts do not create the record of an absent player
    whose identifier names a property of [Object.prototype].  On the
    display-name route, for the absent player [toString], the test
    [!db.players[uuid]] finds the inherited function, the name is
    assigned to that function and the request is answered with success,
    while no record is stored (the join stores one for the same
    identifier).  On the join route, for the player [__proto__], the
    assignment [db.players[uuid] = ...] replaces the prototype of the
    object and stores nothing, while the membership is added and the join
    answered with success. *)
Lemma C8_prototype_named_player_not_created :
  FlatFile.players (FlatFile.file Sample.world1) !! "toString" = None
  ∧ (FlatFile.updatePlayer (E := Sample.env) "toString" (JS.Str "Eve")
       Sample.world1).1 = JS.Json ()
  ∧ FlatFile.players
      (FlatFile.file
         (FlatFile.updatePlayer (E := Sample.env) "toString" (JS.Str "Eve")
            Sample.world1).2) !! "toString" = None
  ∧ (∃ p, FlatFile.players
            (FlatFile.file
               (FlatFile.joinLeague (E := Sample.env) "abcd1234"
                  (Some "toString") (JS.Str "Eve") Sample.world1).2)
          !! "toString" = Some p)
  ∧ FlatFile.players (FlatFile.file Sample.world1) !! "__proto__" = None
  ∧ (∃ league,
       (FlatFile.joinLeague (E := Sample.env) "abcd1234" (Some "__proto__")
          (JS.Str "Mallory") Sample.world1).1 = JS.Json (JS.Own league))
  ∧ FlatFile.players
      (FlatFile.file
         (FlatFile.joinLeague (E := Sample.env) "abcd1234" (Some "__proto__")
            (JS.Str "Mallory") Sample.world1).2) !! "__proto__" = None
  ∧ FlatFile.Membership.playerUuid
      <$> FlatFile.memberships
            (FlatFile.file
               (FlatFile.joinLeague (E := Sample.env) "abcd1234"
                  (Some "__proto__") (JS.Str "Mallory") Sample.world1).2)
    = ["u-bob"; "__proto__"].
Proof.
  split_and!; try (vm_compute; reflexivity);
    vm_compute; eexists; reflexivity.
Qed.

(** ** Score submission *)

Section ServiceSubmit.
Context {Store League : Type} `{C : Service.Client Store League}.

(** The service-backed loop upserts every league in turn, whatever the
    earlier upserts reported, and counts the upserts without error. *)
Lemma service_fanOut_run uuid date mistakes memberships : ∀ recorded st,
  Service.fanOut uuid date mistakes memberships recorded st
  = (recorded
     + length (filter (λ e, e = false)
                      (Spec.reports uuid date mistakes memberships st)),
     Spec.storeAfter uuid date mistakes memberships st).
Proof.
  induction memberships as [|l ls IH]; intros r st; simpl.
  { f_equal. lia. }
  unfold Spec.storeAfter. simpl.
  destruct (Service.upsertScore (Service.ScoreRow.mk uuid l date mistakes) st)
    as [e st1]; simpl.
  rewrite IH, filter_cons. f_equal.
  destruct e; simpl; [done|lia].
Qed.

Lemma reports_length uuid date mistakes memberships : ∀ st,
  length (Spec.reports uuid date mistakes memberships st) = length memberships.
Proof.
  induction memberships as [|l ls IH]; intros st; simpl; [done|].
  by rewrite IH.
Qed.

Lemma storeAfter_app uuid date mistakes earlier l later st :
  Spec.storeAfter uuid date mistakes (earlier ++ l :: later) st
  = Spec.storeAfter uuid date mistakes later
      (Service.upsertScore (Service.ScoreRow.mk uuid l date mistakes)
         (Spec.storeAfter uuid date mistakes earlier st)).2.
Proof. unfold Spec.storeAfter. by rewrite foldl_app. Qed.

(** A submission is refused and leaves the service as it is, or runs the
    loop over the leagues the service lists for the player. *)
Lemma service_submit uuid date mistakes (w : Service.World Store) :
  (Spec.refused uuid date mistakes
   ∧ Service.submitScore uuid date mistakes w
     = (JS.Error 400 "UUID, date, and mistakes are required", w))
  ∨ ∃ u d ms,
      uuid = Some u ∧ date = Some d ∧ mistakes = Some ms
      ∧ ¬ Spec.refused uuid date mistakes
      ∧ Service.submitScore uuid date mistakes w
        = (JS.Json
             (length
                (filter (λ e, e = false)
                   (Spec.reports u d ms
                      (default [] (Service.selectLeagueIds u (Service.store w)))
                      (Service.store w)))),
           Service.mkWorld
             (Spec.storeAfter u d ms
                (default [] (Service.selectLeagueIds u (Service.store w)))
                (Service.store w))
             (Service.ticks w)).
Proof.
  unfold Service.submitScore, Spec.refused.
  destruct mistakes as [ms|]; [|left; auto].
  destruct (JS.missing uuid) eqn:Hu; [left; auto|].
  destruct (JS.missing date) eqn:Hd; [left; auto|].
  destruct uuid as [u|]; [|done]. destruct date as [d|]; [|done].
  simpl. right. exists u, d, ms. split_and!; [done..| |].
  { intros [?|[?|?]]; congruence. }
  destruct (Service.selectLeagueIds u (Service.store w)) as [[|l ls]|];
    [by destruct w| |by destruct w].
  by rewrite service_fanOut_run.
Qed.

End ServiceSubmit.

Section Submit.
Context `{E : Env} {Store League : Type} `{C : Service.Client Store League}.

Lemma truthy_not_missing s : JS.truthy s = true → JS.missing (Some s) = false.
Proof. simpl. by intros ->. Qed.

(** C4.  For a well-formed submission: the service-backed route upserts
    every league the service lists for the player, in turn and whatever
    the earlier upserts reported, and answers the number of upserts
    without error, which is 0 when there is no league (then nothing is
    written) and the number of leagues when no upsert reports an error;
    the flat-file route, whose upserts cannot fail, answers the number of
    leagues of the player, and writes nothing when there is none. *)
Theorem C4_fanout_count (uuid date : string) (mistakes : option Z) :
  JS.truthy uuid = true → JS.truthy date = true →
  (∀ w : Service.World Store,
     let leagues :=
       default [] (Service.selectLeagueIds uuid (Service.store w)) in
     let reports :=
       Spec.reports uuid date mistakes leagues (Service.store w) in
     let answer :=
       Service.submitScore (Some uuid) (Some date) (Some mistakes) w in
     answer.1 = JS.Json (length (filter (λ e, e = false) reports))
     ∧ length reports = length leagues
     ∧ Service.store answer.2
       = Spec.storeAfter uuid date mistakes leagues (Service.store w)
     ∧ (∀ earlier l later, leagues = earlier ++ l :: later →
          Service.store answer.2
          = Spec.storeAfter uuid date mistakes later
              (Service.upsertScore (Service.ScoreRow.mk uuid l date mistakes)
                 (Spec.storeAfter uuid date mistakes earlier (Service.store w))).2)
     ∧ (leagues = [] → answer = (JS.Json 0, w))
     ∧ (Forall (λ e, e = false) reports →
        answer.1 = JS.Json (length leagues)))
  ∧ (∀ w : FlatFile.World,
       let leagues := Spec.leaguesOf uuid (FlatFile.file w) in
       let answer :=
         FlatFile.submitScore (Some uuid) (Some date) (Some mistakes) w in
       answer.1 = JS.Json (length leagues)
       ∧ (leagues = [] → answer = (JS.Json 0, w))).
Proof.
  intros Hu%truthy_not_missing Hd%truthy_not_missing. split.
  - intros w leagues reports answer.
    destruct (service_submit (Some uuid) (Some date) (Some mistakes) w)
      as [[[?|[?|?]] _]|(u & d & ms & [= <-] & [= <-] & [= <-] & _ & Hrun)];
      [congruence..|].
    fold leagues in Hrun. fold reports in Hrun. fold answer in Hrun.
    rewrite Hrun. simpl. split_and!; [done| |done| | |].
    + apply reports_length.
    + intros earlier l later ->. apply storeAfter_app.
    + intros Hnil. unfold reports. rewrite Hnil. simpl. by destruct w.
    + intros Hok. f_equal. rewrite filter_Forall_id by done.
      apply reports_length.
  - intros w leagues answer.
    destruct (submitScore_file (Some uuid) (Some date) (Some mistakes) w)
      as [[[?|[?|?]] _]
         |(u & d & ms & [= <-] & [= <-] & [= <-] & _
           & [[Hnil Hrun]|(Hne & Hrun & _)])];
      [congruence..| |].
    + fold leagues in Hnil. fold answer in Hrun.
      rewrite Hrun, Hnil. done.
    + fold leagues in Hne, Hrun. fold answer in Hrun.
      rewrite Hrun, fanOut_recorded. done.
Qed.

(** C5, as amended.  A submission is refused, with a 400 answer and
    before the store is touched, exactly when [uuid] or [date] is missing
    or empty or [mistakes] is [undefined]; every other submission, also
    one with [null] or negative mistakes, proceeds to the fan-out: the
    service-backed route upserts every league listed for the player, and
    after the flat-file route every league of the player holds the
    submitted mistakes for the date. *)
Theorem C5_validation_before_writes (uuid date : option string)
    (mistakes : option (option Z)) :
  (Spec.refused uuid date mistakes →
     (∀ w : Service.World Store,
        Service.submitScore uuid date mistakes w
        = (JS.Error 400 "UUID, date, and mistakes are required", w))
     ∧ (∀ w : FlatFile.World,
          FlatFile.submitScore uuid date mistakes w
          = (JS.Error 400 "UUID, date, and mistakes are required", w)))
  ∧ (¬ Spec.refused uuid date mistakes →
     ∃ u d ms,
       uuid = Some u ∧ date = Some d ∧ mistakes = Some ms
       ∧ (∀ w : Service.World Store,
            ∃ recorded,
              Service.submitScore uuid date mistakes w
              = (JS.Json recorded,
                 Service.mkWorld
                   (Spec.storeAfter u d ms
                      (default [] (Service.selectLeagueIds u (Service.store w)))
                      (Service.store w))
                   (Service.ticks w)))
       ∧ (∀ w : FlatFile.World,
            ∃ w',
              FlatFile.submitScore uuid date mistakes w
              = (JS.Json (length (Spec.leaguesOf u (FlatFile.file w))), w')
              ∧ ∀ l, l ∈ Spec.leaguesOf u (FlatFile.file w) →
                  ∃ s, s ∈ FlatFile.scores (FlatFile.file w')
                       ∧ Spec.scoreKey s = (u, l, d)
                       ∧ FlatFile.Score.mistakes s = ms)).
Proof.
  split.
  - intros Href. split; intros w.
    + by destruct (service_submit uuid date mistakes w)
        as [[_ ?]|(? & ? & ? & _ & _ & _ & ? & _)].
    + by destruct (submitScore_file uuid date mistakes w)
        as [[_ ?]|(? & ? & ? & _ & _ & _ & ? & _)].
  - intros Hok.
    assert (∃ u d ms, uuid = Some u ∧ date = Some d ∧ mistakes = Some ms)
      as (u & d & ms & -> & -> & ->).
    { destruct (submitScore_file uuid date mistakes FlatFile.init)
        as [[? _]|(u & d & ms & ? & ? & ? & _)]; [done|by exists u, d, ms]. }
    exists u, d, ms. split_and!; [done..| |].
    + intros w.
      destruct (service_submit (Some u) (Some d) (Some ms) w)
        as [[? _]|(? & ? & ? & [= <-] & [= <-] & [= <-] & _ & ->)]; [done|].
      by eexists.
    + intros w.
      destruct (submitScore_file (Some u) (Some d) (Some ms) w)
        as [[? _]
           |(? & ? & ? & [= <-] & [= <-] & [= <-] & _
             & [[Hnil Hrun]|(Hne & Hrun & Hfile)])]; [done| |].
      * exists w. rewrite Hrun, Hnil. split; [done|].
        by intros l ?%elem_of_nil.
      * exists (FlatFile.submitScore (Some u) (Some d) (Some ms) w).2. split.
        { rewrite fanOut_recorded in Hrun. simpl in Hrun. rewrite <- Hrun.
          apply surjective_pairing. }
        intros l Hl. rewrite Hfile. by apply fanOut_written.
Qed.

End Submit.

Lemma C4_fanout_count_witness :
  (Service.submitScore (C := Sample.client Sample.goneIsDown)
     (Some "u-bob") (Some "2024-01-05") (Some (Some 1%Z)) Sample.service0).1
  = JS.Json 2
  ∧ (Service.submitScore (C := Sample.client Sample.healthy)
       (Some "u-bob") (Some "2024-01-05") (Some (Some 1%Z)) Sample.service0).1
    = JS.Json 3
  ∧ (FlatFile.submitScore (E := Sample.env)
       (Some "u-bob") (Some "2024-01-05") (Some (Some 1%Z)) Sample.world1).1
    = JS.Json 1.
Proof.
  split_and!.
  - destruct (C4_fanout_count (E := Sample.env)
                (C := Sample.client Sample.goneIsDown)
                "u-bob" "2024-01-05" (Some 1%Z) eq_refl eq_refl) as [HS _].
    destruct (HS Sample.service0) as (-> & _). vm_compute. reflexivity.
  - destruct (C4_fanout_count (E := Sample.env)
                (C := Sample.client Sample.healthy)
                "u-bob" "2024-01-05" (Some 1%Z) eq_refl eq_refl) as [HS _].
    destruct (HS Sample.service0) as (_ & _ & _ & _ & _ & ->).
    + vm_compute. reflexivity.
    + vm_compute. repeat constructor.
  - destruct (C4_fanout_count (E := Sample.env)
                (C := Sample.client Sample.healthy)
                "u-bob" "2024-01-05" (Some 1%Z) eq_refl eq_refl) as [_ HF].
    destruct (HF Sample.world1) as (-> & _). vm_compute. reflexivity.
Defined.

Lemma C5_validation_before_writes_witness :
  FlatFile.submitScore (E := Sample.env) None (Some "2024-01-05")
    (Some (Some 1%Z)) Sample.world1
  = (JS.Error 400 "UUID, date, and mistakes are required", Sample.world1)
  ∧ ∃ w',
      FlatFile.submitScore (E := Sample.env) (Some "u-bob") (Some "2024-01-05")
        (Some (Some (-1)%Z)) Sample.world1
      = (JS.Json 1, w')
      ∧ ∃ s, s ∈ FlatFile.scores (FlatFile.file w')
             ∧ Spec.scoreKey s = ("u-bob", "abcd1234", "2024-01-05")
             ∧ FlatFile.Score.mistakes s = Some (-1)%Z.
Proof.
  split.
  - destruct (C5_validation_before_writes (E := Sample.env)
                (C := Sample.client Sample.healthy)
                None (Some "2024-01-05") (Some (Some 1%Z))) as [Href _].
    apply Href. by left.
  - destruct (C5_validation_before_writes (E := Sample.env)
                (C := Sample.client Sample.healthy)
                (Some "u-bob") (Some "2024-01-05") (Some (Some (-1)%Z)))
      as [_ Hok].
    destruct Hok as (u & d & ms & [= <-] & [= <-] & [= <-] & _ & HF).
    { intros [?|[?|?]]; discriminate. }
    destruct (HF Sample.world1) as (w' & Hrun & Hrows).
    exists w'. split; [exact Hrun|]. apply Hrows. vm_compute. left.
Defined.

(** C5, as stated, fails: a submission with negative mistakes, which the
    specification wants refused, is not refused by the flat-file route
    (it is recorded in the league of the player). *)
Lemma C5_negative_mistakes_not_refused :
  ¬ (Spec.refusedBySpec (Some "u-bob") (Some "2024-01-05") (Some (Some (-1)%Z)) →
     ∃ status error,
       FlatFile.submitScore (E := Sample.env) (Some "u-bob") (Some "2024-01-05")
         (Some (Some (-1)%Z)) Sample.world1
       = (JS.Error status error, Sample.world1)).
Proof.
  intros H. destruct H as (status & error & Hrun).
  { do 4 right. exists (-1)%Z. split; [done|lia]. }
  apply (f_equal fst) in Hrun. vm_compute in Hrun. discriminate Hrun.
Qed.

(** What the flat-file route writes in that case. *)
Lemma sample_negative_mistakes_written :
  FlatFile.Score.mistakes
    <$> FlatFile.scores
          (FlatFile.file
             (FlatFile.submitScore (E := Sample.env) (Some "u-bob")
                (Some "2024-01-05") (Some (Some (-1)%Z)) Sample.world1).2)
  = [Some (-1)%Z].
Proof. vm_compute. reflexivity. Qed.

(** ** The player summary *)

Section Summary.
Context `{E : Env} {Store League : Type} `{C : Service.Client Store League}.

Lemma flatfile_summary uuid (w : FlatFile.World) :
  FlatFile.getPlayerLeagueSummary uuid w
  = (JS.Json
       (omap (λ leagueId,
                (λ league,
                   Board.mkSummary leagueId (FlatFile.leagueName league)
                     (length (filter (λ m, FlatFile.Membership.leagueId m = leagueId)
                                     (FlatFile.memberships (FlatFile.file w))))
                     (length (filter (λ s, FlatFile.Score.leagueId s = leagueId
                                           ∧ FlatFile.Score.date s
                                             = getTodayString
                                                 (clock (FlatFile.ticks w)))
                                     (FlatFile.scores (FlatFile.file w)))))
                <$> JS.get (FlatFile.inheritedKeys (FlatFile.prototype w))
                        (FlatFile.leagues (FlatFile.file w)) leagueId)
             (Spec.leaguesOf uuid (FlatFile.file w))),
     FlatFile.mkWorld (FlatFile.file w) (S (FlatFile.ticks w)) (FlatFile.draws w)
                      (FlatFile.prototype w)).
Proof.
  unfold FlatFile.getPlayerLeagueSummary, FlatFile.today, FlatFile.newDate,
    JS.filterBoolean, FlatFile.loadDB, Spec.leaguesOf. simpl.
  do 2 f_equal.
  induction (FlatFile.Membership.leagueId
               <$> filter (λ m, FlatFile.Membership.playerUuid m = uuid)
                     (FlatFile.memberships (FlatFile.file w)))
    as [|l ls IH]; [done|].
  csimpl. rewrite IH.
  by destruct (JS.get (FlatFile.inheritedKeys (FlatFile.prototype w))
                   (FlatFile.leagues (FlatFile.file w)) l).
Qed.

Lemma service_summary uuid (w : Service.World Store) :
  Service.getPlayerLeagueSummary uuid w
  = (JS.Json
       ((λ m,
           Board.mkSummary (Service.PlayerLeagueRow.league_id m)
             (Some (match Service.PlayerLeagueRow.leagues m with
                    | Some l =>
                        JS.or_else (Service.LeagueRef.name l) Board.Unknown
                    | None => Board.Unknown
                    end))
             (default 0 (Service.countMembers
                           (Service.PlayerLeagueRow.league_id m)
                           (Service.store w)))
             (default 0 (Service.countScores
                           (Service.PlayerLeagueRow.league_id m)
                           (getTodayString (clock (Service.ticks w)))
                           (Service.store w))))
        <$> default [] (Service.selectPlayerLeagues uuid (Service.store w))),
     Service.mkWorld (Service.store w) (S (Service.ticks w))).
Proof.
  unfold Service.getPlayerLeagueSummary, Service.today. simpl.
  by destruct (Service.selectPlayerLeagues uuid (Service.store w)) as [[|m ms]|].
Qed.

(** C9, as amended.  The summary route never fails, reads the clock once
    and counts the scores of that one day for every league it lists.
    The flat-file route lists the leagues of the player that
    [db.leagues[leagueId]] finds and leaves the others out: a league whose
    id names no property of [Object.prototype] is listed exactly when its
    record is stored.  The service-backed route lists every league of the
    player, and gives one whose record does not resolve the name
    [Unknown]. *)
Theorem C9_player_summary (uuid : string) :
  (∀ w : FlatFile.World,
     ∃ summaries,
       FlatFile.getPlayerLeagueSummary uuid w
       = (JS.Json summaries,
          FlatFile.mkWorld (FlatFile.file w) (S (FlatFile.ticks w))
                           (FlatFile.draws w) (FlatFile.prototype w))
       ∧ Board.id <$> summaries
         = filter (λ l, is_Some (JS.get (FlatFile.inheritedKeys
                                            (FlatFile.prototype w))
                                         (FlatFile.leagues (FlatFile.file w)) l))
                  (Spec.leaguesOf uuid (FlatFile.file w))
       ∧ (∀ l, l ∉ FlatFile.inheritedKeys (FlatFile.prototype w) →
            (l ∈ Board.id <$> summaries
             ↔ l ∈ Spec.leaguesOf uuid (FlatFile.file w)
               ∧ is_Some (FlatFile.leagues (FlatFile.file w) !! l)))
       ∧ ∀ s, s ∈ summaries →
           Board.played_today s
           = length (filter (λ sc, FlatFile.Score.leagueId sc = Board.id s
                                   ∧ FlatFile.Score.date sc
                                     = getTodayString (clock (FlatFile.ticks w)))
                            (FlatFile.scores (FlatFile.file w))))
  ∧ (∀ w : Service.World Store,
       ∃ summaries,
         Service.getPlayerLeagueSummary uuid w
         = (JS.Json summaries,
            Service.mkWorld (Service.store w) (S (Service.ticks w)))
         ∧ Board.id <$> summaries
           = Service.PlayerLeagueRow.league_id
               <$> default [] (Service.selectPlayerLeagues uuid (Service.store w))
         ∧ (∀ s, s ∈ summaries →
              Board.played_today s
              = default 0 (Service.countScores (Board.id s)
                             (getTodayString (clock (Service.ticks w)))
                             (Service.store w)))
         ∧ (∀ m, m ∈ default [] (Service.selectPlayerLeagues uuid
                                   (Service.store w)) →
              Service.PlayerLeagueRow.leagues m = None →
              ∃ s, s ∈ summaries
                   ∧ Board.id s = Service.PlayerLeagueRow.league_id m
                   ∧ Board.name s = Some "Unknown")).
Proof.
  split.
  - intros w. eexists. split; [apply flatfile_summary|].
    assert (Board.id
              <$> omap (λ leagueId,
                          (λ league,
                             Board.mkSummary leagueId (FlatFile.leagueName league)
                               (length (filter (λ m, FlatFile.Membership.leagueId m
                                                     = leagueId)
                                          (FlatFile.memberships (FlatFile.file w))))
                               (length (filter (λ s, FlatFile.Score.leagueId s
                                                     = leagueId
                                                     ∧ FlatFile.Score.date s
                                                       = getTodayString
                                                           (clock (FlatFile.ticks w)))
                                          (FlatFile.scores (FlatFile.file w)))))
                          <$> JS.get (FlatFile.inheritedKeys
                                        (FlatFile.prototype w))
                                     (FlatFile.leagues (FlatFile.file w))
                                     leagueId)
                       (Spec.leaguesOf uuid (FlatFile.file w))
            = filter (λ l, is_Some (JS.get (FlatFile.inheritedKeys
                                               (FlatFile.prototype w))
                                            (FlatFile.leagues (FlatFile.file w))
                                            l))
                     (Spec.leaguesOf uuid (FlatFile.file w))) as Hids.
    { induction (Spec.leaguesOf uuid (FlatFile.file w)) as [|l ls IH]; [done|].
      csimpl. rewrite filter_cons.
      destruct (JS.get (FlatFile.inheritedKeys (FlatFile.prototype w))
                    (FlatFile.leagues (FlatFile.file w)) l)
        as [league|] eqn:Hl; simpl.
      * f_equal. apply IH.
      * apply IH. }
    split; [exact Hids|]. split.
    + intros l Hl. rewrite Hids, list_elem_of_filter, (get_ordinary _ _ l Hl).
      rewrite fmap_is_Some. tauto.
    + intros s (l & Hl & Hs)%list_elem_of_omap.
      destruct (JS.get (FlatFile.inheritedKeys (FlatFile.prototype w))
                    (FlatFile.leagues (FlatFile.file w)) l); [|done].
      by injection Hs as <-.
  - intros w. eexists. split; [apply service_summary|]. split_and!.
    + rewrite <- list_fmap_compose. by apply list_fmap_ext.
    + by intros s (m & -> & Hm)%list_elem_of_fmap.
    + intros m Hm Hnone. eexists. split.
      * apply list_elem_of_fmap. by exists m.
      * simpl. by rewrite Hnone.
Qed.

End Summary.

(** C9, as stated, fails on the service-backed route: a league of the
    player whose record does not resolve is not left out of the
    summary. *)
Lemma C9_service_keeps_unresolved_league :
  ¬ (∀ summaries w',
       Service.getPlayerLeagueSummary (E := Sample.env)
         (C := Sample.client Sample.healthy) "u-bob" Sample.service0
       = (JS.Json summaries, w') →
       ∀ m, m ∈ default [] (Service.selectPlayerLeagues
                              (Client := Sample.client Sample.healthy)
                              "u-bob" (Service.store Sample.service0)) →
            Service.PlayerLeagueRow.leagues m = None →
            Service.PlayerLeagueRow.league_id m ∉ Board.id <$> summaries).
Proof.
  intros H.
  eapply (H _ _ eq_refl (Service.PlayerLeagueRow.mk "gone0000" None)).
  - vm_compute. right. left.
  - reflexivity.
  - vm_compute. right. left.
Qed.

(** A league id that names a property of [Object.prototype] is found by
    [db.leagues[id]] without a league record: in the empty file a player
    can join the league [toString], and the summary of the player then
    lists that league, under the name of the inherited function and with
    its one member, and the league route answers for it. *)
Lemma flatfile_prototype_league_listed :
  FlatFile.leagues (FlatFile.file Cover.builtinJoined) = ∅
  ∧ (FlatFile.joinLeague (E := Sample.env) "toString" (Some "u-bob")
       (JS.Str "Bob") FlatFile.init).1
    = JS.Json (JS.Inherited "toString")
  ∧ Spec.leaguesOf "u-bob" (FlatFile.file Cover.builtinJoined) = ["toString"]
  ∧ (FlatFile.getPlayerLeagueSummary (E := Sample.env) "u-bob"
       Cover.builtinJoined).1
    = JS.Json [Board.mkSummary "toString" (Some "toString") 1 0]
  ∧ (FlatFile.getLeague "toString" Cover.builtinJoined).1
    = JS.Json (JS.Inherited "toString", 1).
Proof. split_and!; vm_compute; reflexivity. Qed.

(** Once a display name was written on [Object.prototype], the lookups
    find it under the key [displayName]: the league route, which knew no
    such league before, answers for it. *)
Example scenario_written_name_found :
  (FlatFile.getLeague "displayName" Cover.protoJoined).1
  = JS.Error 404 "League not found"
  ∧ (FlatFile.getLeague "displayName" Cover.protoRenamed).1
    = JS.Json (JS.Inherited "displayName", 0)
  ∧ (FlatFile.updatePlayer (E := Sample.env) "displayName" (JS.Str "Zed")
       Cover.protoRenamed)
    = (JS.Json (), Cover.protoRenamed).
Proof. split_and!; vm_compute; reflexivity. Qed.

(** ** The scenarios of the specification, evaluated *)

(** Alice without a score, Bob and Carol with two mistakes: Bob and Carol
    share rank 1, Alice has none. *)
Example scenario_tie :
  (λ r, (Board.display_name (Board.member r), Board.rank r))
    <$> Service.assignRanks
          (Board.sortMembers (E := Sample.env)
             [Board.mkEntry "u-alice" "Alice" None None;
              Board.mkEntry "u-bob" "Bob" (Some 2%Z) (Some "2024-01-05");
              Board.mkEntry "u-carol" "Carol" (Some 2%Z) (Some "2024-01-05")])
  = [("Bob", Some 1%Z); ("Carol", Some 1%Z); ("Alice", None)].
Proof. vm_compute. reflexivity. Qed.

(** With Dave and no mistake: Dave first, Bob and Carol share rank 2. *)
Example scenario_dave :
  (λ r, (Board.display_name (Board.member r), Board.rank r))
    <$> FlatFile.assignRanks
          (Board.sortMembers (E := Sample.env)
             [Board.mkEntry "u-alice" "Alice" None None;
              Board.mkEntry "u-bob" "Bob" (Some 2%Z) (Some "2024-01-05");
              Board.mkEntry "u-carol" "Carol" (Some 2%Z) (Some "2024-01-05");
              Board.mkEntry "u-dave" "Dave" (Some 0%Z) (Some "2024-01-05")])
  = [("Dave", Some 1%Z); ("Bob", Some 2%Z); ("Carol", Some 2%Z);
     ("Alice", None)].
Proof. vm_compute. reflexivity. Qed.

(** Two members without a score come in the order of their names. *)
Example scenario_unplayed :
  Board.display_name
    <$> Board.sortMembers (E := Sample.env)
          [Board.mkEntry "u-zara" "Zara" None None;
           Board.mkEntry "u-amy" "Amy" None None]
  = ["Amy"; "Zara"].
Proof. vm_compute. reflexivity. Qed.

(** A created league is read back under its trimmed name. *)
Example scenario_trimmed_name :
  (FlatFile.getLeague "abcd1234"
     (FlatFile.createLeague (E := Sample.env) (JS.Str "My League ")
        FlatFile.init).2).1
  = JS.Json (JS.Own (FlatFile.League.mk "abcd1234" "My League"
                       "2024-01-05T09:30:00.000Z"), 0).
Proof. vm_compute. reflexivity. Qed.

(** Joining twice through the route leaves one membership, with the time
    of the first join. *)
Example scenario_join_twice :
  FlatFile.memberships
    (FlatFile.file
       (FlatFile.serve (E := Sample.env)
          (FlatFile.JoinLeague "abcd1234" (Some "u-bob") (JS.Str "Bobby"))
          Sample.world1))
  = [FlatFile.Membership.mk "u-bob" "abcd1234" "2024-01-07T09:30:00.000Z"].
Proof. vm_compute. reflexivity. Qed.

(** ** What the flat file always holds *)

Section FlatFileInvariants.
Context `{E : Env}.

Lemma missing_truthy u : JS.missing (Some u) = false → JS.truthy u = true.
Proof. simpl. by intros ?%negb_false_iff. Qed.

(** Only the display-name route writes on the prototype chain. *)
Lemma upsertScore_prototype uuid leagueId date mistakes db w :
  FlatFile.prototype (FlatFile.upsertScore uuid leagueId date mistakes db w).2
  = FlatFile.prototype w.
Proof. done. Qed.

Lemma fanOut_prototype uuid date mistakes playerLeagues : ∀ recorded db w,
  FlatFile.prototype
    (FlatFile.fanOut uuid date mistakes playerLeagues recorded db w).2
  = FlatFile.prototype w.
Proof.
  induction playerLeagues as [|l ls IH]; intros r db w; [done|].
  simpl.
  destruct (FlatFile.upsertScore uuid l date mistakes db w) as [db1 w1] eqn:Hu.
  rewrite IH. by rewrite <- (upsertScore_prototype uuid l date mistakes db w), Hu.
Qed.

Lemma submitScore_prototype uuid date mistakes w :
  FlatFile.prototype (FlatFile.submitScore uuid date mistakes w).2
  = FlatFile.prototype w.
Proof.
  unfold FlatFile.submitScore.
  destruct mistakes as [ms|]; [|done].
  destruct (JS.missing uuid || JS.missing date); [done|].
  case_decide; [done|].
  pose proof (fanOut_prototype (default EmptyString uuid)
                (default EmptyString date) ms
                (FlatFile.Membership.leagueId
                   <$> filter (λ m, FlatFile.Membership.playerUuid m
                                    = default EmptyString uuid)
                              (FlatFile.memberships (FlatFile.loadDB w)))
                0 (FlatFile.loadDB w) w) as Hp.
  by destruct (FlatFile.fanOut _ _ _ _ _ _ _) as [[r db1] w1].
Qed.

Lemma serve_prototype r w :
  (∀ uuid dn, r ≠ FlatFile.UpdatePlayer uuid dn) →
  FlatFile.prototype (FlatFile.serve r w) = FlatFile.prototype w.
Proof.
  intros Hne.
  destruct r as [name|id|id uuid dn|id date|uuid date ms|uuid|id uuid|uuid dn];
    simpl.
  - by destruct (createLeague_file name w) as [(_ & -> & _)|(n & _ & _ & ->)].
  - by rewrite getLeague_world.
  - by destruct (joinLeague_file id uuid dn w)
      as [[_ ->]|(u & d & league & _ & _ & _ & _ & _ & _ & _ & ->)].
  - apply computeLeaderboard_world.
  - apply submitScore_prototype.
  - done.
  - done.
  - by destruct (Hne uuid dn).
Qed.

(** What [Object.prototype] has, it keeps: the display-name route only
    ever writes a name that is not empty. *)
Lemma upsertPlayerOnUpdate_inherited uuid d db w k :
  JS.truthy (JS.trim d) = true →
  k ∈ FlatFile.inheritedKeys (FlatFile.prototype w) →
  k ∈ FlatFile.inheritedKeys
        (FlatFile.prototype (FlatFile.upsertPlayerOnUpdate uuid d db w).2).
Proof.
  intros Ht Hk. unfold FlatFile.upsertPlayerOnUpdate.
  destruct (JS.get (FlatFile.inheritedKeys (FlatFile.prototype w))
              (FlatFile.players db) uuid) as [[p|key]|]; [done| |done].
  destruct (bool_decide (key ∈ JS.prototypeKeys)); [|done]. simpl.
  apply inheritedKeys_cases in Hk as [Hk|(-> & s & Hs & Hts)];
    apply inheritedKeys_cases; [by left|right].
  split; [done|]. destruct (decide (key = "__proto__")) as [->|Hne].
  - exists (JS.trim d). by rewrite lookup_insert_eq.
  - exists s. by rewrite lookup_insert_ne.
Qed.

Lemma serve_inherited r w k :
  k ∈ FlatFile.inheritedKeys (FlatFile.prototype w) →
  k ∈ FlatFile.inheritedKeys (FlatFile.prototype (FlatFile.serve r w)).
Proof.
  intros Hk.
  destruct r as [name|id|id uuid dn|id date|uuid date ms|uuid|id uuid|uuid dn];
    try (rewrite serve_prototype; [done|]; intros ? ?; discriminate).
  simpl.
  destruct (updatePlayer_file uuid dn w)
    as [[_ ->]|(d & _ & Ht & _ & _ & ->)]; [done|].
  by apply upsertPlayerOnUpdate_inherited.
Qed.

Lemma get_mono {A} inherited inherited' (obj obj' : gmap string A) k :
  (∀ k, k ∈ inherited → k ∈ inherited') →
  (∀ k, is_Some (obj !! k) → is_Some (obj' !! k)) →
  is_Some (JS.get inherited obj k) → is_Some (JS.get inherited' obj' k).
Proof.
  intros Hinh Hsub. unfold JS.get.
  destruct (obj !! k) as [a|] eqn:Hk.
  - destruct (Hsub k) as [a' ->]; [by eexists|]. by eexists.
  - destruct (obj' !! k); [by eexists|].
    destruct (bool_decide (k ∈ inherited)) eqn:Hin; [|by intros [? ?]].
    apply bool_decide_eq_true_1, Hinh in Hin.
    by rewrite bool_decide_eq_true_2.
Qed.

Lemma linked_grows w w' :
  (∀ k, k ∈ FlatFile.inheritedKeys (FlatFile.prototype w) →
        k ∈ FlatFile.inheritedKeys (FlatFile.prototype w')) →
  (∀ k, is_Some (FlatFile.leagues (FlatFile.file w) !! k) →
        is_Some (FlatFile.leagues (FlatFile.file w') !! k)) →
  (∀ k, is_Some (FlatFile.players (FlatFile.file w) !! k) →
        is_Some (FlatFile.players (FlatFile.file w') !! k)) →
  Forall (λ m, is_Some (JS.get (FlatFile.inheritedKeys (FlatFile.prototype w'))
                               (FlatFile.leagues (FlatFile.file w'))
                               (FlatFile.Membership.leagueId m))
               ∧ (is_Some (FlatFile.players (FlatFile.file w')
                             !! FlatFile.Membership.playerUuid m)
                  ∨ FlatFile.Membership.playerUuid m = "__proto__")
               ∨ m ∈ FlatFile.memberships (FlatFile.file w))
         (FlatFile.memberships (FlatFile.file w')) →
  Cover.linked w → Cover.linked w'.
Proof.
  intros Hinh Hl Hp Hm Hlink. unfold Cover.linked in *.
  eapply Forall_impl; [exact Hm|]. intros m [?|Hin]; [done|].
  eapply Forall_forall in Hlink; [|done]. destruct Hlink as [Hlg Hpl]. split.
  - by eapply get_mono.
  - destruct Hpl; auto.
Qed.

Lemma serve_linked r w : Cover.linked w → Cover.linked (FlatFile.serve r w).
Proof.
  intros Hlink.
  apply (linked_grows w); [apply serve_inherited| | | |done].
  - destruct r as [name|id|id uuid dn|id date|uuid date ms|uuid|id uuid|uuid dn];
      simpl; intros k Hk.
    + destruct (createLeague_file name w) as [(_ & -> & _)|(n & _ & _ & ->)];
        [done|].
      simpl. apply lookup_insert_is_Some'. by right.
    + by rewrite getLeague_world.
    + destruct (joinLeague_file id uuid dn w)
        as [[_ ->]|(u & d & league & _ & _ & _ & _ & _ & _ & -> & _)]; [done|].
      destruct (addMembership_frame u id
                  (FlatFile.upsertPlayerOnJoin u d (FlatFile.file w) w).1
                  (FlatFile.upsertPlayerOnJoin u d (FlatFile.file w) w).2)
        as (-> & _).
      by destruct (upsertPlayerOnJoin_frame u d (FlatFile.file w) w) as (-> & _).
    + by rewrite (proj1 (computeLeaderboard_world id date w)).
    + destruct (submitScore_file uuid date ms w)
        as [[_ ->]|(u & d & m & _ & _ & _ & _ & [[_ ->]|(_ & _ & ->)])];
        [done..|].
      by destruct (fanOut_frame u d m (Spec.leaguesOf u (FlatFile.file w)) 0
                     (FlatFile.file w) w) as (-> & _).
    + done.
    + done.
    + destruct (updatePlayer_file uuid dn w)
        as [[_ ->]|(d & _ & _ & _ & -> & _)]; [done|].
      by destruct (upsertPlayerOnUpdate_frame uuid d (FlatFile.file w) w)
        as (-> & _).
  - destruct r as [name|id|id uuid dn|id date|uuid date ms|uuid|id uuid|uuid dn];
      simpl; intros k Hk.
    + by destruct (createLeague_file name w) as [(_ & -> & _)|(n & _ & _ & ->)].
    + by rewrite getLeague_world.
    + destruct (joinLeague_file id uuid dn w)
        as [[_ ->]|(u & d & league & _ & _ & _ & _ & _ & _ & -> & _)]; [done|].
      destruct (addMembership_frame u id
                  (FlatFile.upsertPlayerOnJoin u d (FlatFile.file w) w).1
                  (FlatFile.upsertPlayerOnJoin u d (FlatFile.file w) w).2)
        as (_ & -> & _).
      rewrite upsertPlayerOnJoin_players. by apply assign_is_Some.
    + by rewrite (proj1 (computeLeaderboard_world id date w)).
    + destruct (submitScore_file uuid date ms w)
        as [[_ ->]|(u & d & m & _ & _ & _ & _ & [[_ ->]|(_ & _ & ->)])];
        [done..|].
      by destruct (fanOut_frame u d m (Spec.leaguesOf u (FlatFile.file w)) 0
                     (FlatFile.file w) w) as (_ & -> & _).
    + done.
    + done.
    + destruct (updatePlayer_file uuid dn w)
        as [[_ ->]|(d & _ & _ & _ & -> & _)]; [done|].
      rewrite upsertPlayerOnUpdate_players.
      destruct (JS.get _ _ uuid) as [[p|k']|]; [|done|];
        apply lookup_insert_is_Some'; by right.
  - destruct r as [name|id|id uuid dn|id date|uuid date ms|uuid|id uuid|uuid dn];
      simpl.
    + destruct (createLeague_file name w) as [(_ & -> & _)|(n & _ & _ & ->)];
        apply Forall_forall; intros m Hm; by right.
    + rewrite getLeague_world. apply Forall_forall. intros m Hm. by right.
    + destruct (joinLeague_file id uuid dn w)
        as [[_ ->]|(u & d & league & _ & _ & _ & _ & Hl & _ & Hfile & Hproto)].
      { apply Forall_forall. intros m Hm. by right. }
      rewrite Hproto, Hfile.
      destruct (addMembership_frame u id
                  (FlatFile.upsertPlayerOnJoin u d (FlatFile.file w) w).1
                  (FlatFile.upsertPlayerOnJoin u d (FlatFile.file w) w).2)
        as (Hlg & Hpl & _ & _).
      destruct (upsertPlayerOnJoin_frame u d (FlatFile.file w) w)
        as (Hlg' & Hms' & _).
      rewrite Hlg, Hpl, Hlg', upsertPlayerOnJoin_players,
        addMembership_memberships, Hms'.
      destruct (JS.find _ _).
      * apply Forall_forall. intros m Hm. by right.
      * apply Forall_app. split.
        -- apply Forall_forall. intros m Hm. by right.
        -- constructor; [|done]. left. simpl. split.
           ++ by rewrite Hl.
           ++ destruct (decide (u = "__proto__")) as [->|Hne]; [by right|].
              left. rewrite assign_ordinary by done.
              by rewrite lookup_insert_eq.
    + rewrite (proj1 (computeLeaderboard_world id date w)).
      apply Forall_forall. intros m Hm. by right.
    + destruct (submitScore_file uuid date ms w)
        as [[_ ->]|(u & d & m & _ & _ & _ & _ & [[_ ->]|(_ & _ & ->)])];
        [apply Forall_forall; intros m' Hm'; by right..|].
      destruct (fanOut_frame u d m (Spec.leaguesOf u (FlatFile.file w)) 0
                  (FlatFile.file w) w) as (_ & _ & ->).
      apply Forall_forall. intros m' Hm'. by right.
    + apply Forall_forall. intros m Hm. by right.
    + apply Forall_forall. intros m Hm. by right.
    + destruct (updatePlayer_file uuid dn w)
        as [[_ ->]|(d & _ & _ & _ & -> & _)].
      { apply Forall_forall. intros m Hm. by right. }
      destruct (upsertPlayerOnUpdate_frame uuid d (FlatFile.file w) w)
        as (_ & -> & _).
      apply Forall_forall. intros m' Hm'. by right.
Qed.

Lemma reachable_linked w : FlatFile.reachable w → Cover.linked w.
Proof.
  induction 1 as [|r w Hw IH]; [by constructor|by apply serve_linked].
Qed.

Lemma serve_plain r w :
  Cover.plain (FlatFile.file w) → Cover.plain (FlatFile.file (FlatFile.serve r w)).
Proof.
  intros [Hlg Hpl].
  destruct r as [name|id|id uuid dn|id date|uuid date ms|uuid|id uuid|uuid dn];
    simpl.
  - destruct (createLeague_file name w) as [(_ & -> & _)|(n & _ & _ & ->)];
      [done|].
    split; simpl; [|done]. rewrite lookup_insert_ne; [done|]. intros Heq.
    apply (drawn_id_ordinary (FlatFile.draws w) ∅). rewrite Heq.
    apply proto_inherited.
  - by rewrite getLeague_world.
  - destruct (joinLeague_file id uuid dn w)
      as [[_ ->]|(u & d & league & _ & _ & _ & _ & Hl & _ & -> & _)]; [done|].
    destruct (addMembership_frame u id
                (FlatFile.upsertPlayerOnJoin u d (FlatFile.file w) w).1
                (FlatFile.upsertPlayerOnJoin u d (FlatFile.file w) w).2)
      as (Hlg1 & Hpl1 & _ & _).
    destruct (upsertPlayerOnJoin_frame u d (FlatFile.file w) w)
      as (Hlg2 & _ & _).
    unfold Cover.plain. rewrite Hlg1, Hpl1, Hlg2, upsertPlayerOnJoin_players.
    split; [done|].
    destruct (assign_cases u
                (FlatFile.Player.mk u (JS.trim d)
                   match FlatFile.players (FlatFile.file w) !! u with
                   | Some p =>
                       JS.or_else (FlatFile.Player.createdAt p)
                         (JS.toISOString (clock (FlatFile.ticks w)))
                   | None => JS.toISOString (clock (FlatFile.ticks w))
                   end)
                (FlatFile.players (FlatFile.file w)))
      as [(_ & _ & ->)|[Hu ->]]; [done|].
    rewrite lookup_insert_ne; [done|]. intros ->.
    destruct Hu as [?|[p Hp]]; [done|]. congruence.
  - by rewrite (proj1 (computeLeaderboard_world id date w)).
  - destruct (submitScore_file uuid date ms w)
      as [[_ ->]|(u & d & m & _ & _ & _ & _ & [[_ ->]|(_ & _ & ->)])];
      [done..|].
    destruct (fanOut_frame u d m (Spec.leaguesOf u (FlatFile.file w)) 0
                (FlatFile.file w) w) as (Hlg1 & Hpl1 & _).
    unfold Cover.plain. by rewrite Hlg1, Hpl1.
  - done.
  - done.
  - destruct (updatePlayer_file uuid dn w)
      as [[_ ->]|(d & _ & _ & _ & -> & _)]; [done|].
    destruct (upsertPlayerOnUpdate_frame uuid d (FlatFile.file w) w)
      as (Hlg1 & _ & _).
    unfold Cover.plain. rewrite Hlg1, upsertPlayerOnUpdate_players.
    split; [done|].
    destruct (JS.get (FlatFile.inheritedKeys (FlatFile.prototype w))
                  (FlatFile.players (FlatFile.file w)) uuid)
      as [[p|k]|] eqn:Hg; [|done|].
    + apply get_Own in Hg. rewrite lookup_insert_ne; [done|]. congruence.
    + apply get_None in Hg as [_ Hk]. rewrite lookup_insert_ne; [done|].
      intros ->. apply Hk, proto_inherited.
Qed.

Lemma reachable_plain w : FlatFile.reachable w → Cover.plain (FlatFile.file w).
Proof.
  induction 1 as [|r w Hw IH]; [done|by apply serve_plain].
Qed.

End FlatFileInvariants.

Section FlatFileNonBlank.
Context `{E : Env}.

Lemma serve_nonBlank r w :
  Cover.nonBlank (FlatFile.file w) →
  Cover.nonBlank (FlatFile.file (FlatFile.serve r w)).
Proof.
  intros (Hlg & Hpl & Hms & Hsc).
  destruct r as [name|id|id uuid dn|id date|uuid date ms|uuid|id uuid|uuid dn];
    simpl.
  - destruct (createLeague_file name w) as [(_ & -> & _)|(n & _ & Hn & ->)];
      [done|].
    split_and!; simpl; [|done..]. by apply map_Forall_insert_2.
  - by rewrite getLeague_world.
  - destruct (joinLeague_file id uuid dn w)
      as [[_ ->]|(u & d & league & _ & Hu & _ & Hd & Hl & _ & -> & _)];
      [done|].
    destruct (addMembership_frame u id
                (FlatFile.upsertPlayerOnJoin u d (FlatFile.file w) w).1
                (FlatFile.upsertPlayerOnJoin u d (FlatFile.file w) w).2)
      as (Hlg1 & Hpl1 & Hsc1 & _).
    destruct (upsertPlayerOnJoin_frame u d (FlatFile.file w) w)
      as (Hlg2 & Hms2 & Hsc2).
    unfold Cover.nonBlank.
    rewrite Hlg1, Hpl1, Hsc1, Hlg2, Hsc2, upsertPlayerOnJoin_players,
      addMembership_memberships, Hms2.
    split_and!; [done| | |done].
    + by apply assign_Forall.
    + destruct (JS.find _ _); [done|].
      apply Forall_app. split; [done|]. by constructor.
  - by rewrite (proj1 (computeLeaderboard_world id date w)).
  - destruct (submitScore_file uuid date ms w)
      as [[_ ->]|(u & d & m & -> & -> & -> & Hok & [[_ ->]|(_ & _ & ->)])];
      [done..|].
    assert (JS.truthy u = true ∧ JS.truthy d = true) as [Hu Hd].
    { split; apply missing_truthy.
      - destruct (JS.missing (Some u)) eqn:Hm; [|done]. destruct Hok. by left.
      - destruct (JS.missing (Some d)) eqn:Hm; [|done].
        destruct Hok. right. by left. }
    destruct (fanOut_frame u d m (Spec.leaguesOf u (FlatFile.file w)) 0
                (FlatFile.file w) w) as (Hlg1 & Hpl1 & Hms1).
    unfold Cover.nonBlank. rewrite Hlg1, Hpl1, Hms1.
    split_and!; [done..|].
    apply Forall_forall. intros s [Hold|(l & _ & Hk)]%fanOut_elem.
    + apply list_elem_of_fmap in Hold as (s0 & Hk & Hs0).
      eapply Forall_forall in Hsc; [|done].
      unfold Spec.scoreKey in Hk. by injection Hk as -> _ ->.
    + unfold Spec.scoreKey in Hk. by injection Hk as -> _ ->.
  - done.
  - done.
  - destruct (updatePlayer_file uuid dn w)
      as [[_ ->]|(d & _ & Hd & _ & -> & _)]; [done|].
    destruct (upsertPlayerOnUpdate_frame uuid d (FlatFile.file w) w)
      as (Hlg1 & Hms1 & Hsc1).
    unfold Cover.nonBlank.
    rewrite Hlg1, Hms1, Hsc1, upsertPlayerOnUpdate_players.
    split_and!; [done| |done..].
    destruct (JS.get (FlatFile.inheritedKeys (FlatFile.prototype w))
                  (FlatFile.players (FlatFile.file w)) uuid)
      as [[p|k]|]; [|done|]; by apply map_Forall_insert_2.
Qed.

Lemma reachable_nonBlank w :
  FlatFile.reachable w → Cover.nonBlank (FlatFile.file w).
Proof.
  induction 1 as [|r w Hw IH]; [|by apply serve_nonBlank].
  split_and!; simpl; [apply map_Forall_empty..|constructor|constructor].
Qed.

(** The stored records are never blank: from the empty file, whatever
    requests are served, every league is stored under its own id with a
    non-empty name, every player has a non-empty display name, and no
    membership or score has an empty player identifier or date. *)
Theorem flatfile_nothing_blank (w : FlatFile.World) :
  FlatFile.reachable w →
  (∀ id l, FlatFile.leagues (FlatFile.file w) !! id = Some l →
     FlatFile.League.id l = id ∧ FlatFile.League.name l ≠ EmptyString)
  ∧ (∀ uuid p, FlatFile.players (FlatFile.file w) !! uuid = Some p →
       FlatFile.Player.uuid p = uuid
       ∧ FlatFile.Player.displayName p ≠ EmptyString
       ∧ FlatFile.Player.createdAt p ≠ EmptyString)
  ∧ (∀ m, m ∈ FlatFile.memberships (FlatFile.file w) →
       FlatFile.Membership.playerUuid m ≠ EmptyString)
  ∧ (∀ s, s ∈ FlatFile.scores (FlatFile.file w) →
       FlatFile.Score.playerUuid s ≠ EmptyString
       ∧ FlatFile.Score.date s ≠ EmptyString).
Proof.
  intros Hw.
  destruct (reachable_nonBlank w Hw) as (Hlg & Hpl & Hms & Hsc).
  destruct (reachable_wellFormed w Hw) as (_ & _ & _ & Hp).
  assert (∀ s, JS.truthy s = true → s ≠ EmptyString) as Ht
    by (by intros [|??]).
  split_and!.
  - intros id l Hl. apply Hlg in Hl as [? ?]. auto.
  - intros uuid p Hl. pose proof (Hpl _ _ Hl). apply Hp in Hl as [? ?]. auto.
  - intros m Hm. eapply Forall_forall in Hms; [|done]. auto.
  - intros s Hs. eapply Forall_forall in Hsc; [|done]. destruct Hsc. auto.
Qed.


End FlatFileNonBlank.

Lemma flatfile_nothing_blank_witness :
  (∀ id l, FlatFile.leagues (FlatFile.file Sample.world2) !! id = Some l →
     FlatFile.League.id l = id ∧ FlatFile.League.name l ≠ EmptyString)
  ∧ (∀ uuid p, FlatFile.players (FlatFile.file Sample.world2) !! uuid = Some p →
       FlatFile.Player.uuid p = uuid
       ∧ FlatFile.Player.displayName p ≠ EmptyString
       ∧ FlatFile.Player.createdAt p ≠ EmptyString)
  ∧ (∀ m, m ∈ FlatFile.memberships (FlatFile.file Sample.world2) →
       FlatFile.Membership.playerUuid m ≠ EmptyString)
  ∧ (∀ s, s ∈ FlatFile.scores (FlatFile.file Sample.world2) →
       FlatFile.Score.playerUuid s ≠ EmptyString
       ∧ FlatFile.Score.date s ≠ EmptyString).
Proof.
  exact (flatfile_nothing_blank (E := Sample.env) Sample.world2
           sample_world2_reachable).
Defined.



(** ** Counting members and players *)

Lemma NoDup_fmap_elem_inj {A K} `{EqDecision K} (f : A → K) (l : list A) x y :
  NoDup (f <$> l) → x ∈ l → y ∈ l → f x = f y → x = y.
Proof.
  intros Hnd [i Hi]%list_elem_of_lookup_1 Hy Heq.
  pose proof (filter_key_unique f l i x Hnd Hi) as Hf.
  assert (y ∈ [x]) as Hin.
  { rewrite <- Hf. by apply list_elem_of_filter. }
  by apply list_elem_of_singleton in Hin.
Qed.


Section FlatFileSummary.
Context `{E : Env}.


End FlatFileSummary.


(** ** Who is on the leaderboard *)

Section LeaderboardMembers.
Context `{E : Env} {Store League : Type} `{C : Service.Client Store League}.

Lemma ranked_uuids (members : list Board.Entry) :
  (λ r, Board.uuid (Board.member r))
    <$> Service.assignRanks (Board.sortMembers members)
  ≡ₚ Board.uuid <$> members.
Proof.
  rewrite (list_fmap_compose Board.member Board.uuid).
  unfold Service.assignRanks. rewrite rankFrom_member.
  unfold Board.sortMembers. by rewrite sort_Permutation.
Qed.

Lemma flatfile_lists_members id date (w w' : FlatFile.World) body :
  FlatFile.computeLeaderboard id date w = (JS.Json body, w') →
  (λ r, Board.uuid (Board.member r)) <$> Board.leaderboard body
  ≡ₚ FlatFile.Membership.playerUuid
       <$> filter (λ m, FlatFile.Membership.leagueId m = id)
                  (FlatFile.memberships (FlatFile.file w)).
Proof.
  intros (league & _ & ->)%flatfile_leaderboard_answered. simpl.
  rewrite assignRanks_agree, ranked_uuids.
  unfold FlatFile.joinMembers. rewrite <- list_fmap_compose.
  erewrite list_fmap_ext; [by rewrite list_fmap_id|done].
Qed.

Lemma service_lists_members id date (w w' : Service.World Store) body :
  Service.computeLeaderboard id date w = (JS.Json body, w') →
  (λ r, Board.uuid (Board.member r)) <$> Board.leaderboard body
  ≡ₚ Service.MemberRow.player_uuid
       <$> default [] (Service.selectMembers id (Service.store w)).
Proof.
  intros Hrun.
  destruct (Service.selectLeague id (Service.store w)) as [league|] eqn:Hl.
  - rewrite (service_leaderboard_found id date w league Hl) in Hrun.
    injection Hrun as <- _. simpl. unfold Service.rankedMembers.
    rewrite ranked_uuids.
    unfold Service.joinMembers. by rewrite <- list_fmap_compose.
  - exfalso. revert Hrun. unfold Service.computeLeaderboard.
    pose proof (service_resolveDate_store date w) as Hst.
    destruct (Service.resolveDate date w) as [d w1]. simpl in Hst.
    by rewrite Hst, Hl.
Qed.

(** The leaderboard has one entry per membership row of the league, in
    both variants: its player identifiers are those of the members, up to
    order; a league without members has an empty leaderboard. *)
Theorem leaderboard_lists_members (id : string) (date : option string) :
  (∀ (w w' : FlatFile.World) body,
     FlatFile.computeLeaderboard id date w = (JS.Json body, w') →
     (λ r, Board.uuid (Board.member r)) <$> Board.leaderboard body
     ≡ₚ FlatFile.Membership.playerUuid
          <$> filter (λ m, FlatFile.Membership.leagueId m = id)
                     (FlatFile.memberships (FlatFile.file w)))
  ∧ (∀ (w w' : Service.World Store) body,
       Service.computeLeaderboard id date w = (JS.Json body, w') →
       (λ r, Board.uuid (Board.member r)) <$> Board.leaderboard body
       ≡ₚ Service.MemberRow.player_uuid
            <$> default [] (Service.selectMembers id (Service.store w))).
Proof.
  split.
  - intros w w' body. apply flatfile_lists_members.
  - intros w w' body. apply service_lists_members.
Qed.

End LeaderboardMembers.

Lemma leaderboard_lists_members_witness :
  ∃ body w',
    Service.computeLeaderboard (E := Sample.env)
      (C := Sample.client Sample.healthy) "abcd1234" None Sample.service0
    = (JS.Json body, w')
    ∧ (λ r, Board.uuid (Board.member r)) <$> Board.leaderboard body
      ≡ₚ ["u-alice"; "u-ghost"; "u-bob"; "u-carol"].
Proof.
  eexists _, _. split; [vm_compute; reflexivity|].
  eapply (proj2 (leaderboard_lists_members (E := Sample.env)
                   (C := Sample.client Sample.healthy) "abcd1234" None)
            Sample.service0).
  vm_compute. reflexivity.
Defined.

Lemma ranked_member_elem (members : list Board.Entry) r :
  r ∈ Service.assignRanks members → Board.member r ∈ members.
Proof.
  intros Hr. unfold Service.assignRanks in Hr.
  rewrite <- (rankFrom_member members 0%Z None 0%Z).
  by apply list_elem_of_fmap_2.
Qed.

Section LeaderboardNames.
Context `{E : Env}.

(** In the states the flat-file server reaches, nobody is listed twice on
    a leaderboard and no entry has an empty name; every entry carries the
    stored display name of its player, except the entry of a member whose
    identifier is [__proto__]: no record is stored for it, and it carries
    the display name written on [Object.prototype], if any, and the
    fallback name otherwise. *)
Theorem flatfile_leaderboard_names (id : string) (date : option string)
    (w w' : FlatFile.World) body :
  FlatFile.reachable w →
  FlatFile.computeLeaderboard id date w = (JS.Json body, w') →
  NoDup ((λ r, Board.uuid (Board.member r)) <$> Board.leaderboard body)
  ∧ ∀ r, r ∈ Board.leaderboard body →
      Board.display_name (Board.member r) ≠ EmptyString
      ∧ (Board.uuid (Board.member r) ≠ "__proto__" →
         ∃ p, FlatFile.players (FlatFile.file w) !! Board.uuid (Board.member r)
              = Some p
              ∧ Board.display_name (Board.member r)
                = FlatFile.Player.displayName p)
      ∧ (Board.uuid (Board.member r) = "__proto__" →
         FlatFile.players (FlatFile.file w) !! "__proto__" = None
         ∧ Board.display_name (Board.member r)
           = match FlatFile.prototype w !! "__proto__" with
             | Some s => JS.or_else s "Unknown"
             | None => "Unknown"
             end).
Proof.
  intros Hw Hrun. split.
  - rewrite (flatfile_lists_members id date w w' body Hrun).
    destruct (reachable_wellFormed w Hw) as (Hm & _).
    apply NoDup_fmap_2_strong.
    + intros x y [Hxl Hx]%list_elem_of_filter [Hyl Hy]%list_elem_of_filter Hu.
      apply (NoDup_fmap_elem_inj Spec.membershipKey
               (FlatFile.memberships (FlatFile.file w))); [done..|].
      unfold Spec.membershipKey. by rewrite Hu, Hxl, Hyl.
    + apply NoDup_filter. by eapply NoDup_fmap_1.
  - apply flatfile_leaderboard_answered in Hrun as (league & _ & ->). simpl.
    intros r Hr.
    rewrite assignRanks_agree in Hr. apply ranked_member_elem in Hr.
    unfold Board.sortMembers in Hr. rewrite sort_elem_of in Hr.
    unfold FlatFile.joinMembers in Hr.
    apply list_elem_of_fmap in Hr as (u & -> & Hu). simpl.
    apply list_elem_of_fmap in Hu as (m & -> & [_ Hm]%list_elem_of_filter).
    pose proof (reachable_linked w Hw) as Hlink.
    eapply Forall_forall in Hlink; [|done]. destruct Hlink as [_ Hstored].
    destruct (reachable_nonBlank w Hw) as (_ & Hpl & _).
    destruct (reachable_plain w Hw) as [_ Hplain].
    unfold FlatFile.displayNameOf.
    destruct (FlatFile.players (FlatFile.file w)
                !! FlatFile.Membership.playerUuid m) as [p|] eqn:Hp.
    + rewrite (get_own _ _ _ _ Hp).
      pose proof (Hpl _ _ Hp) as Ht. simpl in Ht.
      unfold JS.or_else. rewrite Ht. split_and!.
      * by destruct (FlatFile.Player.displayName p).
      * intros _. by exists p.
      * intros Heq. rewrite Heq in Hp. congruence.
    + destruct Hstored as [[p' ?]|Heq]; [congruence|]. rewrite Heq in *.
      assert (JS.get (FlatFile.inheritedKeys (FlatFile.prototype w))
                     (FlatFile.players (FlatFile.file w)) "__proto__"
              = Some (JS.Inherited "__proto__")) as ->.
      { apply get_Inherited. split_and!; [done| |done].
        apply proto_inherited. }
      unfold FlatFile.inheritedDisplayName.
      rewrite bool_decide_eq_true_2 by apply proto_is_prototypeKey.
      destruct (FlatFile.prototype w !! "__proto__") as [s|] eqn:Hs;
        rewrite ?Hs; (split_and!; [|done|done]).
      * unfold JS.or_else. by destruct s.
      * done.
Qed.

End LeaderboardNames.

Lemma sample_protoRenamed_reachable :
  FlatFile.reachable (E := Sample.env) Cover.protoRenamed.
Proof. do 3 apply FlatFile.reachable_serve. apply FlatFile.reachable_init. Qed.

Lemma flatfile_leaderboard_names_witness :
  ∃ body w',
    FlatFile.computeLeaderboard (E := Sample.env) "abcd1234" None
      Cover.protoRenamed
    = (JS.Json body, w')
    ∧ NoDup ((λ r, Board.uuid (Board.member r)) <$> Board.leaderboard body)
    ∧ ∀ r, r ∈ Board.leaderboard body →
        Board.display_name (Board.member r) ≠ EmptyString
        ∧ (Board.uuid (Board.member r) ≠ "__proto__" →
           ∃ p, FlatFile.players (FlatFile.file Cover.protoRenamed)
                  !! Board.uuid (Board.member r) = Some p
                ∧ Board.display_name (Board.member r)
                  = FlatFile.Player.displayName p)
        ∧ (Board.uuid (Board.member r) = "__proto__" →
           FlatFile.players (FlatFile.file Cover.protoRenamed) !! "__proto__"
           = None
           ∧ Board.display_name (Board.member r)
             = match FlatFile.prototype Cover.protoRenamed !! "__proto__" with
               | Some s => JS.or_else s "Unknown"
               | None => "Unknown"
               end).
Proof.
  eexists _, _. split; [vm_compute; reflexivity|].
  eapply (flatfile_leaderboard_names (E := Sample.env) "abcd1234" None
            Cover.protoRenamed).
  - apply sample_protoRenamed_reachable.
  - vm_compute. reflexivity.
Defined.

(** ** What the player upserts leave *)

Section PlayerUpsert.
Context `{E : Env}.

(** From any state the flat-file server reaches, a successful join and a
    successful display-name update leave, under the player's key, the
    existing record with only [displayName] replaced by the trimmed name
    ([uuid] and [createdAt] as they were), or, when there was no record, a
    new one created at the time of the call, and the records of the other
    players are not touched; except that a join under the identifier
    [__proto__] stores no record, and that a display-name update of an
    absent player whose identifier names a property of [Object.prototype]
    leaves the file as it was and writes the name on the builtin object
    found there (on nothing, when what is found is the string written
    there earlier). *)
Theorem flatfile_player_upsert (w : FlatFile.World)
    (uuid displayName : string) :
  FlatFile.reachable w →
  let expected :=
    match FlatFile.players (FlatFile.file w) !! uuid with
    | Some p =>
        FlatFile.Player.mk (FlatFile.Player.uuid p) (JS.trim displayName)
                           (FlatFile.Player.createdAt p)
    | None =>
        FlatFile.Player.mk uuid (JS.trim displayName)
                           (JS.toISOString (clock (FlatFile.ticks w)))
    end in
  (∀ id league w',
     FlatFile.joinLeague id (Some uuid) (JS.Str displayName) w
     = (JS.Json league, w') →
     FlatFile.players (FlatFile.file w') !! uuid
     = (if decide (uuid = "__proto__") then None else Some expected)
     ∧ FlatFile.prototype w' = FlatFile.prototype w
     ∧ ∀ other, other ≠ uuid →
         FlatFile.players (FlatFile.file w') !! other
         = FlatFile.players (FlatFile.file w) !! other)
  ∧ (∀ w',
       FlatFile.updatePlayer uuid (JS.Str displayName) w = (JS.Json (), w') →
       (if decide (uuid ∈ FlatFile.inheritedKeys (FlatFile.prototype w)
                   ∧ FlatFile.players (FlatFile.file w) !! uuid = None)
        then FlatFile.file w' = FlatFile.file w
             ∧ FlatFile.prototype w'
               = (if decide (uuid ∈ JS.prototypeKeys)
                  then <[uuid := JS.trim displayName]> (FlatFile.prototype w)
                  else FlatFile.prototype w)
        else FlatFile.players (FlatFile.file w') !! uuid = Some expected
             ∧ FlatFile.prototype w' = FlatFile.prototype w)
       ∧ ∀ other, other ≠ uuid →
           FlatFile.players (FlatFile.file w') !! other
           = FlatFile.players (FlatFile.file w) !! other).
Proof.
  intros Hw expected.
  destruct (reachable_wellFormed w Hw) as (_ & _ & _ & Hp).
  destruct (reachable_plain w Hw) as [_ Hplain].
  split.
  - intros id league w' Hrun.
    destruct (joinLeague_file id (Some uuid) (JS.Str displayName) w)
      as [[Hst _]|(u & d & lg & [= <-] & _ & [= <-] & _ & _ & _ & Hfile & Hproto)].
    { by rewrite Hrun in Hst. }
    rewrite Hrun in Hfile, Hproto. simpl in Hfile, Hproto. rewrite Hfile.
    destruct (addMembership_frame uuid id
                (FlatFile.upsertPlayerOnJoin uuid displayName (FlatFile.file w) w).1
                (FlatFile.upsertPlayerOnJoin uuid displayName (FlatFile.file w) w).2)
      as (_ & -> & _).
    rewrite upsertPlayerOnJoin_players. split_and!; [|done|].
    + destruct (decide (uuid = "__proto__")) as [->|Hne].
      * unfold JS.assign. rewrite Hplain.
        by rewrite bool_decide_eq_true_2.
      * rewrite assign_ordinary, lookup_insert_eq by done. f_equal.
        unfold expected.
        destruct (FlatFile.players (FlatFile.file w) !! uuid) as [p|] eqn:Hl;
          [|done].
        apply Hp in Hl as [-> Ht]. unfold JS.or_else. by rewrite Ht.
    + intros other Hne. by apply assign_lookup_ne.
  - intros w' Hrun.
    destruct (updatePlayer_file uuid (JS.Str displayName) w)
      as [[Hst _]|(d & [= <-] & _ & _ & Hfile & Hproto)].
    { by rewrite Hrun in Hst. }
    rewrite Hrun in Hfile, Hproto. simpl in Hfile, Hproto.
    rewrite Hfile, Hproto.
    pose proof (upsertPlayerOnUpdate_players uuid displayName (FlatFile.file w) w)
      as Hplayers.
    unfold FlatFile.upsertPlayerOnUpdate in *.
    destruct (JS.get (FlatFile.inheritedKeys (FlatFile.prototype w))
                (FlatFile.players (FlatFile.file w)) uuid)
      as [[p|k]|] eqn:Hg.
    + apply get_Own in Hg. simpl.
      rewrite decide_False by (intros [_ Hnone]; congruence).
      unfold expected. rewrite Hg, lookup_insert_eq. split; [done|].
      intros other Hne. by rewrite lookup_insert_ne.
    + apply get_Inherited in Hg as (Hnone & Hk & ->).
      rewrite decide_True by done.
      destruct (decide (uuid ∈ JS.prototypeKeys)) as [Hb|Hb].
      * by rewrite bool_decide_eq_true_2.
      * by rewrite bool_decide_eq_false_2.
    + apply get_None in Hg as [Hnone Hk].
      rewrite decide_False by (by intros [? _]).
      rewrite Hplayers. unfold expected.
      rewrite Hnone, lookup_insert_eq. split; [done|].
      intros other Hne. by rewrite lookup_insert_ne.
Qed.

End PlayerUpsert.

Lemma flatfile_player_upsert_witness :
  let renamed :=
    FlatFile.Player.mk "u-bob" "Robert" "2024-01-06T09:30:00.000Z" in
  FlatFile.players
    (FlatFile.file
       (FlatFile.joinLeague (E := Sample.env) "abcd1234" (Some "u-bob")
          (JS.Str "Robert ") Sample.world1).2) !! "u-bob"
  = Some renamed
  ∧ FlatFile.players
      (FlatFile.file
         (FlatFile.updatePlayer (E := Sample.env) "u-bob" (JS.Str "Robert ")
            Sample.world1).2) !! "u-bob"
    = Some renamed.
Proof.
  destruct (flatfile_player_upsert (E := Sample.env)
              Sample.world1 "u-bob" "Robert " sample_world1_reachable)
    as [HJ HU].
  split.
  - refine (proj1 (HJ "abcd1234" _ _ _)). vm_compute. reflexivity.
  - refine (proj1 (proj1 (HU _ _))). vm_compute. reflexivity.
Defined.

(** ** Bounds on ranks *)

Lemma dense_rank_bounds (board : list Board.Ranked) r x :
  Spec.denseRanked board → r ∈ board → Board.rank r = Some x →
  (1 <= x <= Z.of_nat (length (Spec.playedRows board)))%Z
  ∧ Board.played (Board.member r).
Proof.
  intros (Hnone & _ & Hchar & _) Hr Hx.
  assert (Board.played (Board.member r)) as Hp.
  { unfold Board.played. intros Hm. rewrite (Hnone r Hr Hm) in Hx. done. }
  split; [|done].
  assert (r ∈ Spec.playedRows board) as [i Hi]%list_elem_of_lookup_1
    by (by apply list_elem_of_filter).
  destruct (Hchar i r Hi) as (k & Hk & Hrk).
  unfold Spec.firstOfGroup in Hk.
  apply findIndex_Some in Hk as (y & Hy%lookup_lt_Some & _).
  rewrite Hx in Hrk. injection Hrk as ->. lia.
Qed.

Section RankBounds.
Context `{E : Env} {Store League : Type} `{C : Service.Client Store League}.

(** On a leaderboard of either variant a rank is at least 1 and at most
    the number of entries with a score, which is at most the number of
    entries; only entries with a score have one. *)
Theorem leaderboard_rank_bounds (id : string) (date : option string) r x :
  (∀ (w w' : FlatFile.World) body,
     FlatFile.computeLeaderboard id date w = (JS.Json body, w') →
     r ∈ Board.leaderboard body → Board.rank r = Some x →
     (1 <= x <= Z.of_nat (length (Spec.playedRows (Board.leaderboard body))))%Z
     ∧ length (Spec.playedRows (Board.leaderboard body))
       ≤ length (Board.leaderboard body)
     ∧ Board.played (Board.member r))
  ∧ (∀ (w w' : Service.World Store) body,
       Service.computeLeaderboard id date w = (JS.Json body, w') →
       r ∈ Board.leaderboard body → Board.rank r = Some x →
       (1 <= x <= Z.of_nat (length (Spec.playedRows (Board.leaderboard body))))%Z
       ∧ length (Spec.playedRows (Board.leaderboard body))
         ≤ length (Board.leaderboard body)
       ∧ Board.played (Board.member r)).
Proof.
  split.
  - intros w w' body Hd%flatfile_leaderboard_dense Hr Hx.
    destruct (dense_rank_bounds _ r x Hd Hr Hx).
    split; [done|]. split; [|done]. apply length_filter.
  - intros w w' body (ms & sc & Hb)%service_leaderboard_body Hr Hx.
    assert (Spec.denseRanked (Board.leaderboard body)) as Hd
      by (rewrite Hb; apply ranked_dense).
    destruct (dense_rank_bounds _ r x Hd Hr Hx).
    split; [done|]. split; [|done]. apply length_filter.
Qed.

End RankBounds.

Lemma leaderboard_rank_bounds_witness :
  let bob := Board.mkRanked
               (Board.mkEntry "u-bob" "Bob" (Some 2%Z) (Some "2024-01-05"))
               (Some 1%Z) in
  ∃ body w',
    Service.computeLeaderboard (E := Sample.env)
      (C := Sample.client Sample.healthy) "abcd1234" None Sample.service0
    = (JS.Json body, w')
    ∧ (1 <= 1 <= Z.of_nat (length (Spec.playedRows (Board.leaderboard body))))%Z
    ∧ length (Spec.playedRows (Board.leaderboard body))
      ≤ length (Board.leaderboard body)
    ∧ Board.played (Board.member bob).
Proof.
  intros bob. eexists _, _. split; [vm_compute; reflexivity|].
  eapply (proj2 (leaderboard_rank_bounds (E := Sample.env)
                   (C := Sample.client Sample.healthy) "abcd1234" None bob 1%Z)
            Sample.service0).
  - vm_compute. reflexivity.
  - vm_compute. left.
  - reflexivity.
Defined.

(** ** What a request changes *)

Section FlatFileFrames.
Context `{E : Env}.

Lemma upsertScore_keys_prefix uuid leagueId date mistakes db w :
  Spec.scoreKey <$> FlatFile.scores db
  `prefix_of` Spec.scoreKey
                <$> FlatFile.scores
                      (FlatFile.upsertScore uuid leagueId date mistakes db w).1.
Proof.
  rewrite upsertScore_keys. case_decide; [done|]. by apply prefix_app_r.
Qed.

Lemma fanOut_keys_prefix uuid date mistakes playerLeagues : ∀ recorded db w,
  Spec.scoreKey <$> FlatFile.scores db
  `prefix_of` Spec.scoreKey
                <$> FlatFile.scores
                      (FlatFile.fanOut uuid date mistakes playerLeagues
                                       recorded db w).1.2.
Proof.
  induction playerLeagues as [|l ls IH]; intros r db w; [done|].
  rewrite fanOut_cons. etrans; [apply upsertScore_keys_prefix|apply IH].
Qed.

Lemma addMembership_prefix uuid id db w :
  FlatFile.memberships db
  `prefix_of` FlatFile.memberships (FlatFile.addMembership uuid id db w).1.
Proof.
  rewrite addMembership_memberships.
  destruct (JS.find _ _); [done|]. by apply prefix_app_r.
Qed.

(** The file of each route, collection by collection. *)
Lemma serve_frames r w :
  (match r with
   | FlatFile.CreateLeague _ =>
       ∀ k, is_Some (FlatFile.leagues (FlatFile.file w) !! k) →
            is_Some (FlatFile.leagues (FlatFile.file (FlatFile.serve r w)) !! k)
   | _ => FlatFile.leagues (FlatFile.file (FlatFile.serve r w))
          = FlatFile.leagues (FlatFile.file w)
   end)
  ∧ (match r with
     | FlatFile.JoinLeague _ _ _ | FlatFile.UpdatePlayer _ _ =>
         ∀ k, is_Some (FlatFile.players (FlatFile.file w) !! k) →
              is_Some (FlatFile.players (FlatFile.file (FlatFile.serve r w)) !! k)
     | _ => FlatFile.players (FlatFile.file (FlatFile.serve r w))
            = FlatFile.players (FlatFile.file w)
     end)
  ∧ (match r with
     | FlatFile.JoinLeague _ _ _ =>
         FlatFile.memberships (FlatFile.file w)
         `prefix_of` FlatFile.memberships (FlatFile.file (FlatFile.serve r w))
     | _ => FlatFile.memberships (FlatFile.file (FlatFile.serve r w))
            = FlatFile.memberships (FlatFile.file w)
     end)
  ∧ (match r with
     | FlatFile.SubmitScore _ _ _ =>
         Spec.scoreKey <$> FlatFile.scores (FlatFile.file w)
         `prefix_of` Spec.scoreKey
                       <$> FlatFile.scores (FlatFile.file (FlatFile.serve r w))
     | _ => FlatFile.scores (FlatFile.file (FlatFile.serve r w))
            = FlatFile.scores (FlatFile.file w)
     end).
Proof.
  destruct r as [name|id|id uuid dn|id date|uuid date ms|uuid|id uuid|uuid dn];
    simpl.
  - destruct (createLeague_file name w) as [(_ & -> & _)|(n & _ & _ & ->)];
      [done|].
    simpl. split_and!; [|done..]. intros k Hk.
    apply lookup_insert_is_Some'. by right.
  - by rewrite getLeague_world.
  - destruct (joinLeague_file id uuid dn w)
      as [[_ ->]|(u & d & league & _ & _ & _ & _ & _ & _ & -> & _)]; [done|].
    destruct (addMembership_frame u id
                (FlatFile.upsertPlayerOnJoin u d (FlatFile.file w) w).1
                (FlatFile.upsertPlayerOnJoin u d (FlatFile.file w) w).2)
      as (-> & -> & -> & _).
    pose proof (addMembership_prefix u id
                  (FlatFile.upsertPlayerOnJoin u d (FlatFile.file w) w).1
                  (FlatFile.upsertPlayerOnJoin u d (FlatFile.file w) w).2)
      as Hpre.
    destruct (upsertPlayerOnJoin_frame u d (FlatFile.file w) w)
      as (Hlg & Hms & Hsc).
    rewrite Hms in Hpre. rewrite Hlg, Hsc, upsertPlayerOnJoin_players.
    split_and!; [done| |done..]. intros k Hk. by apply assign_is_Some.
  - by rewrite (proj1 (computeLeaderboard_world id date w)).
  - destruct (submitScore_file uuid date ms w)
      as [[_ ->]|(u & d & m & _ & _ & _ & _ & [[_ ->]|(_ & _ & ->)])];
      [done..|].
    destruct (fanOut_frame u d m (Spec.leaguesOf u (FlatFile.file w)) 0
                (FlatFile.file w) w) as (-> & -> & ->).
    split_and!; [done..|]. apply fanOut_keys_prefix.
  - done.
  - done.
  - destruct (updatePlayer_file uuid dn w)
      as [[_ ->]|(d & _ & _ & _ & -> & _)]; [done|].
    destruct (upsertPlayerOnUpdate_frame uuid d (FlatFile.file w) w)
      as (-> & -> & ->).
    rewrite upsertPlayerOnUpdate_players.
    split_and!; [done| |done..]. intros k Hk.
    destruct (JS.get _ _ uuid) as [[p|k']|]; [|done|];
      apply lookup_insert_is_Some'; by right.
Qed.

(** Only the display-name route writes on the objects of the prototype
    chain, and only for a player without a record whose identifier names
    a property of [Object.prototype]: the request is answered with
    success, the file stays as it was, and the trimmed name is written
    under that identifier.  Every other request leaves what was written
    there as it was. *)
Theorem flatfile_prototype_writes (r : FlatFile.request) (w : FlatFile.World) :
  FlatFile.prototype (FlatFile.serve r w) = FlatFile.prototype w
  ∨ ∃ uuid displayName d,
      r = FlatFile.UpdatePlayer uuid displayName
      ∧ uuid ∈ JS.prototypeKeys
      ∧ FlatFile.players (FlatFile.file w) !! uuid = None
      ∧ FlatFile.bodyDisplayName displayName w = JS.Str d
      ∧ JS.truthy (JS.trim d) = true
      ∧ Cover.answered r w = 200
      ∧ FlatFile.file (FlatFile.serve r w) = FlatFile.file w
      ∧ FlatFile.prototype (FlatFile.serve r w)
        = <[uuid := JS.trim d]> (FlatFile.prototype w).
Proof.
  destruct r as [name|id|id uuid dn|id date|uuid date ms|uuid|id uuid|uuid dn];
    try (left; apply serve_prototype; intros ? ?; discriminate).
  unfold Cover.answered, FlatFile.serve.
  destruct (updatePlayer_file uuid dn w)
    as [[_ ->]|(d & Hd & Ht & -> & Hfile & Hproto)]; [by left|].
  rewrite Hfile, Hproto. unfold FlatFile.upsertPlayerOnUpdate.
  destruct (JS.get (FlatFile.inheritedKeys (FlatFile.prototype w))
              (FlatFile.players (FlatFile.file w)) uuid)
    as [[p|k]|] eqn:Hg; [by left| |by left].
  apply get_Inherited in Hg as (Hnone & _ & ->).
  destruct (bool_decide (uuid ∈ JS.prototypeKeys)) eqn:Hk; [|by left].
  apply bool_decide_eq_true_1 in Hk.
  right. by exists uuid, dn, d.
Qed.

(** Nothing is ever removed from the flat file: whatever the request, the
    stored leagues and players stay stored, the memberships stay in place
    at the head of the list, and so do the keys of the scores. *)
Theorem flatfile_nothing_removed (r : FlatFile.request) (w : FlatFile.World) :
  (∀ k, is_Some (FlatFile.leagues (FlatFile.file w) !! k) →
        is_Some (FlatFile.leagues (FlatFile.file (FlatFile.serve r w)) !! k))
  ∧ (∀ k, is_Some (FlatFile.players (FlatFile.file w) !! k) →
          is_Some (FlatFile.players (FlatFile.file (FlatFile.serve r w)) !! k))
  ∧ FlatFile.memberships (FlatFile.file w)
    `prefix_of` FlatFile.memberships (FlatFile.file (FlatFile.serve r w))
  ∧ Spec.scoreKey <$> FlatFile.scores (FlatFile.file w)
    `prefix_of` Spec.scoreKey
                  <$> FlatFile.scores (FlatFile.file (FlatFile.serve r w)).
Proof.
  destruct (serve_frames r w) as (Hl & Hp & Hm & Hs).
  destruct r; split_and!;
    try done; try (by rewrite Hl); try (by rewrite Hp); try (by rewrite Hm);
    by rewrite Hs.
Qed.

(** Each route writes its own collection only: leagues change only when a
    league is created, players only on a join or a display-name update,
    memberships only on a join, scores only on a submission; the four
    reading routes leave the file as it is. *)
Theorem flatfile_routes_write_their_own (r : FlatFile.request)
    (w : FlatFile.World) :
  ((∀ name, r ≠ FlatFile.CreateLeague name) →
   FlatFile.leagues (FlatFile.file (FlatFile.serve r w))
   = FlatFile.leagues (FlatFile.file w))
  ∧ ((∀ id uuid dn, r ≠ FlatFile.JoinLeague id uuid dn) →
     (∀ uuid dn, r ≠ FlatFile.UpdatePlayer uuid dn) →
     FlatFile.players (FlatFile.file (FlatFile.serve r w))
     = FlatFile.players (FlatFile.file w))
  ∧ ((∀ id uuid dn, r ≠ FlatFile.JoinLeague id uuid dn) →
     FlatFile.memberships (FlatFile.file (FlatFile.serve r w))
     = FlatFile.memberships (FlatFile.file w))
  ∧ ((∀ uuid date ms, r ≠ FlatFile.SubmitScore uuid date ms) →
     FlatFile.scores (FlatFile.file (FlatFile.serve r w))
     = FlatFile.scores (FlatFile.file w))
  ∧ (Cover.readOnly r = true →
     FlatFile.file (FlatFile.serve r w) = FlatFile.file w).
Proof.
  destruct (serve_frames r w) as (Hl & Hp & Hm & Hs).
  split_and!.
  - intros Hne. destruct r; try done. by destruct (Hne name).
  - intros Hj Hu. destruct r; try done.
    + by destruct (Hj id uuid displayName).
    + by destruct (Hu uuid displayName).
  - intros Hne. destruct r; try done. by destruct (Hne id uuid displayName).
  - intros Hne. destruct r; try done. by destruct (Hne uuid date mistakes).
  - intros Hro.
    destruct (FlatFile.file (FlatFile.serve r w)) as [l1 p1 m1 s1] eqn:H1.
    destruct (FlatFile.file w) as [l0 p0 m0 s0] eqn:H0.
    simpl in *. destruct r; try done; simpl in *; congruence.
Qed.

End FlatFileFrames.

Lemma flatfile_routes_write_their_own_witness :
  FlatFile.file
    (FlatFile.serve (E := Sample.env)
       (FlatFile.Leaderboard "abcd1234" None) Sample.world2)
  = FlatFile.file Sample.world2
  ∧ FlatFile.memberships
      (FlatFile.file
         (FlatFile.serve (E := Sample.env)
            (FlatFile.SubmitScore (Some "u-bob") (Some "2024-01-06")
                                  (Some (Some 0%Z))) Sample.world2))
    = FlatFile.memberships (FlatFile.file Sample.world2).
Proof.
  split.
  - apply (flatfile_routes_write_their_own (E := Sample.env)
             (FlatFile.Leaderboard "abcd1234" None) Sample.world2).
    reflexivity.
  - apply (flatfile_routes_write_their_own (E := Sample.env)
             (FlatFile.SubmitScore (Some "u-bob") (Some "2024-01-06")
                                   (Some (Some 0%Z))) Sample.world2).
    intros id uuid dn. discriminate.
Defined.

(** ** Creating and joining leagues *)

Section FlatFileLeagues.
Context `{E : Env}.

Lemma getLeague_answer id w :
  (FlatFile.getLeague id w).1
  = match JS.get (FlatFile.inheritedKeys (FlatFile.prototype w))
              (FlatFile.leagues (FlatFile.file w)) id with
    | Some league =>
        JS.Json (league,
                 length (filter (λ m, FlatFile.Membership.leagueId m = id)
                                (FlatFile.memberships (FlatFile.file w))))
    | None => JS.Error 404 "League not found"
    end.
Proof.
  unfold FlatFile.getLeague, FlatFile.loadDB.
  by destruct (JS.get (FlatFile.inheritedKeys (FlatFile.prototype w))
                   (FlatFile.leagues (FlatFile.file w)) id).
Qed.

Lemma isMember_key id uuid w :
  (FlatFile.isMember id uuid w).1
  = JS.Json (bool_decide ((uuid, id) ∈ Spec.membershipKey
                            <$> FlatFile.memberships (FlatFile.file w))).
Proof.
  unfold FlatFile.isMember, FlatFile.loadDB. simpl. f_equal.
  apply bool_decide_ext. split.
  - intros [m (k & Hk & [Hl Hu] & _)%find_Some]. apply list_elem_of_fmap.
    exists m. split; [|by eapply list_elem_of_lookup_2].
    unfold Spec.membershipKey. by rewrite Hl, Hu.
  - intros (m & Hk & Hm)%list_elem_of_fmap.
    destruct (JS.find _ _) eqn:Hf; [done|]. apply find_None in Hf.
    eapply Forall_forall in Hf; [|done]. destruct Hf.
    unfold Spec.membershipKey in Hk. by injection Hk as -> ->.
Qed.

(** A league that was created is read back: under the drawn id, with the
    trimmed, non-empty name and the time of the call; its member count is
    that of the memberships already filed under the id, none when the id
    is new to a file the server reached; the other leagues read as
    before. *)
Theorem flatfile_create_then_get (name : JS.field) (w w' : FlatFile.World)
    id stored :
  FlatFile.createLeague name w = (JS.Json (id, stored), w') →
  ∃ n,
    name = JS.Str n ∧ stored = JS.trim n ∧ stored ≠ EmptyString
    ∧ id = JS.slice0 8 (uuidv4 (FlatFile.draws w))
    ∧ (FlatFile.getLeague id w').1
      = JS.Json (JS.Own (FlatFile.League.mk id stored
                           (JS.toISOString (clock (FlatFile.ticks w)))),
                 length (filter (λ m, FlatFile.Membership.leagueId m = id)
                                (FlatFile.memberships (FlatFile.file w))))
    ∧ (FlatFile.reachable w →
       FlatFile.leagues (FlatFile.file w) !! id = None →
       filter (λ m, FlatFile.Membership.leagueId m = id)
              (FlatFile.memberships (FlatFile.file w)) = [])
    ∧ ∀ other, other ≠ id →
        (FlatFile.getLeague other w').1 = (FlatFile.getLeague other w).1.
Proof.
  intros Hrun.
  destruct (createLeague_file name w) as [(Herr & _)|(n & -> & Ht & Hok)].
  { by rewrite Hrun in Herr. }
  rewrite Hrun in Hok. injection Hok as -> -> ->.
  exists n. split_and!; [done..| |done| | |].
  - by destruct (JS.trim n).
  - rewrite getLeague_answer. simpl.
    by erewrite get_own by apply lookup_insert_eq.
  - intros Hlink%reachable_linked Hnone.
    apply filter_Forall_nil.
    eapply Forall_impl; [exact Hlink|]. simpl. intros m [Hl _] Heq.
    rewrite Heq, get_ordinary, Hnone in Hl by apply drawn_id_ordinary.
    by destruct Hl.
  - intros other Hne. rewrite !getLeague_answer. simpl.
    by rewrite get_insert_ne.
Qed.

(** After a successful join the player is a member of the league, and
    the member count of the league has grown by one if the player was not
    a member before, and not at all otherwise. *)
Theorem flatfile_join_then_member (id : string) (uuid : option string)
    (displayName : JS.field) (w w' : FlatFile.World) league :
  FlatFile.joinLeague id uuid displayName w = (JS.Json league, w') →
  ∃ u n,
    uuid = Some u
    ∧ (FlatFile.isMember id u w').1 = JS.Json true
    ∧ (FlatFile.getLeague id w).1 = JS.Json (league, n)
    ∧ ((FlatFile.isMember id u w).1 = JS.Json true →
       (FlatFile.getLeague id w').1 = JS.Json (league, n))
    ∧ ((FlatFile.isMember id u w).1 = JS.Json false →
       (FlatFile.getLeague id w').1 = JS.Json (league, S n)).
Proof.
  intros Hrun.
  destruct (joinLeague_file id uuid displayName w)
    as [[Herr _]|(u & d & lg & -> & _ & _ & _ & Hl & Hans & Hfile & Hproto)].
  { by rewrite Hrun in Herr. }
  rewrite Hrun in Hans, Hfile, Hproto. simpl in Hans, Hfile, Hproto.
  injection Hans as ->.
  destruct (addMembership_frame u id
              (FlatFile.upsertPlayerOnJoin u d (FlatFile.file w) w).1
              (FlatFile.upsertPlayerOnJoin u d (FlatFile.file w) w).2)
    as (Hlg & _).
  destruct (upsertPlayerOnJoin_frame u d (FlatFile.file w) w)
    as (Hlg' & Hms' & _).
  exists u, (length (filter (λ m, FlatFile.Membership.leagueId m = id)
                            (FlatFile.memberships (FlatFile.file w)))).
  pose proof (find_membership_key u id
                (FlatFile.memberships (FlatFile.file w))) as Hk.
  split_and!; [done| | | |].
  - rewrite isMember_key, Hfile. f_equal. apply bool_decide_eq_true_2.
    apply addMembership_present.
  - by rewrite getLeague_answer, Hl.
  - rewrite isMember_key. intros [= Hb%bool_decide_eq_true_1].
    rewrite getLeague_answer, Hproto, Hfile, Hlg, Hlg', Hl. do 3 f_equal.
    rewrite addMembership_memberships, Hms'.
    apply Hk in Hb as [m ->]. done.
  - rewrite isMember_key. intros [= Hb%bool_decide_eq_false_1].
    rewrite getLeague_answer, Hproto, Hfile, Hlg, Hlg', Hl. do 2 f_equal.
    rewrite addMembership_memberships, Hms'.
    destruct (JS.find _ _) as [m|] eqn:Hf.
    + destruct Hb. by apply Hk.
    + rewrite filter_app, length_app.
      rewrite (filter_cons_True _ _ []) by done. simpl. lia.
Qed.

End FlatFileLeagues.

Lemma flatfile_create_then_get_witness :
  ∃ n,
    JS.Str "My League " = JS.Str n ∧ "My League" = JS.trim n
    ∧ "My League" ≠ EmptyString
    ∧ "abcd1234" = JS.slice0 8 (uuidv4 (Env := Sample.env) 0)
    ∧ (FlatFile.getLeague "abcd1234"
         (FlatFile.createLeague (E := Sample.env) (JS.Str "My League ")
            FlatFile.init).2).1
      = JS.Json (JS.Own (FlatFile.League.mk "abcd1234" "My League"
                           (JS.toISOString (clock (Env := Sample.env) 0))),
                 0)
    ∧ (FlatFile.reachable (E := Sample.env) FlatFile.init →
       FlatFile.leagues (FlatFile.file FlatFile.init) !! "abcd1234" = None →
       filter (λ m, FlatFile.Membership.leagueId m = "abcd1234")
              (FlatFile.memberships (FlatFile.file FlatFile.init)) = [])
    ∧ ∀ other, other ≠ "abcd1234" →
        (FlatFile.getLeague other
           (FlatFile.createLeague (E := Sample.env) (JS.Str "My League ")
              FlatFile.init).2).1
        = (FlatFile.getLeague other FlatFile.init).1.
Proof.
  apply (flatfile_create_then_get (E := Sample.env) (JS.Str "My League ")
           FlatFile.init).
  vm_compute. reflexivity.
Defined.

Lemma flatfile_join_then_member_witness :
  ∃ u n,
    Some "u-amy" = Some u
    ∧ (FlatFile.isMember "abcd1234" u
         (FlatFile.joinLeague (E := Sample.env) "abcd1234" (Some "u-amy")
            (JS.Str "Amy") Sample.world1).2).1 = JS.Json true
    ∧ (FlatFile.getLeague "abcd1234" Sample.world1).1
      = JS.Json (JS.Own (FlatFile.League.mk "abcd1234" "My League"
                           "2024-01-05T09:30:00.000Z"), n)
    ∧ ((FlatFile.isMember "abcd1234" u Sample.world1).1 = JS.Json true →
       (FlatFile.getLeague "abcd1234"
          (FlatFile.joinLeague (E := Sample.env) "abcd1234" (Some "u-amy")
             (JS.Str "Amy") Sample.world1).2).1
       = JS.Json (JS.Own (FlatFile.League.mk "abcd1234" "My League"
                            "2024-01-05T09:30:00.000Z"), n))
    ∧ ((FlatFile.isMember "abcd1234" u Sample.world1).1 = JS.Json false →
       (FlatFile.getLeague "abcd1234"
          (FlatFile.joinLeague (E := Sample.env) "abcd1234" (Some "u-amy")
             (JS.Str "Amy") Sample.world1).2).1
       = JS.Json (JS.Own (FlatFile.League.mk "abcd1234" "My League"
                            "2024-01-05T09:30:00.000Z"), S n)).
Proof.
  apply (flatfile_join_then_member (E := Sample.env) "abcd1234" (Some "u-amy")
           (JS.Str "Amy") Sample.world1).
  vm_compute. reflexivity.
Defined.

(** ** Submissions and leaderboards *)

Lemma filter_alter_out {A} (P : A → Prop) `{∀ x, Decision (P x)}
    (f : A → A) (l : list A) i :
  (∀ x, l !! i = Some x → ¬ P x ∧ ¬ P (f x)) →
  filter P (alter f i l) = filter P l.
Proof.
  revert i. induction l as [|y l IH]; intros i Hi; [done|].
  destruct i as [|i].
  - destruct (Hi y eq_refl) as [Hy Hfy].
    change (alter f 0 (y :: l)) with (f y :: l).
    by rewrite !filter_cons_False.
  - change (alter f (S i) (y :: l)) with (y :: alter f i l).
    rewrite !filter_cons. rewrite IH; [done|]. intros x Hx. by apply Hi.
Qed.

Section SubmissionsShown.
Context `{E : Env}.

(** The answer of the leaderboard route for a given date. *)
Lemma leaderboard_answer id d w :
  JS.truthy d = true →
  (FlatFile.computeLeaderboard id (Some d) w).1
  = match JS.get (FlatFile.inheritedKeys (FlatFile.prototype w))
              (FlatFile.leagues (FlatFile.file w)) id with
    | Some league =>
        JS.Json (Board.mkBody league d
                   (FlatFile.assignRanks
                      (Board.sortMembers
                         (FlatFile.joinMembers id d (FlatFile.file w)
                                               (FlatFile.prototype w)))))
    | None => JS.Error 404 "League not found"
    end.
Proof.
  intros Hd. unfold FlatFile.computeLeaderboard, FlatFile.resolveDate,
    FlatFile.loadDB. rewrite Hd.
  by destruct (JS.get (FlatFile.inheritedKeys (FlatFile.prototype w))
                   (FlatFile.leagues (FlatFile.file w)) id).
Qed.

Lemma joinMembers_ext id d db db' written :
  FlatFile.players db' = FlatFile.players db →
  FlatFile.memberships db' = FlatFile.memberships db →
  filter (λ s, FlatFile.Score.leagueId s = id ∧ FlatFile.Score.date s = d)
         (FlatFile.scores db')
  = filter (λ s, FlatFile.Score.leagueId s = id ∧ FlatFile.Score.date s = d)
           (FlatFile.scores db) →
  FlatFile.joinMembers id d db' written = FlatFile.joinMembers id d db written.
Proof.
  unfold FlatFile.joinMembers, FlatFile.displayNameOf. by intros -> -> ->.
Qed.

Lemma upsertScore_filter uuid l d mistakes db w id d' :
  l ≠ id ∨ d ≠ d' →
  filter (λ s, FlatFile.Score.leagueId s = id ∧ FlatFile.Score.date s = d')
         (FlatFile.scores (FlatFile.upsertScore uuid l d mistakes db w).1)
  = filter (λ s, FlatFile.Score.leagueId s = id ∧ FlatFile.Score.date s = d')
           (FlatFile.scores db).
Proof.
  intros Hne. rewrite upsertScore_scores.
  destruct (JS.findIndex _ _) as [i|] eqn:Hf.
  - apply findIndex_Some in Hf as (s & Hs & (Hu & Hl & Hd) & _).
    apply filter_alter_out. intros x Hx. rewrite Hs in Hx. injection Hx as <-.
    simpl. rewrite Hl, Hd. split; intros [? ?]; destruct Hne; congruence.
  - rewrite filter_app, filter_cons_False, filter_nil, app_nil_r; [done|].
    simpl. intros [? ?]. destruct Hne; congruence.
Qed.

Lemma fanOut_filter uuid d mistakes id d' playerLeagues : ∀ recorded db w,
  (∀ l, l ∈ playerLeagues → l ≠ id ∨ d ≠ d') →
  filter (λ s, FlatFile.Score.leagueId s = id ∧ FlatFile.Score.date s = d')
         (FlatFile.scores
            (FlatFile.fanOut uuid d mistakes playerLeagues recorded db w).1.2)
  = filter (λ s, FlatFile.Score.leagueId s = id ∧ FlatFile.Score.date s = d')
           (FlatFile.scores db).
Proof.
  induction playerLeagues as [|l ls IH]; intros r db w Hne; [done|].
  rewrite fanOut_cons, IH.
  - apply upsertScore_filter, Hne. by left.
  - intros l' Hl'. apply Hne. by right.
Qed.


(** A submission is local: it changes the leaderboard of no league the
    player is not a member of, and of no other date. *)
Theorem flatfile_submission_is_local (u d : string) (mistakes : option Z)
    (w w' : FlatFile.World) recorded id d' :
  FlatFile.submitScore (Some u) (Some d) (Some mistakes) w
  = (JS.Json recorded, w') →
  JS.truthy d' = true →
  id ∉ Spec.leaguesOf u (FlatFile.file w) ∨ d' ≠ d →
  (FlatFile.computeLeaderboard id (Some d') w').1
  = (FlatFile.computeLeaderboard id (Some d') w).1.
Proof.
  intros Hrun Hd' Hother.
  destruct (submitScore_file (Some u) (Some d) (Some mistakes) w)
    as [[_ Herr]
       |(? & ? & ? & [= <-] & [= <-] & [= <-] & _
         & [[_ Hsame]|(_ & _ & Hfile)])].
  { by rewrite Hrun in Herr. }
  { rewrite Hrun in Hsame. by injection Hsame as _ ->. }
  rewrite Hrun in Hfile. simpl in Hfile.
  destruct (fanOut_frame u d mistakes (Spec.leaguesOf u (FlatFile.file w)) 0
              (FlatFile.file w) w) as (Hlg & Hpl & Hms).
  rewrite <- Hfile in Hlg, Hpl, Hms.
  rewrite !leaderboard_answer by done. rewrite Hlg.
  replace (FlatFile.prototype w') with (FlatFile.prototype w).
  2:{ pose proof (submitScore_prototype (Some u) (Some d) (Some mistakes) w)
        as Hp. by rewrite Hrun in Hp. }
  rewrite (joinMembers_ext id d' (FlatFile.file w) (FlatFile.file w'));
    [done..|].
  rewrite Hfile. apply fanOut_filter. intros l Hl.
  destruct Hother as [Hid|Hd]; [left|right]; congruence.
Qed.

End SubmissionsShown.


Lemma flatfile_submission_is_local_witness :
  (FlatFile.computeLeaderboard (E := Sample.env) "abcd1234"
     (Some "2024-01-06") Sample.world2).1
  = (FlatFile.computeLeaderboard (E := Sample.env) "abcd1234"
       (Some "2024-01-06") Sample.world1).1.
Proof.
  eapply (flatfile_submission_is_local (E := Sample.env) "u-bob" "2024-01-05"
            (Some 2%Z) Sample.world1 Sample.world2 1).
  - vm_compute. reflexivity.
  - reflexivity.
  - right. discriminate.
Defined.

(** ** What the standings depend on *)

Section Standings.
Context `{E : Env}.

(** Against a played entry, only the mistakes of the two entries are
    compared. *)
Lemma compare_result x y a b :
  Board.played x →
  Board.mistakes x = Board.mistakes y → Board.mistakes a = Board.mistakes b →
  Board.compareMembers x a = Board.compareMembers y b.
Proof.
  intros [m Hm]%played_Some Hxy Hab. unfold Board.compareMembers.
  rewrite <- Hxy, <- Hab, Hm. done.
Qed.

Lemma insert_result x y : ∀ l1 l2,
  Board.played x → Cover.result x = Cover.result y →
  Cover.result <$> l1 = Cover.result <$> l2 →
  Cover.result <$> JS.insert Board.compareMembers x l1
  = Cover.result <$> JS.insert Board.compareMembers y l2.
Proof.
  intros l1 l2 Hx Hxy. revert l2.
  induction l1 as [|a l1 IH]; intros [|b l2] Hl; try done.
  - simpl. by rewrite Hxy.
  - injection Hl as Hu Hm Hl.
    assert (Cover.result a = Cover.result b) as Hab
      by (unfold Cover.result; congruence).
    simpl. rewrite (compare_result x y a b); [|done|exact (f_equal snd Hxy)|done].
    destruct (Board.compareMembers y b <=? 0)%Z; csimpl.
    + rewrite Hxy, Hab. do 2 f_equal. exact Hl.
    + rewrite Hab. f_equal. by apply IH.
Qed.

Lemma sort_result : ∀ l1 l2,
  Forall Board.played l1 →
  Cover.result <$> l1 = Cover.result <$> l2 →
  Cover.result <$> Board.sortMembers l1 = Cover.result <$> Board.sortMembers l2.
Proof.
  unfold Board.sortMembers.
  induction l1 as [|x l1 IH]; intros [|y l2] Hp Hl; try done.
  injection Hl as Hu Hm Hl. apply Forall_cons in Hp as [Hx Hp].
  rewrite !sort_cons. apply insert_result; [done| |by apply IH].
  unfold Cover.result. congruence.
Qed.

Lemma rankFrom_result : ∀ l1 l2 currentRank lastMistakes playedCount,
  Cover.result <$> l1 = Cover.result <$> l2 →
  Cover.standing <$> Service.rankFrom currentRank lastMistakes playedCount l1
  = Cover.standing <$> Service.rankFrom currentRank lastMistakes playedCount l2.
Proof.
  induction l1 as [|x l1 IH]; intros [|y l2] cr lm pc Hl; try done.
  injection Hl as Hu Hm Hl. simpl. rewrite <- Hm.
  destruct (Board.mistakes x) as [m|] eqn:Hx;
    [destruct (decide (Some m ≠ lm))|]; csimpl;
    unfold Cover.standing at 1 3; simpl; rewrite Hu, Hx, <- Hm;
    f_equal; by apply IH.
Qed.

(** The standings are a function of who played with how many mistakes,
    in the order of the member list. *)
Lemma standings_result l1 l2 :
  Cover.result <$> filter Board.played l1
  = Cover.result <$> filter Board.played l2 →
  Cover.standings (FlatFile.assignRanks (Board.sortMembers l1))
  = Cover.standings (FlatFile.assignRanks (Board.sortMembers l2)).
Proof.
  intros Hl. unfold Cover.standings.
  rewrite !assignRanks_agree, !playedRows_ranked. unfold Service.assignRanks.
  apply rankFrom_result, sort_result; [apply Forall_filter_self|done].
Qed.

End Standings.

Section StandingsFrame.
Context `{E : Env}.

Lemma filter_played_result {A} (f g : A → Board.Entry) (l : list A) :
  (∀ x, Cover.result (f x) = Cover.result (g x)) →
  Cover.result <$> filter Board.played (f <$> l)
  = Cover.result <$> filter Board.played (g <$> l).
Proof.
  intros Hfg. induction l as [|x l IH]; [done|].
  csimpl. rewrite !filter_cons.
  pose proof (f_equal snd (Hfg x)) as Hm. simpl in Hm.
  destruct (decide (Board.played (f x))) as [Hf|Hf];
    destruct (decide (Board.played (g x))) as [Hg|Hg]; csimpl.
  - by rewrite Hfg, IH.
  - destruct Hg. unfold Board.played in *. by rewrite <- Hm.
  - destruct Hf. unfold Board.played in *. by rewrite Hm.
  - done.
Qed.

(** Other player records and further memberships without a score leave
    the results of a league and date as they are. *)
Lemma joinMembers_results id d db db' written written' extra :
  FlatFile.scores db' = FlatFile.scores db →
  FlatFile.memberships db' = FlatFile.memberships db ++ extra →
  NoDup (Spec.membershipKey <$> FlatFile.memberships db') →
  Forall (λ s, (FlatFile.Score.playerUuid s, FlatFile.Score.leagueId s)
               ∈ Spec.membershipKey <$> FlatFile.memberships db)
         (FlatFile.scores db) →
  Cover.result <$> filter Board.played (FlatFile.joinMembers id d db' written')
  = Cover.result <$> filter Board.played (FlatFile.joinMembers id d db written).
Proof.
  intros Hs Hm Hnd Hsub. unfold FlatFile.joinMembers.
  rewrite Hs, Hm, filter_app, !fmap_app, filter_app, fmap_app.
  rewrite Hm, fmap_app in Hnd. apply NoDup_app in Hnd as (_ & Hnew & _).
  set (dateScores :=
         filter (λ s, FlatFile.Score.leagueId s = id ∧ FlatFile.Score.date s = d)
                (FlatFile.scores db)).
  rewrite (filter_Forall_nil Board.played (_ <$> (_ <$> filter _ extra))).
  - rewrite app_nil_r. by apply filter_played_result.
  - apply Forall_fmap, Forall_fmap, Forall_forall.
    intros m [Hid Hx]%list_elem_of_filter. simpl. unfold Board.played. simpl.
    intros Hplayed. apply Hplayed.
    destruct (JS.find _ dateScores) as [s|] eqn:Hf; [exfalso|done].
    apply find_Some in Hf as (k & Hk & Hu & _).
    apply list_elem_of_lookup_2, list_elem_of_filter in Hk as [[Hl _] Hin].
    eapply Forall_forall in Hsub; [|exact Hin].
    rewrite Hu, Hl, <- Hid in Hsub. apply (Hnew _ Hsub).
    apply list_elem_of_fmap. by exists m.
Qed.

(** Only a submission changes the standings: whatever else is requested,
    the leaderboard of a league for a given date keeps its played rows,
    with the same players, mistakes and ranks in the same order. *)
Theorem flatfile_standings_change_only_on_submission (r : FlatFile.request)
    (id d : string) (w : FlatFile.World) body :
  FlatFile.reachable w →
  Cover.isSubmission r = false →
  JS.truthy d = true →
  (FlatFile.computeLeaderboard id (Some d) w).1 = JS.Json body →
  ∃ body',
    (FlatFile.computeLeaderboard id (Some d) (FlatFile.serve r w)).1
    = JS.Json body'
    ∧ Board.on_date body' = d
    ∧ Cover.standings (Board.leaderboard body')
      = Cover.standings (Board.leaderboard body).
Proof.
  intros Hw Hr Hd. rewrite !leaderboard_answer by done.
  destruct (JS.get (FlatFile.inheritedKeys (FlatFile.prototype w))
                (FlatFile.leagues (FlatFile.file w)) id) as [league|] eqn:Hl;
    [|done].
  intros [= <-].
  destruct (serve_frames r w) as (Hlg & _ & Hms & Hsc).
  assert (is_Some (JS.get (FlatFile.inheritedKeys
                             (FlatFile.prototype (FlatFile.serve r w)))
                          (FlatFile.leagues (FlatFile.file (FlatFile.serve r w)))
                          id))
    as [league' ->].
  { apply (get_mono (FlatFile.inheritedKeys (FlatFile.prototype w)) _
                    (FlatFile.leagues (FlatFile.file w)));
      [apply serve_inherited| |by eexists].
    intros l Hsome.
    destruct r; first [by apply Hlg | by rewrite Hlg]. }
  eexists. split; [done|]. split; [done|]. simpl.
  assert (FlatFile.memberships (FlatFile.file w)
          `prefix_of` FlatFile.memberships (FlatFile.file (FlatFile.serve r w)))
    as [extra Hextra].
  { destruct r; first [exact Hms | by rewrite Hms]. }
  apply standings_result, (joinMembers_results id d _ _ _ _ extra).
  - by destruct r.
  - done.
  - apply (reachable_wellFormed (FlatFile.serve r w)). by constructor.
  - apply (reachable_wellFormed w Hw).
Qed.

End StandingsFrame.

Lemma flatfile_standings_change_only_on_submission_witness :
  ∃ body,
    (FlatFile.computeLeaderboard (E := Sample.env) "abcd1234" (Some "2024-01-05")
       Sample.world2).1 = JS.Json body
    ∧ ∃ body',
        (FlatFile.computeLeaderboard (E := Sample.env) "abcd1234"
           (Some "2024-01-05")
           (FlatFile.serve (E := Sample.env)
              (FlatFile.JoinLeague "abcd1234" (Some "u-amy") (JS.Str "Amy"))
              Sample.world2)).1
        = JS.Json body'
        ∧ Board.on_date body' = "2024-01-05"
        ∧ Cover.standings (Board.leaderboard body')
          = Cover.standings (Board.leaderboard body).
Proof.
  eexists. split; [vm_compute; reflexivity|].
  eapply (flatfile_standings_change_only_on_submission (E := Sample.env)
            (FlatFile.JoinLeague "abcd1234" (Some "u-amy") (JS.Str "Amy"))
            "abcd1234" "2024-01-05" Sample.world2).
  - apply sample_world2_reachable.
  - reflexivity.
  - reflexivity.
  - vm_compute. reflexivity.
Defined.

(** ** The counts of the routes *)


Section Counts.
Context `{E : Env}.






End Counts.


(** ** The date string *)

Lemma string_app_length (a b : string) :
  String.length (a +:+ b) = String.length a + String.length b.
Proof. induction a as [|c a IH]; simpl; [done|]. by rewrite IH. Qed.

Lemma string_app_inj_length (a a' b b' : string) :
  String.length a = String.length a' →
  (a +:+ b = a' +:+ b')%string → a = a' ∧ b = b'.
Proof.
  revert a'. induction a as [|c a IH]; intros [|c' a'] Hlen Heq; try done.
  simpl in Hlen, Heq. injection Heq as -> Heq.
  destruct (IH a') as [-> ->]; [lia|done|done].
Qed.

Lemma padStart2_length n : n < 100 → String.length (JS.padStart2 n) = 2.
Proof.
  intros Hn.
  assert (forallb (λ k, String.length (JS.padStart2 k) =? 2) (seq 0 100) = true)
    as Hall by (vm_compute; reflexivity).
  rewrite forallb_forall in Hall. apply Nat.eqb_eq, Hall, in_seq. lia.
Qed.

Lemma padStart2_inj n m :
  n < 100 → m < 100 → JS.padStart2 n = JS.padStart2 m → n = m.
Proof.
  intros Hn Hm Heq.
  assert (forallb (λ a, forallb (λ b,
                     implb (String.eqb (JS.padStart2 a) (JS.padStart2 b))
                           (a =? b))
                     (seq 0 100)) (seq 0 100) = true)
    as Hall by (vm_compute; reflexivity).
  rewrite forallb_forall in Hall.
  specialize (Hall n). rewrite forallb_forall in Hall.
  assert (implb (String.eqb (JS.padStart2 n) (JS.padStart2 m)) (n =? m) = true)
    as Himp by (apply Hall; apply in_seq; lia).
  rewrite Heq, String.eqb_refl in Himp. by apply Nat.eqb_eq.
Qed.

(** The date string tells the days apart: two clock readings give the
    same string exactly when they agree on the year, the month and the
    day of the month; and for a year of four digits the string has the
    ten characters of [YYYY-MM-DD], with the dashes in their places. *)
Theorem today_string_tells_days_apart (a b : JS.Date) :
  JS.getMonth a < 12 → JS.getMonth b < 12 →
  JS.getDate a < 32 → JS.getDate b < 32 →
  (getTodayString a = getTodayString b
   ↔ JS.getFullYear a = JS.getFullYear b ∧ JS.getMonth a = JS.getMonth b
     ∧ JS.getDate a = JS.getDate b)
  ∧ (String.length (pretty (JS.getFullYear a)) = 4 →
     String.length (getTodayString a) = 10
     ∧ String.get 4 (getTodayString a) = Some "-"%char
     ∧ String.get 7 (getTodayString a) = Some "-"%char).
Proof.
  intros Hma Hmb Hda Hdb. unfold getTodayString. split; [split|].
  - intros Heq.
    assert (∀ d : JS.Date, JS.getMonth d < 12 → JS.getDate d < 32 →
              String.length ("-" +:+ JS.padStart2 (JS.getMonth d + 1) +:+ "-"
                             +:+ JS.padStart2 (JS.getDate d)) = 6) as Hsix.
    { intros d Hm Hd. rewrite !string_app_length, !padStart2_length by lia.
      done. }
    pose proof (f_equal String.length Heq) as Hl.
    rewrite !(string_app_length (pretty _)), !Hsix in Hl by done.
    apply string_app_inj_length in Heq as [Hy Hrest]; [|lia].
    apply (inj pretty) in Hy.
    injection Hrest as Hrest.
    apply string_app_inj_length in Hrest as [_ Hrest]; [|done].
    apply string_app_inj_length in Hrest as [Hm Hrest];
      [|rewrite !padStart2_length by lia; done].
    injection Hrest as Hd.
    apply padStart2_inj in Hm; [|lia..]. apply padStart2_inj in Hd; [|lia..].
    split_and!; [done|lia|done].
  - by intros (-> & -> & ->).
  - intros Hlen.
    pose proof (padStart2_length (JS.getMonth a + 1) ltac:(lia)) as Hm.
    pose proof (padStart2_length (JS.getDate a) ltac:(lia)) as Hd.
    destruct (pretty (JS.getFullYear a)) as [|y1 [|y2 [|y3 [|y4 [|? ?]]]]];
      try done.
    destruct (JS.padStart2 (JS.getMonth a + 1)) as [|m1 [|m2 [|? ?]]]; try done.
    destruct (JS.padStart2 (JS.getDate a)) as [|d1 [|d2 [|? ?]]]; done.
Qed.

Lemma today_string_tells_days_apart_witness :
  (getTodayString (JS.mkDate 2024 0 5 "2024-01-05T09:30:00.000")
   = getTodayString (JS.mkDate 2024 0 5 "2024-01-05T23:59:59.999")
   ↔ 2024 = 2024 ∧ 0 = 0 ∧ 5 = 5)
  ∧ (String.length (pretty 2024) = 4 →
     String.length
       (getTodayString (JS.mkDate 2024 0 5 "2024-01-05T09:30:00.000")) = 10
     ∧ String.get 4 (getTodayString (JS.mkDate 2024 0 5 "2024-01-05T09:30:00.000"))
       = Some "-"%char
     ∧ String.get 7 (getTodayString (JS.mkDate 2024 0 5 "2024-01-05T09:30:00.000"))
       = Some "-"%char).
Proof.
  apply (today_string_tells_days_apart
           (JS.mkDate 2024 0 5 "2024-01-05T09:30:00.000")
           (JS.mkDate 2024 0 5 "2024-01-05T23:59:59.999")); simpl; lia.
Defined.

(** ** The two variants side by side *)

Section Variants.
Context `{E : Env} {Store League : Type}.
Context `{C : Service.Client Store League} `{W : Routes.Writer Store}.

(** Both variants refuse the same requests: a request is answered with
    status 400 by the flat-file server exactly when the service-backed
    server answers it with status 400, with the same message, whatever
    the two states are; and a request refused so changes neither state.
    For the two routes that read [displayName] from the body this holds
    when the body has the field, or when no display name was written on
    [Object.prototype] in the flat-file process. *)
Theorem variants_refuse_alike (wf : FlatFile.World) (wr : Routes.World Store)
    (ws : Service.World Store) :
  (∀ name msg,
     ((FlatFile.createLeague name wf).1 = JS.Error 400 msg
      ↔ (Routes.createLeague name wr).1 = JS.Error 400 msg)
     ∧ ((FlatFile.createLeague name wf).1 = JS.Error 400 msg →
        (FlatFile.createLeague name wf).2 = wf
        ∧ (Routes.createLeague name wr).2 = wr))
  ∧ (∀ id uuid displayName msg,
       (displayName = JS.Undefined →
        FlatFile.prototype wf !! "__proto__" = None) →
       ((FlatFile.joinLeague id uuid displayName wf).1 = JS.Error 400 msg
        ↔ (Routes.joinLeague id uuid displayName wr).1 = JS.Error 400 msg)
       ∧ ((FlatFile.joinLeague id uuid displayName wf).1 = JS.Error 400 msg →
          (FlatFile.joinLeague id uuid displayName wf).2 = wf
          ∧ (Routes.joinLeague id uuid displayName wr).2 = wr))
  ∧ (∀ uuid date mistakes msg,
       ((FlatFile.submitScore uuid date mistakes wf).1 = JS.Error 400 msg
        ↔ (Service.submitScore uuid date mistakes ws).1 = JS.Error 400 msg)
       ∧ ((FlatFile.submitScore uuid date mistakes wf).1 = JS.Error 400 msg →
          (FlatFile.submitScore uuid date mistakes wf).2 = wf
          ∧ (Service.submitScore uuid date mistakes ws).2 = ws))
  ∧ (∀ uuid displayName msg,
       (displayName = JS.Undefined →
        FlatFile.prototype wf !! "__proto__" = None) →
       ((FlatFile.updatePlayer uuid displayName wf).1 = JS.Error 400 msg
        ↔ (Routes.updatePlayer uuid displayName wr).1 = JS.Error 400 msg)
       ∧ ((FlatFile.updatePlayer uuid displayName wf).1 = JS.Error 400 msg →
          (FlatFile.updatePlayer uuid displayName wf).2 = wf
          ∧ (Routes.updatePlayer uuid displayName wr).2 = wr)).
Proof.
  assert (∀ displayName,
            (displayName = JS.Undefined →
             FlatFile.prototype wf !! "__proto__" = None) →
            FlatFile.bodyDisplayName displayName wf = displayName) as Hbody.
  { intros [| | |] Hsent; try done. simpl. by rewrite Hsent. }
  split_and!.
  - intros name msg.
    unfold FlatFile.createLeague, Routes.createLeague, FlatFile.newLeagueId,
      FlatFile.nowISO, FlatFile.newDate.
    destruct (JS.blank name) as [[|]|]; [simpl; naive_solver| |simpl; naive_solver].
    simpl. destruct (Routes.insertLeague _ _) as [[|] st]; simpl; naive_solver.
  - intros id uuid displayName msg Hsent.
    unfold FlatFile.joinLeague, Routes.joinLeague, FlatFile.loadDB.
    rewrite (Hbody displayName Hsent).
    destruct (JS.missing uuid); [simpl; naive_solver|].
    destruct (JS.blank displayName) as [[|]|];
      [simpl; naive_solver| |simpl; naive_solver].
    destruct (JS.get (FlatFile.inheritedKeys (FlatFile.prototype wf))
                  (FlatFile.leagues (FlatFile.file wf)) id) as [lf|];
      destruct (Service.selectLeague id (Routes.store wr)) as [ls|];
      repeat (match goal with
              | |- context [let '(_, _) := ?x in _] => destruct x as [? ?]
              end); simpl; naive_solver.
  - intros uuid date mistakes msg.
    unfold FlatFile.submitScore, Service.submitScore.
    destruct mistakes as [ms|]; [|simpl; naive_solver].
    destruct (JS.missing uuid || JS.missing date); [simpl; naive_solver|].
    destruct (decide _);
      destruct (Service.selectLeagueIds _ _) as [[|l ls]|];
      repeat (match goal with
              | |- context [let '(_, _) := ?x in _] => destruct x as [? ?]
              end); simpl; naive_solver.
  - intros uuid displayName msg Hsent.
    unfold FlatFile.updatePlayer, Routes.updatePlayer.
    rewrite (Hbody displayName Hsent).
    destruct (JS.blank displayName) as [[|]|];
      [simpl; naive_solver| |simpl; naive_solver].
    destruct (FlatFile.upsertPlayerOnUpdate _ _ _ _) as [db w1].
    destruct (Routes.upsertPlayer _ _) as [[|] st]; simpl; naive_solver.
Qed.

End Variants.

(** Without that condition the variants part: once a display name was
    written on [Object.prototype] (a player update under the identifier
    [__proto__]), the flat-file server reads it for a body that has no
    [displayName] and accepts the join, which the service-backed server
    refuses. *)
Lemma variants_part_after_prototype_write :
  FlatFile.prototype Cover.protoRenamed !! "__proto__" = Some "Eve"
  ∧ (FlatFile.joinLeague (E := Sample.env) "abcd1234" (Some "u-amy")
       JS.Undefined Cover.protoRenamed).1
    = JS.Json (JS.Own (FlatFile.League.mk "abcd1234" "My League"
                         "2024-01-05T09:30:00.000Z"))
  ∧ (FlatFile.players
       (FlatFile.file
          (FlatFile.joinLeague (E := Sample.env) "abcd1234" (Some "u-amy")
             JS.Undefined Cover.protoRenamed).2)
     !! "u-amy")
    = Some (FlatFile.Player.mk "u-amy" "Eve" "2024-01-08T09:30:00.000Z")
  ∧ (Routes.joinLeague (C := Sample.client Sample.healthy)
       (W := Cover.failingWriter) "abcd1234" (Some "u-amy") JS.Undefined
       Cover.routes0).1
    = JS.Error 400 "UUID and display name are required"
  ∧ (FlatFile.updatePlayer (E := Sample.env) "u-amy" JS.Undefined
       Cover.protoRenamed).1
    = JS.Json ()
  ∧ (Routes.updatePlayer (W := Cover.failingWriter) "u-amy" JS.Undefined
       Cover.routes0).1
    = JS.Error 400 "Display name is required".
Proof. vm_compute. done. Qed.

(** ** Refused requests *)

Section Refusals.
Context `{E : Env}.


End Refusals.


Lemma variants_refuse_alike_witness :
  (Routes.joinLeague (C := Sample.client Sample.healthy)
     (W := Cover.failingWriter) "abcd1234" (Some "u-amy") JS.Undefined
     Cover.routes0).1
  = JS.Error 400 "UUID and display name are required".
Proof.
  apply (proj1 (proj1 (proj2 (variants_refuse_alike (E := Sample.env)
                                (C := Sample.client Sample.healthy)
                                (W := Cover.failingWriter)
                                (FlatFile.init) Cover.routes0 Sample.service0))
                 "abcd1234" (Some "u-amy") JS.Undefined
                 "UUID and display name are required"
                 (λ _, eq_refl))).
  vm_compute. reflexivity.
Defined.

Lemma flatfile_nothing_removed_witness :
  is_Some
    (FlatFile.leagues
       (FlatFile.file
          (FlatFile.serve (E := Sample.env)
             (FlatFile.CreateLeague (JS.Str "Another League")) Sample.world2))
     !! "abcd1234").
Proof.
  apply (proj1 (flatfile_nothing_removed (E := Sample.env)
                  (FlatFile.CreateLeague (JS.Str "Another League"))
                  Sample.world2)).
  vm_compute. eexists. reflexivity.
Defined.
